(** * vape4you: the real-time event router ([src/lib/socket.ts]) and its
    client adapter ([useSocket], the chat page's [sendMessage]).

    The development is a shallow embedding: the JavaScript values that
    travel in event payloads, the insertion-ordered [Map] that holds
    presence, the Socket.IO room table, and every handler registered by
    [initSocketServer], written in a small state-and-output monad so that
    each handler reads like its TypeScript source.  Theorems follow the
    definitions. *)

From Stdlib Require Import String Ascii List ZArith Bool Lia DecimalString.
Import ListNotations.
Open Scope string_scope.

(* ================================================================== *)
(** ** JavaScript values *)
(* ================================================================== *)

Module JS.

(** The scalar values a payload field can hold after JSON decoding.
    Numbers are the integers of magnitude below 10^21 (a user id or an
    amount sent as a number, a [Date.now()]); in that range [String()]
    prints the plain decimal numeral.  Fractions, larger numbers (which
    print in exponent form) and fields that hold objects or arrays are
    not modelled. *)
Inductive jsval : Type :=
| JUndefined
| JNull
| JBool (b : bool)
| JNum (n : Z)
| JStr (s : string).

Definition jsval_eq_dec (a b : jsval) : {a = b} + {a <> b}.
Proof.
  decide equality.
  - apply Bool.bool_dec.
  - apply Z.eq_dec.
  - apply string_dec.
Defined.

(** SameValueZero, the key comparison of [Map] and [Set]. *)
Definition same_value_zero (a b : jsval) : bool :=
  match a, b with
  | JUndefined, JUndefined => true
  | JNull, JNull => true
  | JBool x, JBool y => Bool.eqb x y
  | JNum x, JNum y => Z.eqb x y
  | JStr x, JStr y => String.eqb x y
  | _, _ => false
  end.

(** [if (v)], [!v], [a || b]. *)
Definition truthy (v : jsval) : bool :=
  match v with
  | JUndefined | JNull => false
  | JBool b => b
  | JNum n => negb (Z.eqb n 0)
  | JStr s => negb (String.eqb s "")
  end.

Definition js_or (a b : jsval) : jsval := if truthy a then a else b.

(** The decimal numeral of an integer, as a template literal prints an
    integer of magnitude below 10^21. *)
Definition decimal (n : Z) : string := NilZero.string_of_int (Z.to_int n).

(** String conversion inside a template literal [`${v}`]. *)
Definition to_string (v : jsval) : string :=
  match v with
  | JUndefined => "undefined"
  | JNull => "null"
  | JBool true => "true"
  | JBool false => "false"
  | JNum n => decimal n
  | JStr s => s
  end.

(** [s.substr(start, length)] for a non-negative [start]. *)
Definition substr (s : string) (start len : nat) : string :=
  substring start len s.

(** A plain object: its own properties in definition order. *)
Definition obj : Type := list (string * jsval).

(** Property read [o.k]; a missing property reads as [undefined]. *)
Fixpoint field (o : obj) (k : string) : jsval :=
  match o with
  | [] => JUndefined
  | (k', v) :: rest => if String.eqb k k' then v else field rest k
  end.

(** What an emission or an acknowledgement carries. *)
Inductive data : Type :=
| DUndefined
| DObj (o : obj)
| DArr (l : list obj).

(** A value of type [any] that is dereferenced: [None] stands for
    [undefined] or [null], on which a property read throws a TypeError. *)
Definition data_of_any (order : option obj) : data :=
  match order with
  | None => DUndefined
  | Some o => DObj o
  end.

End JS.
Import JS.

(* ================================================================== *)
(** ** The insertion-ordered [Map] *)
(* ================================================================== *)

Module JsMap.
Section Ops.
Context {V : Type}.

(** Entries in insertion order, as [entries()] yields them. *)
Definition t : Type := list (jsval * V).

Definition empty : t := [].

(** [m.set(k, v)]: an existing key keeps its place and takes the new
    value, a new key goes to the end. *)
Fixpoint set (k : jsval) (v : V) (m : t) : t :=
  match m with
  | [] => [(k, v)]
  | (k', v') :: rest =>
      if same_value_zero k k' then (k', v) :: rest
      else (k', v') :: set k v rest
  end.

(** [m.get(k)]. *)
Fixpoint get (k : jsval) (m : t) : option V :=
  match m with
  | [] => None
  | (k', v') :: rest =>
      if same_value_zero k k' then Some v' else get k rest
  end.

(** [m.delete(k)]. *)
Fixpoint delete (k : jsval) (m : t) : t :=
  match m with
  | [] => []
  | (k', v') :: rest =>
      if same_value_zero k k' then rest else (k', v') :: delete k rest
  end.

(** [m.has(k)]. *)
Definition has (k : jsval) (m : t) : bool :=
  match get k m with Some _ => true | None => false end.

(** [m.size]. *)
Definition size (m : t) : nat := List.length m.

(** The keys, in order. *)
Definition keys (m : t) : list jsval := List.map fst m.

(** Keys are unique: what makes an entry list a [Map]. *)
Definition well_formed (m : t) : Prop := NoDup (keys m).

(** The entries stored under a key. *)
Definition entries_for (k : jsval) (m : t) : list (jsval * V) :=
  filter (fun e => same_value_zero (fst e) k) m.

End Ops.
Arguments t : clear implicits.
End JsMap.

(* ================================================================== *)
(** ** Socket.IO: rooms, emission targets, console *)
(* ================================================================== *)

Module SocketIO.

(** The server-side socket object, [CustomSocket]: the three optional
    fields the join handler assigns, and the rooms the socket is in.
    A socket is in the room named by its own id from the start. *)
Record socket : Type := mkSocket {
  id : string;
  userId : jsval;
  userRole : jsval;
  userName : jsval;
  rooms : list jsval
}.

Definition new_socket (sid : string) : socket :=
  {| id := sid; userId := JUndefined; userRole := JUndefined;
     userName := JUndefined; rooms := [JStr sid] |}.

(** Where an [emit] is addressed. *)
Inductive target : Type :=
| ToAll                                   (* io.emit *)
| ToRoom (room : jsval)                   (* io.to(room).emit *)
| ToSocket (sid : string)                 (* socket.emit *)
| ToRoomExcept (room : jsval) (sid : string). (* socket.broadcast.to(room).emit *)

Inductive logarg : Type :=
| LStr (s : string)
| LErr (name : string).

(** Everything a handler does to the outside, in program order. *)
Inductive output : Type :=
| Emit (t : target) (ev : string) (d : data)
| Ack (sid : string) (d : data)           (* the callback of a request *)
| ConsoleLog (args : list logarg)
| ConsoleWarn (args : list logarg)
| ConsoleError (args : list logarg).

Definition in_room (r : jsval) (s : socket) : bool :=
  existsb (same_value_zero r) (rooms s).

(** The connections an emission is delivered to. *)
Definition recipients (socks : list socket) (t : target) : list string :=
  match t with
  | ToAll => map id socks
  | ToRoom r => map id (filter (in_room r) socks)
  | ToSocket sid => map id (filter (fun s => String.eqb (id s) sid) socks)
  | ToRoomExcept r sid =>
      map id (filter (fun s => in_room r s && negb (String.eqb (id s) sid)) socks)
  end.

(** The emissions among the outputs, console lines dropped. *)
Fixpoint emissions (outs : list output) : list (target * string * data) :=
  match outs with
  | [] => []
  | Emit t ev d :: rest => (t, ev, d) :: emissions rest
  | _ :: rest => emissions rest
  end.

(** The console lines among the outputs. *)
Fixpoint console (outs : list output) : list output :=
  match outs with
  | [] => []
  | Emit _ _ _ :: rest => console rest
  | Ack _ _ :: rest => console rest
  | o :: rest => o :: console rest
  end.

End SocketIO.
Import SocketIO.

(* ================================================================== *)
(** ** The handler monad: state and outputs *)
(* ================================================================== *)

Module Handler.

(** A handler run: from a state, a result, the next state, and the
    outputs produced in order. *)
Definition M (S A : Type) : Type := S -> A * S * list output.

Definition ret {S A} (a : A) : M S A := fun s => (a, s, []).

Definition bind {S A B} (m : M S A) (k : A -> M S B) : M S B :=
  fun s =>
    let '(a, s1, o1) := m s in
    let '(b, s2, o2) := k a s1 in
    (b, s2, (o1 ++ o2)%list).

Definition read {S} : M S S := fun s => (s, s, []).
Definition modify {S} (f : S -> S) : M S unit := fun s => (tt, f s, []).
Definition write {S} (o : output) : M S unit := fun s => (tt, s, [o]).

(** The state and the outputs of a run. *)
Definition exec {S A} (m : M S A) (s : S) : S * list output :=
  let '(_, s', o) := m s in (s', o).

End Handler.
Import Handler.

Notation "x <- m ;; k" := (bind m (fun x => k))
  (at level 61, m at next level, right associativity).
Notation "m ;; k" := (bind m (fun _ => k))
  (at level 61, right associativity).

(* ================================================================== *)
(** ** The event router of [initSocketServer] *)
(* ================================================================== *)

Module Server.

(** The value stored under a user id in [connectedUsers]. *)
Record presence : Type := mkPresence {
  socketId : string;
  role : jsval;
  name : jsval;
  online : bool
}.

(** The state closed over by the connection callback: the presence map
    and the sockets Socket.IO currently holds. *)
Record server : Type := mkServer {
  connectedUsers : JsMap.t presence;
  sockets : list socket
}.

Definition initial : server :=
  {| connectedUsers := JsMap.empty; sockets := [] |}.

(** What the handlers read from the clock and the random source while
    an event is processed: [Date.now()], [Math.random().toString(36)],
    and the two [new Date().toISOString()] readings a handler may take. *)
Record clock : Type := mkClock {
  date_now : Z;
  random_base36 : string;
  iso_string : string;
  iso_string_again : string
}.

(** *** Primitive effects *)

Definition console_log (args : list logarg) : M server unit :=
  write (ConsoleLog args).

Definition update_socket (sid : string) (f : socket -> socket) : M server unit :=
  modify (fun st =>
    {| connectedUsers := connectedUsers st;
       sockets := map (fun s => if String.eqb (id s) sid then f s else s)
                      (sockets st) |}).

(** [socket.userId = u; socket.userRole = r; socket.userName = n]. *)
Definition assign_identity (sid : string) (u r n : jsval) : M server unit :=
  update_socket sid (fun s =>
    {| id := id s; userId := u; userRole := r; userName := n;
       rooms := rooms s |}).

(** [socket.join(room)]: rooms are a set. *)
Definition socket_join (sid : string) (room : jsval) : M server unit :=
  update_socket sid (fun s =>
    {| id := id s; userId := userId s; userRole := userRole s;
       userName := userName s;
       rooms := if in_room room s then rooms s else (rooms s ++ [room])%list |}).

Definition connectedUsers_set (k : jsval) (v : presence) : M server unit :=
  modify (fun st =>
    {| connectedUsers := JsMap.set k v (connectedUsers st);
       sockets := sockets st |}).

Definition connectedUsers_delete (k : jsval) : M server unit :=
  modify (fun st =>
    {| connectedUsers := JsMap.delete k (connectedUsers st);
       sockets := sockets st |}).

Definition connectedUsers_entries : M server (list (jsval * presence)) :=
  st <- read ;; ret (connectedUsers st).

Definition io_emit (ev : string) (o : obj) : M server unit :=
  write (Emit ToAll ev (DObj o)).

Definition io_to_emit (room : jsval) (ev : string) (o : obj) : M server unit :=
  write (Emit (ToRoom room) ev (DObj o)).

Definition socket_emit (sid : string) (ev : string) (o : obj) : M server unit :=
  write (Emit (ToSocket sid) ev (DObj o)).

Definition socket_broadcast_to_emit (sid : string) (room : jsval) (ev : string)
  (o : obj) : M server unit :=
  write (Emit (ToRoomExcept room sid) ev (DObj o)).

(** The personal channel [`user-${userId}`]. *)
Definition user_room (u : jsval) : jsval := JStr ("user-" ++ to_string u).

(** *** The handlers, one per [socket.on] *)

(** [io.on('connection', ...)]: the socket enters the table, in its own
    room; the handlers below are registered on it. *)
Definition on_connection (sid : string) : M server unit :=
  modify (fun st =>
    {| connectedUsers := connectedUsers st;
       sockets := (sockets st ++ [new_socket sid])%list |}) ;;
  console_log [LStr "✅ Client connected:"; LStr sid].

Definition on_join_user (sid : string) (p : obj) : M server unit :=
  let userId := field p "userId" in
  let role := field p "role" in
  let name := field p "name" in
  console_log [LStr ("👤 User joined: " ++ to_string name ++ " ("
                       ++ to_string role ++ ")")] ;;
  assign_identity sid userId role name ;;
  socket_join sid (user_room userId) ;;
  socket_join sid role ;;
  connectedUsers_set userId
    {| socketId := sid; role := role; name := name; online := true |} ;;
  io_emit "user-online"
    [("userId", userId); ("role", role); ("name", name);
     ("online", JBool true)].

(** The record built by the send-message handler. *)
Definition fullMessage (clk : clock) (p : obj) : obj :=
  let chatId := field p "chatId" in
  let message := field p "message" in
  let recipientId := field p "recipientId" in
  let senderId := field p "senderId" in
  [("id", JStr ("msg-" ++ decimal (date_now clk) ++ "-"
                  ++ substr (random_base36 clk) 2 9));
   ("chatId", chatId);
   ("senderId", senderId);
   ("message", message);
   ("timestamp", JStr (iso_string clk));
   ("recipientId", recipientId)].

Definition on_send_message (clk : clock) (sid : string) (p : obj) : M server unit :=
  let chatId := field p "chatId" in
  let recipientId := field p "recipientId" in
  console_log [LStr ("💬 New message in chat " ++ to_string chatId)] ;;
  let fullMessage := fullMessage clk p in
  io_to_emit (user_room recipientId) "receive-message" fullMessage ;;
  socket_emit sid "message-sent" fullMessage.

Definition on_typing (sid : string) (p : obj) : M server unit :=
  let chatId := field p "chatId" in
  let name := field p "name" in
  socket_broadcast_to_emit sid chatId "user-typing"
    [("chatId", chatId); ("name", name)].

Definition on_stop_typing (sid : string) (p : obj) : M server unit :=
  let chatId := field p "chatId" in
  socket_broadcast_to_emit sid chatId "user-stop-typing" [("chatId", chatId)].

Definition on_mark_read (sid : string) (p : obj) : M server unit :=
  let chatId := field p "chatId" in
  let messageId := field p "messageId" in
  let userId := field p "userId" in
  io_to_emit chatId "message-read"
    [("chatId", chatId); ("messageId", messageId); ("userId", userId)].

Definition on_order_paid (clk : clock) (sid : string) (p : obj) : M server unit :=
  let orderId := field p "orderId" in
  let userId := field p "userId" in
  let amount := field p "amount" in
  let paymentMethod := field p "paymentMethod" in
  console_log [LStr ("💰 Payment notification: Order " ++ to_string orderId)] ;;
  io_to_emit (JStr "vendor") "new-order-payment"
    [("orderId", orderId); ("userId", userId); ("amount", amount);
     ("paymentMethod", paymentMethod); ("timestamp", JStr (iso_string clk))] ;;
  io_to_emit (user_room userId) "payment-confirmed" [("orderId", orderId)].

Definition on_order_status_updated (clk : clock) (sid : string) (p : obj)
  : M server unit :=
  let orderId := field p "orderId" in
  let status := field p "status" in
  let clientId := field p "clientId" in
  console_log [LStr ("📦 Order status update: Order " ++ to_string orderId
                       ++ " -> " ++ to_string status)] ;;
  io_to_emit (user_room clientId) "order-status-changed"
    [("orderId", orderId); ("status", status);
     ("timestamp", JStr (iso_string clk))] ;;
  io_to_emit (JStr "vendor") "order-status-changed"
    [("orderId", orderId); ("status", status);
     ("timestamp", JStr (iso_string_again clk))].

(** One element of [onlineUsers]. *)
Definition online_user (e : jsval * presence) : obj :=
  [("id", fst e); ("name", name (snd e)); ("role", role (snd e));
   ("online", JBool true)].

Definition on_get_online_users (sid : string) : M server unit :=
  entries <- connectedUsers_entries ;;
  write (Ack sid (DArr (map online_user entries))).

(** The [for ... of connectedUsers.entries()] loop of the disconnect
    handler: the first entry whose [socketId] is this socket's is
    deleted and announced, and the loop breaks there. *)
Fixpoint disconnect_loop (sid : string) (entries : list (jsval * presence))
  : M server unit :=
  match entries with
  | [] => ret tt
  | (userId, user) :: rest =>
      if String.eqb (socketId user) sid then
        connectedUsers_delete userId ;;
        io_emit "user-offline"
          [("userId", userId); ("name", name user); ("role", role user);
           ("online", JBool false)]
      else disconnect_loop sid rest
  end.

(** Socket.IO takes the socket out of its rooms and of the server before
    the [disconnect] listener runs. *)
Definition on_disconnect (sid : string) : M server unit :=
  modify (fun st =>
    {| connectedUsers := connectedUsers st;
       sockets := filter (fun s => negb (String.eqb (id s) sid)) (sockets st) |}) ;;
  console_log [LStr "❌ Client disconnected:"; LStr sid] ;;
  entries <- connectedUsers_entries ;;
  disconnect_loop sid entries.

(** *** Events and the step function *)

Inductive event : Type :=
| Connection (sid : string)
| JoinUser (sid : string) (p : obj)
| SendMessage (sid : string) (p : obj)
| Typing (sid : string) (p : obj)
| StopTyping (sid : string) (p : obj)
| MarkRead (sid : string) (p : obj)
| OrderPaid (sid : string) (p : obj)
| OrderStatusUpdated (sid : string) (p : obj)
| GetOnlineUsers (sid : string)
| Disconnect (sid : string).

Definition handle (clk : clock) (e : event) : M server unit :=
  match e with
  | Connection sid => on_connection sid
  | JoinUser sid p => on_join_user sid p
  | SendMessage sid p => on_send_message clk sid p
  | Typing sid p => on_typing sid p
  | StopTyping sid p => on_stop_typing sid p
  | MarkRead sid p => on_mark_read sid p
  | OrderPaid sid p => on_order_paid clk sid p
  | OrderStatusUpdated sid p => on_order_status_updated clk sid p
  | GetOnlineUsers sid => on_get_online_users sid
  | Disconnect sid => on_disconnect sid
  end.

(** One event processed to completion on the event loop. *)
Definition step (st : server) (ce : clock * event) : server * list output :=
  exec (handle (fst ce) (snd ce)) st.

(** A sequence of events, each with its clock readings, in order. *)
Fixpoint run (st : server) (tr : list (clock * event)) : server * list output :=
  match tr with
  | [] => (st, [])
  | ce :: rest =>
      let '(st1, o1) := step st ce in
      let '(st2, o2) := run st1 rest in
      (st2, (o1 ++ o2)%list)
  end.

Definition state_after (st : server) (tr : list (clock * event)) : server :=
  fst (run st tr).

Definition registry_size (st : server) : nat := JsMap.size (connectedUsers st).

(** *** Vocabulary for the properties *)

(** The entry is registered to connection [sid]. *)
Definition held_by (sid : string) (e : jsval * presence) : bool :=
  String.eqb (socketId (snd e)) sid.

(** The entry the disconnect loop stops at. *)
Definition first_held (sid : string) (m : JsMap.t presence)
  : option (jsval * presence) :=
  find (held_by sid) m.

(** The two presence broadcasts. *)
Definition user_online (u r n : jsval) : target * string * data :=
  (ToAll, "user-online",
   DObj [("userId", u); ("role", r); ("name", n); ("online", JBool true)]).

Definition user_offline (u : jsval) (e : presence) : target * string * data :=
  (ToAll, "user-offline",
   DObj [("userId", u); ("name", name e); ("role", role e);
         ("online", JBool false)]).

(** The {userId, name, role} a presence broadcast carries. *)
Definition identity_of (em : target * string * data) : jsval * jsval * jsval :=
  match snd em with
  | DObj o => (field o "userId", field o "name", field o "role")
  | _ => (JUndefined, JUndefined, JUndefined)
  end.

(** The entry a join writes. *)
Definition joined_entry (sid : string) (p : obj) : presence :=
  {| socketId := sid; role := field p "role"; name := field p "name";
     online := true |}.

(** A value that is there and is not the empty string. *)
Definition nonempty (v : jsval) : bool :=
  match v with
  | JUndefined | JNull => false
  | JStr s => negb (String.eqb s "")
  | _ => true
  end.

Definition presence_nonempty (e : jsval * presence) : bool :=
  nonempty (fst e) && nonempty (role (snd e)) && nonempty (name (snd e)).

(** Every join-user of the trace names a user id, a role and a name. *)
Definition join_named (ce : clock * event) : bool :=
  match snd ce with
  | JoinUser _ p =>
      nonempty (field p "userId") && nonempty (field p "role")
      && nonempty (field p "name")
  | _ => true
  end.

(** Between a join of [sid] as [u] and its disconnect: no disconnect,
    and no join other than [sid] joining as [u] again. *)
Definition quiet (sid : string) (u : jsval) (ce : clock * event) : bool :=
  match snd ce with
  | JoinUser s p => String.eqb s sid && same_value_zero (field p "userId") u
  | Disconnect _ => false
  | _ => true
  end.

(** Between a join of [sid] as [u] and its disconnect: nobody joins as
    [u], [sid] joins as nobody else, and [sid] does not disconnect. *)
Definition undisturbed (sid : string) (u : jsval) (ce : clock * event) : bool :=
  match snd ce with
  | JoinUser s p =>
      negb (String.eqb s sid) && negb (same_value_zero (field p "userId") u)
  | Disconnect s => negb (String.eqb s sid)
  | _ => true
  end.

(** Connection [sid] is registered under no user id other than [u]. *)
Definition holds_only (sid : string) (u : jsval) (m : JsMap.t presence) : bool :=
  forallb (fun e => same_value_zero (fst e) u || negb (held_by sid e)) m.

(** The event is not a join-user of connection [sid]. *)
Definition not_join_of (sid : string) (ce : clock * event) : bool :=
  match snd ce with
  | JoinUser s _ => negb (String.eqb s sid)
  | _ => true
  end.


(** The registry after an event, read off the handlers: only join-user
    and disconnect touch it.  [registry_step] below proves the reading. *)
Definition registry_next (m : JsMap.t presence) (e : event) : JsMap.t presence :=
  match e with
  | JoinUser sid p => JsMap.set (field p "userId") (joined_entry sid p) m
  | Disconnect sid =>
      match first_held sid m with
      | Some (u, _) => JsMap.delete u m
      | None => m
      end
  | _ => m
  end.

(** The connection has joined the personal channel of [u]. *)
Definition joined_as (u : jsval) (s : socket) : bool :=
  in_room (user_room u) s.

End Server.
Import Server.

(* ================================================================== *)
(** ** The process-wide handle and the order emitters *)
(* ================================================================== *)

Module Process.

(** [globalThis.__io]: absent until [initSocketServer] has run.  The
    same instance is also stored in [res.socket.server.io]; the two are
    assigned together, so one field stands for both. *)
Record process : Type := mkProcess {
  global_io : option server
}.

Definition fresh : process := {| global_io := None |}.

Definition to_emit (room : jsval) (ev : string) (d : data) : M process unit :=
  write (Emit (ToRoom room) ev d).

Definition console_error (args : list logarg) : M process unit :=
  write (ConsoleError args).

Definition initSocketServer : M process unit :=
  p <- read ;;
  match global_io p with
  | None =>
      write (ConsoleLog [LStr "🔄 Initializing Socket.IO server..."]) ;;
      modify (fun _ => {| global_io := Some initial |})
  | Some _ => ret tt
  end.

(** An event arriving on the instance, once it exists. *)
Definition dispatch (ce : clock * event) : M process unit :=
  fun p =>
    match global_io p with
    | None => (tt, p, [])
    | Some st =>
        let '(st', o) := step st ce in
        (tt, {| global_io := Some st' |}, o)
    end.

(** [emitOrderCreated(order)].  The body runs inside [try]; reading
    [order.userId] of an absent order throws, and the [catch] logs. *)
Definition emitOrderCreated (order : option obj) : M process unit :=
  p <- read ;;
  match global_io p with
  | None => ret tt
  | Some _ =>
      to_emit (JStr "vendor") "order-created" (data_of_any order) ;;
      match order with
      | None => console_error [LStr "emitOrderCreated error"; LErr "TypeError"]
      | Some o =>
          if truthy (field o "userId")
          then to_emit (user_room (field o "userId")) "order-created" (DObj o)
          else ret tt
      end
  end.

(** [emitOrderUpdated(order)]. *)
Definition emitOrderUpdated (clk : clock) (order : option obj) : M process unit :=
  p <- read ;;
  match global_io p with
  | None => ret tt
  | Some _ =>
      to_emit (JStr "vendor") "order-updated" (data_of_any order) ;;
      match order with
      | None => console_error [LStr "emitOrderUpdated error"; LErr "TypeError"]
      | Some o =>
          (if truthy (field o "userId")
           then to_emit (user_room (field o "userId")) "order-updated" (DObj o)
           else ret tt) ;;
          if truthy (field o "status")
          then to_emit (user_room (field o "userId")) "order-status-changed"
                 (DObj [("orderId", js_or (field o "id") (field o "_id"));
                        ("status", field o "status");
                        ("timestamp", JStr (iso_string clk))])
          else ret tt
      end
  end.

End Process.

(* ================================================================== *)
(** ** The client adapter *)
(* ================================================================== *)

Module Client.

(** [UseSocketOptions]: each field is optional. *)
Record UseSocketOptions : Type := mkOptions {
  userId : jsval;
  userName : jsval;
  userRole : jsval
}.

(** What [useSocket] emits as [join-user] on every connect.  With a
    field missing the effect returns before a socket is created. *)
Definition useSocket_join (o : UseSocketOptions) : option obj :=
  if negb (truthy (userId o)) || negb (truthy (userName o))
     || negb (truthy (userRole o))
  then None
  else Some [("userId", userId o); ("role", userRole o); ("name", userName o)].

(** The [send-message] payload of the chat page's [sendMessage]:
    [message] is the trimmed text, [saved] is [data.message] of the
    store's response; [data.message?.id] of a missing one is undefined. *)
Definition sendMessage_payload (chatId message senderId recipientId : jsval)
  (saved : option obj) : obj :=
  [("chatId", chatId);
   ("message", message);
   ("senderId", senderId);
   ("recipientId", recipientId);
   ("id", match saved with Some m => field m "id" | None => JUndefined end);
   ("timestamp",
     match saved with Some m => field m "timestamp" | None => JUndefined end)].

(** The id and timestamp [buildRealtimeMessage] gives an incoming
    payload: the supplied ones, generated ones only in their absence. *)
Definition buildRealtimeMessage_id (clk : clock) (payload : obj) : jsval :=
  js_or (field payload "id") (JStr ("socket-" ++ decimal (date_now clk))).

Definition buildRealtimeMessage_timestamp (clk : clock) (payload : obj) : jsval :=
  js_or (field payload "timestamp") (JStr (iso_string clk)).

End Client.

(* ================================================================== *)
(** ** Worked runs *)
(* ================================================================== *)

Module Runs.

Definition clk0 : clock :=
  {| date_now := 1700000000000; random_base36 := "0.k3j9x7q2mzp";
     iso_string := "2023-11-14T22:13:20.000Z";
     iso_string_again := "2023-11-14T22:13:20.001Z" |}.

Definition join (u r n : string) : obj :=
  [("userId", JStr u); ("role", JStr r); ("name", JStr n)].

Definition at0 (e : event) : clock * event := (clk0, e).

(** Ann (client) on connection s1 and Bob (vendor) on s2 have joined. *)
Definition ann_and_bob : server :=
  state_after initial
    [at0 (Connection "s1"); at0 (JoinUser "s1" (join "A" "client" "Ann"));
     at0 (Connection "s2"); at0 (JoinUser "s2" (join "B" "vendor" "Bob"))].

Definition ann_socket : socket :=
  {| id := "s1"; userId := JStr "A"; userRole := JStr "client";
     userName := JStr "Ann";
     rooms := [JStr "s1"; JStr "user-A"; JStr "client"] |}.

Definition bob_socket : socket :=
  {| id := "s2"; userId := JStr "B"; userRole := JStr "vendor";
     userName := JStr "Bob";
     rooms := [JStr "s2"; JStr "user-B"; JStr "vendor"] |}.

(** Ann writes to Bob in chat c1. *)
Definition hi_bob : obj :=
  [("chatId", JStr "c1"); ("message", JStr "hi"); ("recipientId", JStr "B");
   ("senderId", JStr "A")].

(** Ann connects, joins, writes to Bob, and Bob's connection joins. *)
Definition ann_session : list (clock * event) :=
  [at0 (Connection "s1"); at0 (JoinUser "s1" (join "A" "client" "Ann"));
   at0 (SendMessage "s1" hi_bob); at0 (Connection "s2");
   at0 (JoinUser "s2" (join "B" "vendor" "Bob"))].

(** A join-user whose three fields are empty strings. *)
Definition blank_join : list (clock * event) :=
  [at0 (Connection "s1"); at0 (JoinUser "s1" (join "" "" ""))].

(** A third connection is open while Ann and Bob are present. *)
Definition third_connected : server :=
  state_after ann_and_bob [at0 (Connection "s3")].

(** The third connection joins as Ann (a reconnect) and goes away. *)
Definition rejoin_as_ann : list (clock * event) :=
  [at0 (JoinUser "s3" (join "A" "client" "Ann")); at0 (Disconnect "s3")].

(** The third connection joins as a new user Cy, chats, announces
    itself once more, and goes away. *)
Definition cy_joins : obj := join "C" "client" "Cy".

Definition cy_session : list (clock * event) :=
  [at0 (SendMessage "s3" hi_bob); at0 (JoinUser "s3" (join "C" "client" "Cyrus"));
   at0 (Connection "s4")].

(** The message as the chat store saved it, and the payload the chat
    page then sends: it carries the stored id and timestamp. *)
Definition saved_message : obj :=
  [("id", JStr "m-42"); ("chatId", JStr "c1"); ("senderId", JStr "A");
   ("message", JStr "hi"); ("timestamp", JStr "2023-11-14T22:13:19.500Z")].

Definition hi_bob_saved : obj :=
  Client.sendMessage_payload (JStr "c1") (JStr "hi") (JStr "A") (JStr "B")
    (Some saved_message).

(** An order of client C that has been shipped. *)
Definition shipped_order : obj :=
  [("id", JStr "o1"); ("userId", JStr "C"); ("status", JStr "shipped")].

Definition serving : Process.process :=
  {| Process.global_io := Some ann_and_bob |}.

(** Ann alone, on connection s1. *)
Definition ann_alone : server :=
  state_after initial
    [at0 (Connection "s1"); at0 (JoinUser "s1" (join "A" "client" "Ann"))].

(** One connection joins as Ann and then as Bob. *)
Definition two_identities : list (clock * event) :=
  [at0 (Connection "s1"); at0 (JoinUser "s1" (join "A" "client" "Ann"));
   at0 (JoinUser "s1" (join "B" "vendor" "Bob"))].

(** While Cy is present on s3: a message, a fourth connection joining
    as Dee, and Bob leaving. *)
Definition around_cy : list (clock * event) :=
  [at0 (SendMessage "s3" hi_bob); at0 (Connection "s4");
   at0 (JoinUser "s4" (join "D" "client" "Dee")); at0 (Disconnect "s2")].

(** Ann and Bob join; a third connection opens and only chats. *)
Definition lurker : list (clock * event) :=
  [at0 (Connection "s1"); at0 (JoinUser "s1" (join "A" "client" "Ann"));
   at0 (Connection "s2"); at0 (JoinUser "s2" (join "B" "vendor" "Bob"));
   at0 (Connection "s3"); at0 (SendMessage "s3" hi_bob)].

End Runs.

(* ================================================================== *)
(** ** The socket table, event by event *)
(* ================================================================== *)

Module Rooms.

(** [rooms.add(room)] on the socket's room set. *)
Definition add_room (room : jsval) (rs : list jsval) : list jsval :=
  if existsb (same_value_zero room) rs then rs else (rs ++ [room])%list.

(** The socket object once the join handler has assigned the three
    fields and joined the personal and the role channel. *)
Definition joined_socket (p : obj) (s : socket) : socket :=
  {| id := id s;
     userId := field p "userId";
     userRole := field p "role";
     userName := field p "name";
     rooms := add_room (field p "role")
                (add_room (user_room (field p "userId")) (rooms s)) |}.

(** The socket table after an event, read off the handlers: a
    connection adds a socket, a join changes the joining socket, a
    disconnect takes the socket away.  [sockets_step] proves the
    reading. *)
Definition sockets_next (socks : list socket) (e : event) : list socket :=
  match e with
  | Connection sid => (socks ++ [new_socket sid])%list
  | JoinUser sid p =>
      map (fun s => if String.eqb (id s) sid then joined_socket p s else s) socks
  | Disconnect sid => filter (fun s => negb (String.eqb (id s) sid)) socks
  | _ => socks
  end.

(** The event brings no connection into the room named [c]: it is not
    the connection of a socket whose id is [c], nor a join whose
    personal channel or role is [c]. *)
Definition avoids_room (c : jsval) (ce : clock * event) : bool :=
  match snd ce with
  | Connection sid => negb (same_value_zero c (JStr sid))
  | JoinUser _ p =>
      negb (same_value_zero c (user_room (field p "userId")))
      && negb (same_value_zero c (field p "role"))
  | _ => true
  end.

(** The entries registered to a connection, in registry order. *)
Definition held_entries (sid : string) (m : JsMap.t presence)
  : list (jsval * presence) :=
  filter (held_by sid) m.

(** The entry was written by a join-user of the run: same connection,
    same user id, role and name. *)
Definition written_by (ue : jsval * presence) (ce : clock * event) : Prop :=
  exists p, snd ce = JoinUser (socketId (snd ue)) p
            /\ fst ue = field p "userId"
            /\ snd ue = joined_entry (socketId (snd ue)) p.

(** The answer of get-online-users among the outputs. *)
Fixpoint acks (outs : list output) : list (string * data) :=
  match outs with
  | [] => []
  | Ack sid d :: rest => (sid, d) :: acks rest
  | _ :: rest => acks rest
  end.

End Rooms.

(* ================================================================== *)
(** ** The API route [pages/api/socketio.ts] *)
(* ================================================================== *)

Module Api.

(** [ioHandler]: every request to the route runs [initSocketServer] and
    ends the response. *)
Definition ioHandler : M Process.process unit := Process.initSocketServer.

End Api.

(* ================================================================== *)
(** ** Object literals *)
(* ================================================================== *)

Module Objects.

(** [a === b].  On the scalars modelled here strict equality and
    SameValueZero agree. *)
Definition strict_equal (a b : jsval) : bool := same_value_zero a b.

(** [a !== b]. *)
Definition strict_unequal (a b : jsval) : bool := negb (strict_equal a b).

(** One property written into an object: an existing key keeps its
    place and takes the new value, a new key goes to the end. *)
Fixpoint assign (k : string) (v : jsval) (o : obj) : obj :=
  match o with
  | [] => [(k, v)]
  | (k', v') :: rest =>
      if String.eqb k k' then (k', v) :: rest
      else (k', v') :: assign k v rest
  end.

(** [{ ...base, ...extra }]: the properties of [extra] written into a
    copy of [base], in order. *)
Definition spread (base extra : obj) : obj :=
  fold_left (fun acc kv => assign (fst kv) (snd kv) acc) extra base.

(** ['k' in o] for an own property. *)
Definition has_own (o : obj) (k : string) : bool :=
  existsb (fun kv => String.eqb k (fst kv)) o.

End Objects.

(* ================================================================== *)
(** ** The chat page *)
(* ================================================================== *)

Module ChatPage.
Import Objects.

(** [session.user]. *)
Record SessionUser : Type := mkSessionUser {
  user_id : jsval;
  user_name : jsval;
  user_role : jsval
}.

Record Participants : Type := mkParticipants {
  vendorId : jsval;
  vendorName : jsval;
  clientId : jsval;
  clientName : jsval
}.

(** [ChatSession], with the fields the handlers read. *)
Record ChatSession : Type := mkChatSession {
  session_id : jsval;
  participants : Participants
}.

Record Message : Type := mkMessage {
  id : jsval;
  senderId : jsval;
  senderName : jsval;
  senderRole : jsval;
  message : jsval;
  timestamp : jsval;
  chatId : jsval;
  recipientId : jsval;
  recipientName : jsval;
  read : bool
}.

(** [selectedSessionRef.current?.id]. *)
Definition selected_id (selected : option ChatSession) : jsval :=
  match selected with
  | Some s => session_id s
  | None => JUndefined
  end.

(** [buildRealtimeMessage(payload, chatSession)]; [clk] is the browser's
    clock, [user] is [session?.user]. *)
Definition buildRealtimeMessage (clk : clock) (user : option SessionUser)
  (payload : obj) (chatSession : ChatSession) : option Message :=
  match user with
  | None => None
  | Some u =>
      let viewerIsVendor :=
        strict_equal (user_id u) (vendorId (participants chatSession)) in
      let otherName :=
        if viewerIsVendor then clientName (participants chatSession)
        else vendorName (participants chatSession) in
      let otherRole := if viewerIsVendor then JStr "client" else JStr "vendor" in
      let isCurrentUserSender :=
        strict_equal (field payload "senderId") (user_id u) in
      Some {| id := Client.buildRealtimeMessage_id clk payload;
              chatId := field payload "chatId";
              message := field payload "message";
              senderId := field payload "senderId";
              senderName := if isCurrentUserSender
                            then js_or (user_name u) (JStr "You")
                            else otherName;
              senderRole := if isCurrentUserSender then user_role u
                            else otherRole;
              recipientId := field payload "recipientId";
              recipientName := if isCurrentUserSender then otherName
                               else js_or (user_name u) (JStr "");
              timestamp := Client.buildRealtimeMessage_timestamp clk payload;
              read := isCurrentUserSender |}
  end.

(** [handleReceiveMessage]: what [setMessages] leaves in [messages]. *)
Definition handleReceiveMessage (clk : clock) (user : option SessionUser)
  (active : option ChatSession) (payload : obj) (prev : list Message)
  : list Message :=
  match active with
  | Some a =>
      if strict_equal (session_id a) (field payload "chatId") then
        match buildRealtimeMessage clk user payload a with
        | Some realtimeMessage => (prev ++ [realtimeMessage])%list
        | None => prev
        end
      else prev
  | None => prev
  end.

(** [handleTyping] and [handleStopTyping]: the next [typingUser]
    ([null] when nobody types). *)
Definition handleTyping (selected : option ChatSession) (payload : obj)
  (typingUser : jsval) : jsval :=
  if strict_equal (selected_id selected) (field payload "chatId")
  then field payload "name" else typingUser.

Definition handleStopTyping (selected : option ChatSession) (payload : obj)
  (typingUser : jsval) : jsval :=
  if strict_equal (selected_id selected) (field payload "chatId")
  then JNull else typingUser.

(** [{ ...msg, read: true }]. *)
Definition mark_read (msg : Message) : Message :=
  {| id := id msg; senderId := senderId msg; senderName := senderName msg;
     senderRole := senderRole msg; message := message msg;
     timestamp := timestamp msg; chatId := chatId msg;
     recipientId := recipientId msg; recipientName := recipientName msg;
     read := true |}.

(** [handleMessageRead]. *)
Definition handleMessageRead (selected : option ChatSession) (payload : obj)
  (prev : list Message) : list Message :=
  if strict_unequal (selected_id selected) (field payload "chatId") then prev
  else map (fun msg => if strict_equal (id msg) (field payload "messageId")
                       then mark_read msg else msg) prev.

(** The effect that runs when [messages] or the selected session
    change: the mark-read payloads it emits, in order. *)
Definition markReadEffect (user : option SessionUser)
  (selectedSession : option ChatSession) (socket : bool)
  (messages : list Message) : list obj :=
  match selectedSession, user with
  | Some sel, Some u =>
      let unreadMessages :=
        filter (fun msg => negb (read msg)
                           && strict_unequal (senderId msg) (user_id u))
               messages in
      if Nat.ltb 0 (List.length unreadMessages) && socket
      then map (fun msg => [("chatId", session_id sel); ("messageId", id msg);
                            ("userId", user_id u)]) unreadMessages
      else []
  | _, _ => []
  end.

(** A message the effect has nothing to report for: read already, or
    sent by the viewer. *)
Definition settled (u : SessionUser) (m : Message) : bool :=
  read m || strict_equal (senderId m) (user_id u).

(** What the server sends back for one mark-read: the payload of the
    message-read it emits. *)
Definition message_read_of (st : server) (clk : clock) (sid : string)
  (q : obj) : obj :=
  match emissions (snd (step st (clk, MarkRead sid q))) with
  | (_, _, DObj o) :: _ => o
  | _ => []
  end.

(** The recipient [sendMessage] picks: the other participant. *)
Definition recipient_for (u : SessionUser) (selectedSession : ChatSession)
  : jsval :=
  if strict_equal (vendorId (participants selectedSession)) (user_id u)
  then clientId (participants selectedSession)
  else vendorId (participants selectedSession).

(** [sendMessage]: the send-message payload it emits, if any.
    [trimmed] is [message.trim()], [success] is [data.success] of the
    store's response and [saved] its [data.message]. *)
Definition sendMessage_emit (user : option SessionUser)
  (selectedSession : option ChatSession) (trimmed : string)
  (sending socket success : bool) (saved : option obj) : option obj :=
  match selectedSession, user with
  | Some sel, Some u =>
      if String.eqb trimmed "" || sending || negb socket then None
      else if success
      then Some (Client.sendMessage_payload (session_id sel) (JStr trimmed)
                   (user_id u) (recipient_for u sel) saved)
      else None
  | _, _ => None
  end.

(** What the message input emits while the user types, and two seconds
    after the last key. *)
Definition typing_payload (user : option SessionUser) (sel : ChatSession) : obj :=
  [("chatId", session_id sel);
   ("userId", match user with Some u => user_id u | None => JUndefined end);
   ("name", match user with Some u => user_name u | None => JUndefined end)].

Definition stop_typing_payload (user : option SessionUser) (sel : ChatSession)
  : obj :=
  [("chatId", session_id sel);
   ("userId", match user with Some u => user_id u | None => JUndefined end)].

End ChatPage.

(* ================================================================== *)
(** ** The order list of the orders page ([src/app/orders/page.tsx]) *)
(* ================================================================== *)

Module OrderLists.
Import Objects.

(** Orders page, [order-updated]. *)
Definition orders_on_order_updated (updatedOrder : obj) (prev : list obj)
  : list obj :=
  map (fun o =>
         if strict_equal (field o "_id")
              (js_or (field updatedOrder "_id") (field updatedOrder "id"))
         then spread o updatedOrder else o) prev.

(** Orders page, [order-created]: [user] is [session.user.id]. *)
Definition orders_on_order_created (user : jsval) (newOrder : obj)
  (prev : list obj) : list obj :=
  if strict_equal (field newOrder "userId") user then newOrder :: prev
  else prev.

(** Orders page, [order-status-changed]. *)
Definition orders_on_order_status_changed (payload : obj) (prev : list obj)
  : list obj :=
  map (fun o =>
         if strict_equal (field o "_id") (field payload "orderId")
         then assign "updatedAt" (field payload "timestamp")
                (assign "status" (field payload "status") o)
         else o) prev.

End OrderLists.

(* ================================================================== *)
(** ** Browser notifications ([src/lib/notifications.ts]) *)
(* ================================================================== *)

Module Notifications.
Import Objects.

(** [Notification.permission]. *)
Inductive permission : Type := default | granted | denied.

Definition is_granted (p : permission) : bool :=
  match p with granted => true | _ => false end.

(** The browser as the two functions see it: whether [window] is
    defined, and the Notification API with its permission when
    ['Notification' in window]. *)
Record browser : Type := mkBrowser {
  window : bool;
  notification : option permission
}.

Inductive effect : Type :=
| RequestPermission                         (* Notification.requestPermission() *)
| NewNotification (title : string) (options : obj)
| Warn (args : list logarg).

(** [requestNotificationPermission()]; [answer] is what the user's
    choice resolves [requestPermission()] to.  Without the API the read
    of [Notification.permission] throws and the [catch] warns. *)
Definition requestNotificationPermission (b : browser) (answer : permission)
  : bool * browser * list effect :=
  if negb (window b) then (false, b, [])
  else
    match notification b with
    | Some default =>
        (is_granted answer,
         {| window := window b; notification := Some answer |},
         [RequestPermission])
    | Some p => (is_granted p, b, [])
    | None =>
        (false, b,
         [Warn [LStr "Notification permission request failed:";
                LErr "ReferenceError"]])
    end.

(** [showBrowserNotification(title, options)]: what it does.
    [options] is [None] when the argument is left out; [thrown] is the
    error [new Notification(...)] throws where the page may not
    construct one ([None]: it returns), which the [catch] reports. *)
Definition showBrowserNotification (b : browser) (thrown : option string)
  (title : string) (options : option obj) : list effect :=
  if negb (window b) then []
  else
    match notification b with
    | Some granted =>
        match thrown with
        | None =>
            [NewNotification title
               (spread [("icon", JStr "/images/vape4you-icon.png");
                        ("badge", JStr "/images/vape4you-badge.png")]
                       (match options with Some o => o | None => [] end))]
        | Some e => [Warn [LStr "Browser notification failed:"; LErr e]]
        end
    | _ => []
    end.

End Notifications.

(* ================================================================== *)
(** ** The chat and order store ([src/lib/local-db.ts]) *)
(* ================================================================== *)

Module LocalDb.

(** ['vendor' | 'client']. *)
Inductive Role : Type := vendor | client.

Definition role_eqb (a b : Role) : bool :=
  match a, b with
  | vendor, vendor | client, client => true
  | _, _ => false
  end.

Module User.
Record t : Type := mk {
  id : string;
  email : string;
  password : string;
  name : string;
  role : Role;
  createdAt : string
}.
End User.

Module Session.
Record Participants : Type := mkParticipants {
  vendorId : string;
  vendorName : string;
  clientId : string;
  clientName : string
}.
Record UnreadCount : Type := mkUnreadCount {
  vendor : Z;
  client : Z
}.
Record t : Type := mk {
  id : string;
  participants : Participants;
  lastMessage : option string;
  lastMessageTime : option string;
  unreadCount : UnreadCount;
  createdAt : string
}.
End Session.

Module Msg.
Record t : Type := mk {
  id : string;
  chatId : string;
  senderId : string;
  senderName : string;
  senderRole : Role;
  recipientId : string;
  recipientName : string;
  message : string;
  timestamp : string;
  read : bool
}.
End Msg.

(** What [getAvailableUsers] returns for a user. *)
Module ChatUser.
Record t : Type := mk {
  id : string;
  name : string;
  role : Role;
  online : bool
}.
End ChatUser.

Module Order.
Inductive Status : Type :=
  pending | processing | shipped | delivered | cancelled.
Inductive PaymentStatus : Type := payment_pending | completed | failed.
(** [LocalOrder]; [details] stands for the fields the functions below
    neither read nor write (items, total, addresses and the like). *)
Record t (Details : Type) : Type := mk {
  id : string;
  userId : string;
  status : Status;
  paymentStatus : PaymentStatus;
  updatedAt : string;
  details : Details
}.
Arguments mk {Details}.
Arguments id {Details}.
Arguments userId {Details}.
Arguments status {Details}.
Arguments paymentStatus {Details}.
Arguments updatedAt {Details}.
Arguments details {Details}.
End Order.

(** A call either returns or throws an [Error] with a message. *)
Inductive outcome (A : Type) : Type :=
| Returned (a : A)
| Thrown (message : string).
Arguments Returned {A}.
Arguments Thrown {A}.

(** A change made through a reference that [find] returned: it lands on
    the first element that satisfies the predicate. *)
Fixpoint update_first {A : Type} (p : A -> bool) (f : A -> A) (l : list A)
  : list A :=
  match l with
  | [] => []
  | x :: rest => if p x then f x :: rest else x :: update_first p f rest
  end.

(** The unread count a session keeps for one role. *)
Definition unread (r : Role) (s : Session.t) : Z :=
  match r with
  | vendor => Session.vendor (Session.unreadCount s)
  | client => Session.client (Session.unreadCount s)
  end.

Definition other_role (r : Role) : Role :=
  match r with vendor => client | client => vendor end.

(** The vendor and the client a session is of. *)
Definition pair_of (s : Session.t) : string * string :=
  (Session.vendorId (Session.participants s),
   Session.clientId (Session.participants s)).

Section Store.
Context {Details : Type}.

(** [this.db], the products left out.  The functions below change it in
    memory; the write of the JSON file that follows is not modelled. *)
Record DB : Type := mkDB {
  users : list User.t;
  chatMessages : list Msg.t;
  chatSessions : list Session.t;
  orders : list (Order.t Details)
}.

Definition find_user (db : DB) (id : string) : option User.t :=
  find (fun u => String.eqb (User.id u) id) (users db).

Definition find_user_with_role (db : DB) (id : string) (r : Role)
  : option User.t :=
  find (fun u => String.eqb (User.id u) id && role_eqb (User.role u) r)
       (users db).

(** The session is the one of this vendor and this client. *)
Definition same_pair (vendorId clientId : string) (s : Session.t) : bool :=
  String.eqb (Session.vendorId (Session.participants s)) vendorId
  && String.eqb (Session.clientId (Session.participants s)) clientId.

Definition has_id (sessionId : string) (s : Session.t) : bool :=
  String.eqb (Session.id s) sessionId.

(** [createChatSession(vendorId, clientId)]. *)
Definition createChatSession (clk : clock) (vendorId clientId : string)
  (db : DB) : outcome Session.t * DB :=
  match find_user_with_role db vendorId vendor,
        find_user_with_role db clientId client with
  | Some v, Some c =>
      match find (same_pair vendorId clientId) (chatSessions db) with
      | Some existingSession => (Returned existingSession, db)
      | None =>
          let session :=
            {| Session.id := decimal (date_now clk);
               Session.participants :=
                 {| Session.vendorId := vendorId;
                    Session.vendorName := User.name v;
                    Session.clientId := clientId;
                    Session.clientName := User.name c |};
               Session.lastMessage := None;
               Session.lastMessageTime := None;
               Session.unreadCount := {| Session.vendor := 0; Session.client := 0 |};
               Session.createdAt := iso_string clk |} in
          (Returned session,
           {| users := users db;
              chatMessages := chatMessages db;
              chatSessions := (chatSessions db ++ [session])%list;
              orders := orders db |})
      end
  | _, _ => (Thrown "Vendor or client not found", db)
  end.

(** The session after a message for [recipient] has been recorded. *)
Definition record_message (message timestamp : string) (recipient : Role)
  (s : Session.t) : Session.t :=
  {| Session.id := Session.id s;
     Session.participants := Session.participants s;
     Session.lastMessage := Some message;
     Session.lastMessageTime := Some timestamp;
     Session.unreadCount :=
       match recipient with
       | vendor =>
           {| Session.vendor := (Session.vendor (Session.unreadCount s) + 1)%Z;
              Session.client := Session.client (Session.unreadCount s) |}
       | client =>
           {| Session.vendor := Session.vendor (Session.unreadCount s);
              Session.client := (Session.client (Session.unreadCount s) + 1)%Z |}
       end;
     Session.createdAt := Session.createdAt s |}.

(** [sendMessage(senderId, recipientId, message)]; [clk_session] is the
    clock [createChatSession] reads, [clk] the one the message reads. *)
Definition sendMessage (clk_session clk : clock)
  (senderId recipientId message : string) (db : DB) : outcome Msg.t * DB :=
  match find_user db senderId, find_user db recipientId with
  | Some sender, Some recipient =>
      if role_eqb (User.role sender) (User.role recipient)
      then (Thrown "Can only message users with different roles", db)
      else
        let vendorId :=
          if role_eqb (User.role sender) vendor then senderId else recipientId in
        let clientId :=
          if role_eqb (User.role sender) client then senderId else recipientId in
        match createChatSession clk_session vendorId clientId db with
        | (Thrown e, db1) => (Thrown e, db1)
        | (Returned session, db1) =>
            let chatMessage :=
              {| Msg.id := "msg-" ++ decimal (date_now clk) ++ "-"
                             ++ substr (random_base36 clk) 2 9;
                 Msg.chatId := Session.id session;
                 Msg.senderId := senderId;
                 Msg.senderName := User.name sender;
                 Msg.senderRole := User.role sender;
                 Msg.recipientId := recipientId;
                 Msg.recipientName := User.name recipient;
                 Msg.message := message;
                 Msg.timestamp := iso_string clk;
                 Msg.read := false |} in
            (Returned chatMessage,
             {| users := users db1;
                chatMessages := (chatMessages db1 ++ [chatMessage])%list;
                chatSessions :=
                  update_first (same_pair vendorId clientId)
                    (record_message message (iso_string clk)
                       (User.role recipient))
                    (chatSessions db1);
                orders := orders db1 |})
        end
  | _, _ => (Thrown "Sender or recipient not found", db)
  end.

Definition mark (msg : Msg.t) : Msg.t :=
  {| Msg.id := Msg.id msg; Msg.chatId := Msg.chatId msg;
     Msg.senderId := Msg.senderId msg; Msg.senderName := Msg.senderName msg;
     Msg.senderRole := Msg.senderRole msg;
     Msg.recipientId := Msg.recipientId msg;
     Msg.recipientName := Msg.recipientName msg;
     Msg.message := Msg.message msg; Msg.timestamp := Msg.timestamp msg;
     Msg.read := true |}.

(** The session with the unread count of one role reset. *)
Definition reset_unread (r : Role) (s : Session.t) : Session.t :=
  {| Session.id := Session.id s;
     Session.participants := Session.participants s;
     Session.lastMessage := Session.lastMessage s;
     Session.lastMessageTime := Session.lastMessageTime s;
     Session.unreadCount :=
       match r with
       | vendor =>
           {| Session.vendor := 0;
              Session.client := Session.client (Session.unreadCount s) |}
       | client =>
           {| Session.vendor := Session.vendor (Session.unreadCount s);
              Session.client := 0 |}
       end;
     Session.createdAt := Session.createdAt s |}.

(** The message is in the session and addressed to the user. *)
Definition addressed (sessionId userId : string) (msg : Msg.t) : bool :=
  String.eqb (Msg.chatId msg) sessionId
  && String.eqb (Msg.recipientId msg) userId.

(** [markMessagesAsRead(sessionId, userId)]. *)
Definition markMessagesAsRead (sessionId userId : string) (db : DB) : DB :=
  match find (has_id sessionId) (chatSessions db) with
  | None => db
  | Some _ =>
      match find_user db userId with
      | None => db
      | Some user =>
          {| users := users db;
             chatMessages :=
               map (fun msg => if addressed sessionId userId msg
                               then mark msg else msg) (chatMessages db);
             chatSessions :=
               update_first (has_id sessionId) (reset_unread (User.role user))
                 (chatSessions db);
             orders := orders db |}
      end
  end.

(** [getAvailableUsers(currentUserId)]. *)
Definition getAvailableUsers (currentUserId : string) (db : DB)
  : list ChatUser.t :=
  match find_user db currentUserId with
  | None => []
  | Some currentUser =>
      let targetRole :=
        if role_eqb (User.role currentUser) vendor then client else vendor in
      map (fun u => {| ChatUser.id := User.id u; ChatUser.name := User.name u;
                       ChatUser.role := User.role u; ChatUser.online := false |})
          (filter (fun u => role_eqb (User.role u) targetRole
                            && negb (String.eqb (User.id u) currentUserId))
                  (users db))
  end.

Definition order_has_id (orderId : string) (o : Order.t Details) : bool :=
  String.eqb (Order.id o) orderId.

(** [getOrderById(orderId)]. *)
Definition getOrderById (orderId : string) (db : DB) : option (Order.t Details) :=
  find (order_has_id orderId) (orders db).

(** The order after [updateOrderStatus] has written to it. *)
Definition with_status (clk : clock) (status : Order.Status)
  (paymentStatus : option Order.PaymentStatus) (o : Order.t Details)
  : Order.t Details :=
  {| Order.id := Order.id o;
     Order.userId := Order.userId o;
     Order.status := status;
     Order.paymentStatus :=
       match paymentStatus with
       | Some ps => ps
       | None => Order.paymentStatus o
       end;
     Order.updatedAt := iso_string clk;
     Order.details := Order.details o |}.

(** [updateOrderStatus(orderId, status, paymentStatus?)]: the order it
    returns, [None] for [null]. *)
Definition updateOrderStatus (clk : clock) (orderId : string)
  (status : Order.Status) (paymentStatus : option Order.PaymentStatus)
  (db : DB) : option (Order.t Details) * DB :=
  match find (order_has_id orderId) (orders db) with
  | None => (None, db)
  | Some order =>
      (Some (with_status clk status paymentStatus order),
       {| users := users db;
          chatMessages := chatMessages db;
          chatSessions := chatSessions db;
          orders := update_first (order_has_id orderId)
                      (with_status clk status paymentStatus) (orders db) |})
  end.

(** No two sessions are of the same vendor and client. *)
Definition pairs_unique (db : DB) : Prop :=
  NoDup (map (fun s => (Session.vendorId (Session.participants s),
                        Session.clientId (Session.participants s)))
             (chatSessions db)).

(** The session of a vendor and a client, if there is one. *)
Definition session_of (vendorId clientId : string) (db : DB)
  : option Session.t :=
  find (same_pair vendorId clientId) (chatSessions db).

End Store.
Arguments DB : clear implicits.

End LocalDb.

(* ================================================================== *)
(** ** A small store *)
(* ================================================================== *)

Module StoreRuns.

Definition ann : LocalDb.User.t :=
  {| LocalDb.User.id := "A"; LocalDb.User.email := "ann@example.com";
     LocalDb.User.password := "$2a$10$hash"; LocalDb.User.name := "Ann";
     LocalDb.User.role := LocalDb.client;
     LocalDb.User.createdAt := "2023-11-01T10:00:00.000Z" |}.

Definition bob : LocalDb.User.t :=
  {| LocalDb.User.id := "B"; LocalDb.User.email := "bob@example.com";
     LocalDb.User.password := "$2a$10$hash"; LocalDb.User.name := "Bob";
     LocalDb.User.role := LocalDb.vendor;
     LocalDb.User.createdAt := "2023-11-01T10:00:00.000Z" |}.

Definition order1 : LocalDb.Order.t unit :=
  {| LocalDb.Order.id := "1699999999999"; LocalDb.Order.userId := "A";
     LocalDb.Order.status := LocalDb.Order.pending;
     LocalDb.Order.paymentStatus := LocalDb.Order.payment_pending;
     LocalDb.Order.updatedAt := "2023-11-14T22:00:00.000Z";
     LocalDb.Order.details := tt |}.

(** Ann and Bob are registered, one order is placed, nobody has
    written yet. *)
Definition registered : LocalDb.DB unit :=
  {| LocalDb.users := [ann; bob]; LocalDb.chatMessages := [];
     LocalDb.chatSessions := []; LocalDb.orders := [order1] |}.

(** Ann has written "hi" to Bob. *)
Definition after_hi : LocalDb.DB unit :=
  snd (LocalDb.sendMessage Runs.clk0 Runs.clk0 "A" "B" "hi" registered).

(** The message as stored. *)
Definition hi : LocalDb.Msg.t :=
  {| LocalDb.Msg.id := "msg-1700000000000-k3j9x7q2m";
     LocalDb.Msg.chatId := "1700000000000";
     LocalDb.Msg.senderId := "A"; LocalDb.Msg.senderName := "Ann";
     LocalDb.Msg.senderRole := LocalDb.client;
     LocalDb.Msg.recipientId := "B"; LocalDb.Msg.recipientName := "Bob";
     LocalDb.Msg.message := "hi";
     LocalDb.Msg.timestamp := "2023-11-14T22:13:20.000Z";
     LocalDb.Msg.read := false |}.

End StoreRuns.

(* ================================================================== *)
(** ** Chat ids and room names *)
(* ================================================================== *)

Module Wiring.

Definition digit_or_minus (c : ascii) : bool :=
  existsb (Ascii.eqb c)
    ["0"; "1"; "2"; "3"; "4"; "5"; "6"; "7"; "8"; "9"; "-"]%char.

(** The event is a connection whose socket id is not [chat], or a join
    whose role is vendor or client, or neither a connection nor a
    join. *)
Definition ordinary_for (chat : string) (ce : clock * event) : bool :=
  match snd ce with
  | Connection sid => negb (String.eqb sid chat)
  | JoinUser _ p =>
      same_value_zero (field p "role") (JStr "vendor")
      || same_value_zero (field p "role") (JStr "client")
  | _ => true
  end.

End Wiring.

(* ================================================================== *)
(** * Properties *)
(* ================================================================== *)

(** ** Key comparison *)

Lemma same_value_zero_eq (a b : jsval) : same_value_zero a b = true <-> a = b.
Proof.
  destruct a, b; simpl; split; intro H; try discriminate; try reflexivity.
  - apply Bool.eqb_prop in H. now subst.
  - injection H as ->. apply Bool.eqb_reflx.
  - apply Z.eqb_eq in H. now subst.
  - injection H as ->. apply Z.eqb_refl.
  - apply String.eqb_eq in H. now subst.
  - injection H as ->. apply String.eqb_refl.
Qed.

Lemma same_value_zero_refl (a : jsval) : same_value_zero a a = true.
Proof. now apply same_value_zero_eq. Qed.

Lemma same_value_zero_neq (a b : jsval) : same_value_zero a b = false <-> a <> b.
Proof.
  split.
  - intros H E. apply same_value_zero_eq in E. congruence.
  - intro H. destruct (same_value_zero a b) eqn:E; [|reflexivity].
    apply same_value_zero_eq in E. contradiction.
Qed.

Lemma same_value_zero_sym (a b : jsval) :
  same_value_zero a b = same_value_zero b a.
Proof.
  destruct (same_value_zero a b) eqn:E.
  - apply same_value_zero_eq in E. subst. symmetry. apply same_value_zero_refl.
  - apply same_value_zero_neq in E. symmetry. apply same_value_zero_neq. congruence.
Qed.

(** ** The [Map] operations *)

Section MapFacts.
Context {V : Type}.
Implicit Types (m : JsMap.t V) (k : jsval) (v : V).

Lemma has_in_keys m k : JsMap.has k m = true <-> In k (JsMap.keys m).
Proof.
  unfold JsMap.has. induction m as [|[k' v'] m IH]; simpl.
  - split; [discriminate | tauto].
  - destruct (same_value_zero k k') eqn:E.
    + apply same_value_zero_eq in E. subst. split; auto.
    + apply same_value_zero_neq in E. rewrite IH. split; [auto|].
      intros [H|H]; [congruence | exact H].
Qed.

Lemma size_set m k v :
  JsMap.size (JsMap.set k v m)
  = if JsMap.has k m then JsMap.size m else S (JsMap.size m).
Proof.
  unfold JsMap.has, JsMap.size. induction m as [|[k' v'] m IH]; simpl.
  - reflexivity.
  - destruct (same_value_zero k k'); simpl; [reflexivity|].
    rewrite IH. now destruct (JsMap.get k m).
Qed.

Lemma size_delete m k :
  JsMap.has k m = true -> S (JsMap.size (JsMap.delete k m)) = JsMap.size m.
Proof.
  unfold JsMap.has, JsMap.size. induction m as [|[k' v'] m IH]; simpl.
  - discriminate.
  - destruct (same_value_zero k k'); simpl; [reflexivity|].
    intro H. now rewrite IH.
Qed.

Lemma has_set_same m k v : JsMap.has k (JsMap.set k v m) = true.
Proof.
  unfold JsMap.has. induction m as [|[k' v'] m IH]; simpl.
  - now rewrite same_value_zero_refl.
  - destruct (same_value_zero k k') eqn:E; simpl; now rewrite E.
Qed.

Lemma get_set_same m k v : JsMap.get k (JsMap.set k v m) = Some v.
Proof.
  induction m as [|[k' v'] m IH]; simpl.
  - now rewrite same_value_zero_refl.
  - destruct (same_value_zero k k') eqn:E; simpl; now rewrite E.
Qed.

Lemma get_set_other m k k' v :
  k' <> k -> JsMap.get k' (JsMap.set k v m) = JsMap.get k' m.
Proof.
  intro N. induction m as [|[k0 v0] m IH]; simpl.
  - apply same_value_zero_neq in N. now rewrite N.
  - destruct (same_value_zero k k0) eqn:E; simpl.
    + apply same_value_zero_eq in E. subst k0.
      apply same_value_zero_neq in N. now rewrite N.
    + now rewrite IH.
Qed.

Lemma keys_set m k v :
  JsMap.keys (JsMap.set k v m)
  = if JsMap.has k m then JsMap.keys m else (JsMap.keys m ++ [k])%list.
Proof.
  unfold JsMap.has, JsMap.keys. induction m as [|[k' v'] m IH]; simpl.
  - reflexivity.
  - destruct (same_value_zero k k'); simpl; [reflexivity|].
    rewrite IH. now destruct (JsMap.get k m).
Qed.

Lemma keys_delete_incl m k x :
  In x (JsMap.keys (JsMap.delete k m)) -> In x (JsMap.keys m).
Proof.
  unfold JsMap.keys. induction m as [|[k' v'] m IH]; simpl; [tauto|].
  destruct (same_value_zero k k'); simpl; intuition.
Qed.

Lemma well_formed_set m k v : JsMap.well_formed m -> JsMap.well_formed (JsMap.set k v m).
Proof.
  unfold JsMap.well_formed. intro H. rewrite keys_set.
  destruct (JsMap.has k m) eqn:E; [exact H|].
  apply NoDup_app; [exact H | repeat constructor; simpl; tauto |].
  intros x Hx [<-|[]]. apply has_in_keys in Hx. congruence.
Qed.

Lemma well_formed_delete m k : JsMap.well_formed m -> JsMap.well_formed (JsMap.delete k m).
Proof.
  unfold JsMap.well_formed, JsMap.keys. induction m as [|[k' v'] m IH]; simpl; intro H.
  - constructor.
  - inversion H as [|? ? Hn Hd]; subst.
    destruct (same_value_zero k k'); simpl; [exact Hd|].
    constructor; [|now apply IH].
    intro Hin. apply Hn. now apply (keys_delete_incl m k).
Qed.

Lemma get_delete_same m k : JsMap.well_formed m -> JsMap.get k (JsMap.delete k m) = None.
Proof.
  unfold JsMap.well_formed, JsMap.keys. induction m as [|[k' v'] m IH]; simpl; intro H.
  - reflexivity.
  - inversion H as [|? ? Hn Hd]; subst.
    destruct (same_value_zero k k') eqn:E; simpl.
    + apply same_value_zero_eq in E. subst.
      destruct (JsMap.get k' m) eqn:G; [|reflexivity].
      exfalso. apply Hn. apply (has_in_keys m k'). unfold JsMap.has. now rewrite G.
    + rewrite E. now apply IH.
Qed.

Lemma entries_for_absent m k : ~ In k (JsMap.keys m) -> JsMap.entries_for k m = [].
Proof.
  unfold JsMap.entries_for, JsMap.keys. induction m as [|[k' v'] m IH]; simpl; intro H.
  - reflexivity.
  - destruct (same_value_zero k' k) eqn:E.
    + apply same_value_zero_eq in E. subst. tauto.
    + apply IH. tauto.
Qed.

Lemma entries_for_set m k v :
  JsMap.well_formed m -> JsMap.entries_for k (JsMap.set k v m) = [(k, v)].
Proof.
  unfold JsMap.well_formed, JsMap.keys. induction m as [|[k' v'] m IH]; simpl; intro H.
  - now rewrite same_value_zero_refl.
  - inversion H as [|? ? Hn Hd]; subst.
    destruct (same_value_zero k k') eqn:E; simpl.
    + apply same_value_zero_eq in E. subst k'.
      rewrite same_value_zero_refl. f_equal.
      now apply entries_for_absent.
    + rewrite same_value_zero_sym, E. now apply IH.
Qed.

End MapFacts.

(** ** What one step does to the registry and what it emits *)

Section StepFacts.
Variables (st : server) (clk : clock) (sid : string).

Lemma step_join (p : obj) :
  connectedUsers (fst (step st (clk, JoinUser sid p)))
  = JsMap.set (field p "userId") (joined_entry sid p) (connectedUsers st)
  /\ emissions (snd (step st (clk, JoinUser sid p)))
     = [user_online (field p "userId") (field p "role") (field p "name")].
Proof. split; reflexivity. Qed.

Lemma step_send_message (p : obj) :
  step st (clk, SendMessage sid p)
  = (st,
     [ConsoleLog [LStr ("💬 New message in chat " ++ to_string (field p "chatId"))];
      Emit (ToRoom (user_room (field p "recipientId"))) "receive-message"
        (DObj (fullMessage clk p));
      Emit (ToSocket sid) "message-sent" (DObj (fullMessage clk p))]).
Proof. destruct st. reflexivity. Qed.

Lemma disconnect_loop_spec (entries : list (jsval * presence)) (s : server) :
  exec (disconnect_loop sid entries) s
  = match first_held sid entries with
    | None => (s, [])
    | Some (u, e) =>
        ({| connectedUsers := JsMap.delete u (connectedUsers s);
            sockets := sockets s |},
         [Emit ToAll "user-offline"
            (DObj [("userId", u); ("name", name e); ("role", role e);
                   ("online", JBool false)])])
    end.
Proof.
  unfold first_held. induction entries as [|[u e] rest IH]; simpl.
  - reflexivity.
  - unfold held_by at 1. simpl. destruct (String.eqb (socketId e) sid).
    + reflexivity.
    + exact IH.
Qed.

Lemma step_disconnect_full :
  step st (clk, Disconnect sid)
  = let left := {| connectedUsers := connectedUsers st;
                   sockets := filter (fun s => negb (String.eqb (id s) sid))
                                     (sockets st) |} in
    let line := ConsoleLog [LStr "❌ Client disconnected:"; LStr sid] in
    match first_held sid (connectedUsers st) with
    | None => (left, [line])
    | Some (u, e) =>
        ({| connectedUsers := JsMap.delete u (connectedUsers st);
            sockets := sockets left |},
         [line;
          Emit ToAll "user-offline"
            (DObj [("userId", u); ("name", name e); ("role", role e);
                   ("online", JBool false)])])
    end.
Proof.
  unfold step, handle, on_disconnect; simpl.
  unfold exec, bind, modify, console_log, write, connectedUsers_entries, read, ret; simpl.
  pose proof (disconnect_loop_spec (connectedUsers st)
    {| connectedUsers := connectedUsers st;
       sockets := filter (fun s => negb (String.eqb (id s) sid)) (sockets st) |}) as H.
  unfold exec in H.
  destruct (disconnect_loop sid (connectedUsers st) _) as [[x s'] o].
  destruct (first_held sid (connectedUsers st)) as [[u e]|];
    injection H as -> ->; reflexivity.
Qed.

Lemma step_disconnect :
  connectedUsers (fst (step st (clk, Disconnect sid)))
  = match first_held sid (connectedUsers st) with
    | None => connectedUsers st
    | Some (u, _) => JsMap.delete u (connectedUsers st)
    end
  /\ emissions (snd (step st (clk, Disconnect sid)))
     = match first_held sid (connectedUsers st) with
       | None => []
       | Some (u, e) => [user_offline u e]
       end.
Proof.
  rewrite step_disconnect_full.
  destruct (first_held sid (connectedUsers st)) as [[u e]|]; split; reflexivity.
Qed.

End StepFacts.

(** ** Runs *)

Lemma registry_step (st : server) (ce : clock * event) :
  connectedUsers (fst (step st ce)) = registry_next (connectedUsers st) (snd ce).
Proof.
  destruct ce as [clk e]. destruct e; simpl snd;
    try (destruct st; reflexivity).
  unfold registry_next. rewrite (proj1 (step_disconnect st clk sid)).
  now destruct (first_held sid (connectedUsers st)) as [[u e]|].
Qed.

Lemma state_after_nil (st : server) : state_after st [] = st.
Proof. reflexivity. Qed.

Lemma state_after_cons (st : server) (ce : clock * event) (tr : list (clock * event)) :
  state_after st (ce :: tr) = state_after (fst (step st ce)) tr.
Proof.
  unfold state_after. simpl. destruct (step st ce) as [st1 o1]. simpl.
  now destruct (run st1 tr).
Qed.

Lemma state_after_app (st : server) (tr1 tr2 : list (clock * event)) :
  state_after st (tr1 ++ tr2) = state_after (state_after st tr1) tr2.
Proof.
  revert st. induction tr1 as [|ce tr1 IH]; intro st; simpl.
  - reflexivity.
  - rewrite !state_after_cons. apply IH.
Qed.

Lemma registry_run (st : server) (tr : list (clock * event)) :
  connectedUsers (state_after st tr)
  = fold_left registry_next (map snd tr) (connectedUsers st).
Proof.
  revert st. induction tr as [|ce tr IH]; intro st.
  - reflexivity.
  - rewrite state_after_cons, IH, registry_step. reflexivity.
Qed.

(** ** The registry is a [Map] in every reachable state *)

Lemma first_held_some (sid : string) (m : JsMap.t presence) (u : jsval) (e : presence) :
  first_held sid m = Some (u, e) -> In (u, e) m /\ socketId e = sid.
Proof.
  unfold first_held. intro H. apply find_some in H. destruct H as [H1 H2].
  split; [exact H1|]. unfold held_by in H2. simpl in H2.
  now apply String.eqb_eq in H2.
Qed.

Lemma first_held_none (sid : string) (m : JsMap.t presence) :
  first_held sid m = None <-> existsb (held_by sid) m = false.
Proof.
  unfold first_held. induction m as [|x m IH]; simpl.
  - tauto.
  - destruct (held_by sid x); simpl; [split; discriminate | exact IH].
Qed.

Lemma registry_next_well_formed (m : JsMap.t presence) (e : event) :
  JsMap.well_formed m -> JsMap.well_formed (registry_next m e).
Proof.
  intro H. destruct e; simpl; try exact H.
  - now apply well_formed_set.
  - destruct (first_held sid m) as [[u x]|]; [|exact H].
    now apply well_formed_delete.
Qed.

Lemma run_well_formed (st : server) (tr : list (clock * event)) :
  JsMap.well_formed (connectedUsers st) ->
  JsMap.well_formed (connectedUsers (state_after st tr)).
Proof.
  rewrite registry_run. generalize (connectedUsers st) as m.
  induction (map snd tr) as [|e es IH]; intros m H; simpl.
  - exact H.
  - apply IH. now apply registry_next_well_formed.
Qed.

Lemma reachable_well_formed (tr : list (clock * event)) :
  JsMap.well_formed (connectedUsers (state_after initial tr)).
Proof. apply run_well_formed. constructor. Qed.

(** ** Handlers never look at who the connection is *)


Lemma user_room_str_inj (x y : string) :
  user_room (JStr x) = user_room (JStr y) -> x = y.
Proof.
  unfold user_room. simpl. intro H. now injection H.
Qed.

Lemma recipients_room_member (socks : list socket) (r : jsval) (x : string) :
  In x (recipients socks (ToRoom r)) <->
  exists s, In s socks /\ id s = x /\ in_room r s = true.
Proof.
  simpl. rewrite in_map_iff. split.
  - intros [s [E H]]. apply filter_In in H. exists s. tauto.
  - intros [s [H1 [H2 H3]]]. exists s. split; [exact H2|].
    apply filter_In. tauto.
Qed.

Lemma recipients_socket (socks : list socket) (sid x : string) :
  In x (recipients socks (ToSocket sid)) <->
  x = sid /\ exists s, In s socks /\ id s = sid.
Proof.
  simpl. rewrite in_map_iff. split.
  - intros [s [E H]]. apply filter_In in H. destruct H as [H1 H2].
    apply String.eqb_eq in H2. split; [congruence|]. exists s. tauto.
  - intros [-> [s [H1 H2]]]. exists s. split; [exact H2|].
    apply filter_In. split; [exact H1|]. now apply String.eqb_eq.
Qed.

(* ================================================================== *)
(** * The claims *)
(* ================================================================== *)

(** C1, as stated, has the message-sent go to A's own connection, A
    being the sender the payload names.  The handler answers the
    connection the event came from and never compares senderId with it:
    while Ann (A) is present on s1, the unjoined connection s3 sends a
    message naming A as its sender; the message-sent is addressed to s3
    alone, and s1, the only connection that joined as A, does not
    receive it. *)
Lemma send_message_routing_counterexample :
  let st := Runs.third_connected in
  let outs := snd (step st (Runs.clk0, SendMessage "s3" Runs.hi_bob)) in
  let record :=
    [("id", JStr "msg-1700000000000-k3j9x7q2m"); ("chatId", JStr "c1");
     ("senderId", JStr "A"); ("message", JStr "hi");
     ("timestamp", JStr "2023-11-14T22:13:20.000Z");
     ("recipientId", JStr "B")] in
  field Runs.hi_bob "senderId" = JStr "A"
  /\ map id (filter (joined_as (JStr "A")) (sockets st)) = ["s1"]
  /\ emissions outs
     = [(ToRoom (JStr "user-B"), "receive-message", DObj record);
        (ToSocket "s3", "message-sent", DObj record)]
  /\ recipients (sockets st) (ToSocket "s3") = ["s3"]
  /\ ~ In "s1" (recipients (sockets st) (ToSocket "s3")).
Proof.
  vm_compute. repeat split; try reflexivity.
  intros [H|[]]. discriminate H.
Qed.

(** C1, amended.  A send-message event with sender A and recipient B,
    emitted by a connected socket [a] and processed while a connection
    [b] that joined as B is connected, leaves the state alone and emits
    exactly two events: one receive-message addressed to the personal
    channel user-B, which [b] receives, and one message-sent addressed
    to the emitting connection [a] alone, which [a] receives -- A's own
    connection when that is the one the event came from.  Both carry
    the same record: the id msg-<Date.now()>-<nine base-36 digits of
    Math.random()>, the payload's chatId, senderId and message, the
    ISO time of the call as timestamp, and the payload's recipientId.
    No emission is addressed to any other personal channel. *)
Theorem send_message_routing (st : server) (clk : clock) (p : obj)
  (a b : socket) :
  In a (sockets st) ->
  In b (sockets st) ->
  joined_as (field p "recipientId") b = true ->
  let B := field p "recipientId" in
  let record :=
    [("id", JStr ("msg-" ++ decimal (date_now clk) ++ "-"
                    ++ substr (random_base36 clk) 2 9));
     ("chatId", field p "chatId");
     ("senderId", field p "senderId");
     ("message", field p "message");
     ("timestamp", JStr (iso_string clk));
     ("recipientId", B)] in
  let outs := snd (step st (clk, SendMessage (id a) p)) in
  fst (step st (clk, SendMessage (id a) p)) = st
  /\ emissions outs
     = [(ToRoom (user_room B), "receive-message", DObj record);
        (ToSocket (id a), "message-sent", DObj record)]
  /\ In (id b) (recipients (sockets st) (ToRoom (user_room B)))
  /\ In (id a) (recipients (sockets st) (ToSocket (id a)))
  /\ (forall x, In x (recipients (sockets st) (ToSocket (id a))) -> x = id a)
  /\ (forall c ev d, user_room c <> user_room B ->
        ~ In (ToRoom (user_room c), ev, d) (emissions outs)).
Proof.
  intros Ha Hb Hj B record outs. subst outs. rewrite step_send_message.
  split; [reflexivity|]. split; [reflexivity|].
  split; [apply recipients_room_member; exists b; auto|].
  split; [apply recipients_socket; split; [reflexivity|]; exists a; auto|].
  split; [intros x Hx; now apply recipients_socket in Hx|].
  intros c ev d Hc [H|[H|[]]].
  - apply Hc. subst B. congruence.
  - discriminate H.
Qed.

(** Ann on s1 writes to Bob, who is connected on s2. *)
Lemma send_message_routing_witness :
  In Runs.ann_socket (sockets Runs.ann_and_bob)
  /\ In Runs.bob_socket (sockets Runs.ann_and_bob)
  /\ joined_as (field Runs.hi_bob "recipientId") Runs.bob_socket = true
  /\ emissions (snd (step Runs.ann_and_bob (Runs.clk0, SendMessage "s1" Runs.hi_bob)))
     = [(ToRoom (JStr "user-B"), "receive-message",
         DObj [("id", JStr "msg-1700000000000-k3j9x7q2m");
               ("chatId", JStr "c1"); ("senderId", JStr "A");
               ("message", JStr "hi");
               ("timestamp", JStr "2023-11-14T22:13:20.000Z");
               ("recipientId", JStr "B")]);
        (ToSocket "s1", "message-sent",
         DObj [("id", JStr "msg-1700000000000-k3j9x7q2m");
               ("chatId", JStr "c1"); ("senderId", JStr "A");
               ("message", JStr "hi");
               ("timestamp", JStr "2023-11-14T22:13:20.000Z");
               ("recipientId", JStr "B")])].
Proof.
  assert (H0 : In Runs.ann_socket (sockets Runs.ann_and_bob)).
  { vm_compute. left. reflexivity. }
  assert (H1 : In Runs.bob_socket (sockets Runs.ann_and_bob)).
  { vm_compute. right. left. reflexivity. }
  split; [exact H0|]. split; [exact H1|]. split; [reflexivity|].
  exact (proj1 (proj2
    (send_message_routing Runs.ann_and_bob Runs.clk0 Runs.hi_bob
       Runs.ann_socket Runs.bob_socket H0 H1 eq_refl))).
Defined.

(** ** Presence entries and what they carry *)

Section RegistryInvariants.
Variable f : jsval * presence -> bool.

Lemma forallb_set (m : JsMap.t presence) (k : jsval) (v : presence) :
  forallb f m = true -> f (k, v) = true -> forallb f (JsMap.set k v m) = true.
Proof.
  intros Hm Hk. induction m as [|[k' v'] m IH]; simpl in *.
  - now rewrite Hk.
  - apply andb_true_iff in Hm. destruct Hm as [H1 H2].
    destruct (same_value_zero k k') eqn:E; simpl.
    + apply same_value_zero_eq in E. subst k'. now rewrite Hk.
    + rewrite H1. now apply IH.
Qed.

Lemma forallb_delete (m : JsMap.t presence) (k : jsval) :
  forallb f m = true -> forallb f (JsMap.delete k m) = true.
Proof.
  induction m as [|[k' v'] m IH]; simpl; intro Hm.
  - reflexivity.
  - apply andb_true_iff in Hm. destruct Hm as [H1 H2].
    destruct (same_value_zero k k'); simpl; [exact H2|].
    rewrite H1. now apply IH.
Qed.

End RegistryInvariants.

Lemma truthy_nonempty (v : jsval) : truthy v = true -> nonempty v = true.
Proof. destruct v; simpl; intro H; congruence. Qed.

(** The joins the client adapter sends name all three fields. *)
Lemma useSocket_join_named (o : Client.UseSocketOptions) (p : obj)
  (clk : clock) (sid : string) :
  Client.useSocket_join o = Some p -> join_named (clk, JoinUser sid p) = true.
Proof.
  unfold Client.useSocket_join.
  destruct (truthy (Client.userId o)) eqn:E1;
  destruct (truthy (Client.userName o)) eqn:E2;
  destruct (truthy (Client.userRole o)) eqn:E3; simpl; try discriminate.
  intro H. injection H as <-. unfold join_named. simpl.
  now rewrite (truthy_nonempty _ E1), (truthy_nonempty _ E2),
    (truthy_nonempty _ E3).
Qed.

(** C2, as stated, fails: the join handler stores what it is sent.  After
    a join-user whose userId, role and name are empty strings the
    registry holds an entry with an empty user id, role and name. *)
Lemma presence_nonempty_counterexample :
  connectedUsers (state_after initial Runs.blank_join)
  = [(JStr "", {| socketId := "s1"; role := JStr ""; name := JStr "";
                  online := true |})]
  /\ forallb presence_nonempty
       (connectedUsers (state_after initial Runs.blank_join)) = false.
Proof. split; reflexivity. Qed.

(** C2, amended.  In every state reached by a run in which each
    join-user names a user id, a role and a name (none of them missing,
    null or the empty string), every presence entry carries a non-empty
    user id, role and name. *)
Theorem presence_nonempty_invariant (tr : list (clock * event)) :
  forallb join_named tr = true ->
  forallb presence_nonempty (connectedUsers (state_after initial tr)) = true.
Proof.
  rewrite registry_run. simpl connectedUsers.
  assert (G : forall m, forallb presence_nonempty m = true ->
            forallb join_named tr = true ->
            forallb presence_nonempty (fold_left registry_next (map snd tr) m) = true).
  { induction tr as [|[clk e] tr IH]; intros m Hm Htr; simpl in *.
    - exact Hm.
    - apply andb_true_iff in Htr. destruct Htr as [He Htr].
      apply IH; [|exact Htr].
      destruct e; simpl; try exact Hm.
      + apply forallb_set; [exact Hm|]. exact He.
      + destruct (first_held sid m) as [[u x]|]; [|exact Hm].
        now apply forallb_delete. }
  apply G. reflexivity.
Qed.

(** Ann's and Bob's joins name all three fields. *)
Lemma presence_nonempty_invariant_witness :
  forallb join_named Runs.ann_session = true
  /\ forallb presence_nonempty
       (connectedUsers (state_after initial Runs.ann_session)) = true.
Proof.
  split; [reflexivity|].
  apply (presence_nonempty_invariant Runs.ann_session). reflexivity.
Defined.

(** ** Registry size across join and disconnect *)

Lemma existsb_held_set (sid : string) (m : JsMap.t presence) (k : jsval)
  (v : presence) :
  socketId v = sid -> existsb (held_by sid) (JsMap.set k v m) = true.
Proof.
  intro Hv. induction m as [|[k' v'] m IH]; simpl.
  - unfold held_by. simpl. rewrite Hv, String.eqb_refl. reflexivity.
  - destruct (same_value_zero k k'); simpl.
    + unfold held_by at 1. simpl. rewrite Hv, String.eqb_refl. reflexivity.
    + rewrite IH. apply orb_true_r.
Qed.

Lemma first_held_exists (sid : string) (m : JsMap.t presence) :
  existsb (held_by sid) m = true ->
  exists u e, first_held sid m = Some (u, e).
Proof.
  intro H. destruct (first_held sid m) as [[u e]|] eqn:E.
  - now exists u, e.
  - apply first_held_none in E. congruence.
Qed.

Lemma in_has (m : JsMap.t presence) (u : jsval) (e : presence) :
  In (u, e) m -> JsMap.has u m = true.
Proof.
  intro H. apply has_in_keys. unfold JsMap.keys.
  change u with (fst (u, e)). now apply in_map.
Qed.

(** A quiet stretch keeps the size of the registry and leaves the
    connection with an entry. *)
Lemma quiet_stretch (sid : string) (u : jsval) (mid : list (clock * event))
  (m : JsMap.t presence) :
  forallb (quiet sid u) mid = true ->
  JsMap.has u m = true ->
  existsb (held_by sid) m = true ->
  let m' := fold_left registry_next (map snd mid) m in
  JsMap.size m' = JsMap.size m /\ existsb (held_by sid) m' = true.
Proof.
  revert m. induction mid as [|[clk e] mid IH]; intros m Hq Hu Hs; simpl in *.
  - auto.
  - apply andb_true_iff in Hq. destruct Hq as [He Hq].
    assert (Hkeep : JsMap.size (registry_next m e) = JsMap.size m
                    /\ JsMap.has u (registry_next m e) = true
                    /\ existsb (held_by sid) (registry_next m e) = true).
    { destruct e; simpl; auto; unfold quiet in He; simpl in He.
      - apply andb_true_iff in He. destruct He as [E1 E2].
        apply String.eqb_eq in E1. apply same_value_zero_eq in E2. subst.
        rewrite size_set, Hu. repeat split.
        + apply has_set_same.
        + now apply existsb_held_set.
      - discriminate. }
    destruct Hkeep as [K1 [K2 K3]].
    destruct (IH (registry_next m e) Hq K2 K3) as [I1 I2].
    split; [congruence | exact I2].
Qed.

(** C3, as stated, fails.  With Ann and Bob present (two entries), a
    third connection joins as Ann, which overwrites Ann's entry, and
    disconnects, which removes it: one entry is left, not the two there
    were before the join. *)
Lemma registry_size_counterexample :
  registry_size Runs.third_connected = 2
  /\ registry_size (state_after Runs.third_connected Runs.rejoin_as_ann) = 1
  /\ registry_size (state_after Runs.third_connected Runs.rejoin_as_ann)
     <> registry_size Runs.third_connected.
Proof. repeat split. vm_compute. discriminate. Qed.

(** C3, amended.  A connection joins as user [u], then come events among
    which nobody disconnects and the only joins are the same connection
    joining as [u] again, then the connection disconnects.  If [u] had
    no entry before the join, the registry has as many entries after the
    disconnect as before the join; if [u] had one, the join overwrote it
    and the registry has one entry fewer. *)
Theorem registry_size_after_join_disconnect (st : server) (clk clk' : clock)
  (sid : string) (p : obj) (mid : list (clock * event)) :
  forallb (quiet sid (field p "userId")) mid = true ->
  registry_size
    (state_after st ((clk, JoinUser sid p) :: mid ++ [(clk', Disconnect sid)]))
  = if JsMap.has (field p "userId") (connectedUsers st)
    then registry_size st - 1
    else registry_size st.
Proof.
  intro Hq. unfold registry_size.
  rewrite registry_run, map_cons, map_app. cbn [fold_left].
  rewrite fold_left_app. cbn [map fold_left snd registry_next].
  set (u := field p "userId") in *.
  set (m1 := JsMap.set u (joined_entry sid p) (connectedUsers st)).
  destruct (quiet_stretch sid u mid m1 Hq) as [S1 S2].
  { apply has_set_same. }
  { now apply existsb_held_set. }
  set (m2 := fold_left registry_next (map snd mid) m1) in *.
  destruct (first_held_exists sid m2 S2) as [u' [e' E]]. rewrite E.
  apply first_held_some in E. destruct E as [Hin _].
  pose proof (size_delete m2 u' (in_has m2 u' e' Hin)) as D.
  pose proof (size_set (connectedUsers st) u (joined_entry sid p)) as J.
  fold m1 in J. destruct (JsMap.has u (connectedUsers st)); lia.
Qed.

(** Cy joins on s3, chats, announces itself again, and leaves: two
    entries before, two after. *)
Lemma registry_size_after_join_disconnect_witness :
  forallb (quiet "s3" (field Runs.cy_joins "userId")) Runs.cy_session = true
  /\ registry_size
       (state_after Runs.third_connected
          ((Runs.clk0, JoinUser "s3" Runs.cy_joins)
             :: Runs.cy_session ++ [(Runs.clk0, Disconnect "s3")]))
     = registry_size Runs.third_connected.
Proof.
  split; [reflexivity|].
  exact (registry_size_after_join_disconnect Runs.third_connected Runs.clk0
           Runs.clk0 "s3" Runs.cy_joins Runs.cy_session eq_refl).
Defined.

(** ** The record of a chat message *)

Lemma fullMessage_reads_four_fields (clk : clock) (p : obj) (i t : jsval) :
  fullMessage clk (("id", i) :: ("timestamp", t) :: p) = fullMessage clk p.
Proof. reflexivity. Qed.

(** C4.  The handler does not do what the claim says.  The chat page
    sends the stored id "m-42" and the stored timestamp with the
    message; both emissions carry an id and a timestamp made from the
    server's clock instead, and for every payload the record's id and
    timestamp are the generated ones, whatever was supplied. *)
Theorem send_message_regenerates_id :
  (field Runs.hi_bob_saved "id", field Runs.hi_bob_saved "timestamp")
  = (JStr "m-42", JStr "2023-11-14T22:13:19.500Z")
  /\ emissions (snd (step Runs.ann_and_bob
                       (Runs.clk0, SendMessage "s1" Runs.hi_bob_saved)))
     = (let record :=
          DObj [("id", JStr "msg-1700000000000-k3j9x7q2m");
                ("chatId", JStr "c1"); ("senderId", JStr "A");
                ("message", JStr "hi");
                ("timestamp", JStr "2023-11-14T22:13:20.000Z");
                ("recipientId", JStr "B")] in
        [(ToRoom (JStr "user-B"), "receive-message", record);
         (ToSocket "s1", "message-sent", record)])
  /\ (forall clk p,
        field (fullMessage clk p) "id"
        = JStr ("msg-" ++ decimal (date_now clk) ++ "-"
                  ++ substr (random_base36 clk) 2 9)
        /\ field (fullMessage clk p) "timestamp" = JStr (iso_string clk))
  /\ (forall clk p i t,
        fullMessage clk (("id", i) :: ("timestamp", t) :: p) = fullMessage clk p).
Proof. repeat split. Qed.

(** ** The order emitters *)

(** C8, as stated, fails on one point: nothing is logged.  Without the
    handle both emitters return at once; the console stays empty. *)
Lemma emit_without_handle_counterexample :
  console (snd (exec (Process.emitOrderCreated (Some Runs.shipped_order))
                     Process.fresh)) = []
  /\ console (snd (exec (Process.emitOrderUpdated Runs.clk0
                           (Some Runs.shipped_order))
                        Process.fresh)) = [].
Proof. split; reflexivity. Qed.

(** C8, amended.  While the process-wide handle is absent,
    [emitOrderCreated] and [emitOrderUpdated] are silent no-ops for
    every order, present or not: nothing is emitted, nothing is logged,
    nothing is thrown and the state is unchanged. *)
Theorem emit_without_handle_is_silent (clk : clock) (order : option obj)
  (pr : Process.process) :
  Process.global_io pr = None ->
  exec (Process.emitOrderCreated order) pr = (pr, [])
  /\ exec (Process.emitOrderUpdated clk order) pr = (pr, []).
Proof.
  intro H. unfold exec, Process.emitOrderCreated, Process.emitOrderUpdated,
    bind, read, ret. simpl. rewrite H. split; reflexivity.
Qed.

(** Before [initSocketServer] has run. *)
Lemma emit_without_handle_is_silent_witness :
  Process.global_io Process.fresh = None
  /\ exec (Process.emitOrderCreated (Some Runs.shipped_order)) Process.fresh
     = (Process.fresh, [])
  /\ exec (Process.emitOrderUpdated Runs.clk0 None) Process.fresh
     = (Process.fresh, []).
Proof.
  split; [reflexivity|]. split.
  - exact (proj1 (emit_without_handle_is_silent Runs.clk0
                    (Some Runs.shipped_order) Process.fresh eq_refl)).
  - exact (proj2 (emit_without_handle_is_silent Runs.clk0 None
                    Process.fresh eq_refl)).
Defined.

(** C9.  The emitter does not do what the claim says.  For the shipped
    order of client C, with the handle present, order-status-changed
    goes to C's personal channel only; the vendor channel gets
    order-updated and nothing else.  For no order at all does
    [emitOrderUpdated] address order-status-changed to the vendor
    channel. *)
Theorem emitOrderUpdated_status_not_to_vendor :
  emissions (snd (exec (Process.emitOrderUpdated Runs.clk0
                          (Some Runs.shipped_order)) Runs.serving))
  = [(ToRoom (JStr "vendor"), "order-updated", DObj Runs.shipped_order);
     (ToRoom (JStr "user-C"), "order-updated", DObj Runs.shipped_order);
     (ToRoom (JStr "user-C"), "order-status-changed",
      DObj [("orderId", JStr "o1"); ("status", JStr "shipped");
            ("timestamp", JStr "2023-11-14T22:13:20.000Z")])]
  /\ (forall clk order pr d,
        ~ In (ToRoom (JStr "vendor"), "order-status-changed", d)
             (emissions (snd (exec (Process.emitOrderUpdated clk order) pr)))).
Proof.
  split; [reflexivity|].
  intros clk order pr d.
  unfold exec, Process.emitOrderUpdated, bind, read, ret. simpl.
  destruct (Process.global_io pr); [|simpl; tauto].
  destruct order as [o|]; simpl.
  - destruct (truthy (field o "userId")), (truthy (field o "status")); simpl;
      intuition discriminate.
  - intuition discriminate.
Qed.

(** ** Anonymous connections *)



(** ** Last join wins *)

Lemma entries_for_get (m : JsMap.t presence) (k : jsval) (v : presence) :
  JsMap.entries_for k m = [(k, v)] -> JsMap.get k m = Some v.
Proof.
  unfold JsMap.entries_for. induction m as [|[k' v'] m IH]; simpl.
  - discriminate.
  - rewrite (same_value_zero_sym k k').
    destruct (same_value_zero k' k); [|exact IH].
    intro H. now injection H as _ -> _.
Qed.

(** C6.  After two join-user events that carry the same user id, from
    the same or from different connections and with any events between
    them, the registry holds exactly one entry under that user id, and
    it names the connection of the later join, with that join's role
    and name. *)
Theorem last_join_wins (tr0 mid : list (clock * event)) (clk1 clk2 : clock)
  (s1 s2 : string) (p1 p2 : obj) :
  field p1 "userId" = field p2 "userId" ->
  let u := field p2 "userId" in
  let st := state_after initial
              (tr0 ++ (clk1, JoinUser s1 p1) :: mid ++ [(clk2, JoinUser s2 p2)]) in
  JsMap.entries_for u (connectedUsers st) = [(u, joined_entry s2 p2)]
  /\ JsMap.get u (connectedUsers st) = Some (joined_entry s2 p2)
  /\ socketId (joined_entry s2 p2) = s2.
Proof.
  intros _ u st.
  assert (E : JsMap.entries_for u (connectedUsers st) = [(u, joined_entry s2 p2)]).
  { subst st.
    replace (tr0 ++ (clk1, JoinUser s1 p1) :: mid ++ [(clk2, JoinUser s2 p2)])%list
      with ((tr0 ++ (clk1, JoinUser s1 p1) :: mid) ++ [(clk2, JoinUser s2 p2)])%list
      by (rewrite <- app_assoc; reflexivity).
    rewrite state_after_app, state_after_cons, state_after_nil, registry_step.
    simpl. apply entries_for_set. apply reachable_well_formed. }
  split; [exact E|]. split; [|reflexivity].
  now apply entries_for_get.
Qed.

(** Ann reconnects on s2 while her entry still names s1. *)
Lemma last_join_wins_witness :
  field (Runs.join "A" "client" "Ann") "userId"
  = field (Runs.join "A" "client" "Ann N.") "userId"
  /\ JsMap.get (JStr "A")
       (connectedUsers
          (state_after initial
             ([Runs.at0 (Connection "s1")]
                ++ (Runs.clk0, JoinUser "s1" (Runs.join "A" "client" "Ann"))
                :: [Runs.at0 (Connection "s2")]
                ++ [(Runs.clk0, JoinUser "s2" (Runs.join "A" "client" "Ann N."))])))
     = Some {| socketId := "s2"; role := JStr "client"; name := JStr "Ann N.";
               online := true |}.
Proof.
  split; [reflexivity|].
  exact (proj1 (proj2
    (last_join_wins [Runs.at0 (Connection "s1")] [Runs.at0 (Connection "s2")]
       Runs.clk0 Runs.clk0 "s1" "s2" (Runs.join "A" "client" "Ann")
       (Runs.join "A" "client" "Ann N.") eq_refl))).
Defined.

(** ** Which entry a disconnect removes *)

Section FirstHeld.
Variables (sid : string) (u : jsval) (e0 : presence).

Lemma first_held_set_own (m : JsMap.t presence) :
  holds_only sid u m = true -> socketId e0 = sid ->
  first_held sid (JsMap.set u e0 m) = Some (u, e0).
Proof.
  intros Hm He. unfold first_held.
  assert (Hh : forall k, held_by sid (k, e0) = true).
  { intro k. unfold held_by. simpl. rewrite He. apply String.eqb_refl. }
  induction m as [|[k v] m IH]; simpl in *.
  - now rewrite Hh.
  - apply andb_true_iff in Hm. destruct Hm as [H1 H2].
    destruct (same_value_zero u k) eqn:E; simpl.
    + apply same_value_zero_eq in E. subst k. now rewrite Hh.
    + rewrite same_value_zero_sym, E in H1. simpl in H1.
      apply negb_true_iff in H1. rewrite H1. now apply IH.
Qed.

Lemma first_held_set_other (m : JsMap.t presence) (u' : jsval) (e' : presence) :
  first_held sid m = Some (u, e0) -> u' <> u -> socketId e' <> sid ->
  first_held sid (JsMap.set u' e' m) = Some (u, e0).
Proof.
  intros Hm Hu He. unfold first_held in *.
  assert (Hn : forall k, held_by sid (k, e') = false).
  { intro k. unfold held_by. simpl. now apply String.eqb_neq. }
  induction m as [|[k v] m IH]; simpl in *.
  - discriminate.
  - destruct (same_value_zero u' k) eqn:E; simpl.
    + apply same_value_zero_eq in E. subst k. rewrite Hn.
      destruct (held_by sid (u', v)); [congruence | exact Hm].
    + destruct (held_by sid (k, v)); [exact Hm | now apply IH].
Qed.

Lemma first_held_delete_other (m : JsMap.t presence) (u' : jsval) :
  first_held sid m = Some (u, e0) -> u' <> u ->
  first_held sid (JsMap.delete u' m) = Some (u, e0).
Proof.
  intros Hm Hu. unfold first_held in *.
  induction m as [|[k v] m IH]; simpl in *.
  - discriminate.
  - destruct (same_value_zero u' k) eqn:E; simpl.
    + apply same_value_zero_eq in E. subst k.
      destruct (held_by sid (u', v)); [congruence | exact Hm].
    + destruct (held_by sid (k, v)); [exact Hm | now apply IH].
Qed.

Lemma first_held_of_get (m : JsMap.t presence) :
  JsMap.get u m = Some e0 -> socketId e0 = sid -> holds_only sid u m = true ->
  first_held sid m = Some (u, e0).
Proof.
  intros Hg He Hm. unfold first_held.
  induction m as [|[k v] m IH]; simpl in *.
  - discriminate.
  - apply andb_true_iff in Hm. destruct Hm as [H1 H2].
    destruct (same_value_zero u k) eqn:E.
    + apply same_value_zero_eq in E. subst k. injection Hg as ->.
      unfold held_by at 1. simpl. now rewrite He, String.eqb_refl.
    + rewrite same_value_zero_sym, E in H1. simpl in H1.
      apply negb_true_iff in H1. rewrite H1. now apply IH.
Qed.

End FirstHeld.

Lemma well_formed_unique (m : JsMap.t presence) (k : jsval) (v1 v2 : presence) :
  JsMap.well_formed m -> In (k, v1) m -> In (k, v2) m -> v1 = v2.
Proof.
  unfold JsMap.well_formed, JsMap.keys.
  induction m as [|[k' v'] m IH]; simpl; intros H H1 H2; [tauto|].
  inversion H as [|? ? Hn Hd]; subst.
  assert (Hk : forall v, In (k', v) m -> False).
  { intros v Hv. apply Hn. change k' with (fst (k', v)). now apply in_map. }
  destruct H1 as [H1|H1], H2 as [H2|H2].
  - congruence.
  - injection H1 as -> _. exfalso. eauto.
  - injection H2 as -> _. exfalso. eauto.
  - now apply IH.
Qed.

(** While nobody else joins as [u], the connection joins as nobody else
    and does not disconnect, its entry stays the one a disconnect of
    [sid] would stop at. *)
Lemma undisturbed_stretch (sid : string) (u : jsval) (e0 : presence)
  (mid : list (clock * event)) (m : JsMap.t presence) :
  socketId e0 = sid ->
  forallb (undisturbed sid u) mid = true ->
  JsMap.well_formed m ->
  first_held sid m = Some (u, e0) ->
  first_held sid (fold_left registry_next (map snd mid) m) = Some (u, e0).
Proof.
  intro He. revert m.
  induction mid as [|[clk e] mid IH]; intros m Hq Hw Hm; simpl in *.
  - exact Hm.
  - apply andb_true_iff in Hq. destruct Hq as [Hev Hq].
    apply IH; [exact Hq | now apply registry_next_well_formed |].
    destruct e; simpl; try exact Hm; unfold undisturbed in Hev; simpl in Hev.
    + apply andb_true_iff in Hev. destruct Hev as [E1 E2].
      apply negb_true_iff in E1, E2.
      apply String.eqb_neq in E1. apply same_value_zero_neq in E2.
      apply first_held_set_other; [exact Hm | exact E2 | exact E1].
    + apply negb_true_iff in Hev. apply String.eqb_neq in Hev.
      destruct (first_held sid0 m) as [[u' e']|] eqn:F; [|exact Hm].
      apply first_held_some in F. destruct F as [F1 F2].
      apply first_held_delete_other; [exact Hm|].
      intro Eu. subst u'.
      apply first_held_some in Hm. destruct Hm as [G1 G2].
      pose proof (well_formed_unique m u e' e0 Hw F1 G1). congruence.
Qed.

(** ** Online and offline broadcasts *)

(** C5, as stated, fails.  Connection s1, already present as Ann, joins
    as Bob: user-online carries Bob.  When s1 disconnects, the loop
    stops at Ann's entry, the first one held by s1: user-offline carries
    Ann, and none is sent for Bob. *)
Lemma offline_round_trip_counterexample :
  let joined := step Runs.ann_alone
                  (Runs.clk0, JoinUser "s1" (Runs.join "B" "vendor" "Bob")) in
  let left := step (fst joined) (Runs.clk0, Disconnect "s1") in
  emissions (snd joined)
  = [user_online (JStr "B") (JStr "vendor") (JStr "Bob")]
  /\ emissions (snd left)
     = [(ToAll, "user-offline",
         DObj [("userId", JStr "A"); ("name", JStr "Ann");
               ("role", JStr "client"); ("online", JBool false)])]
  /\ map identity_of (emissions (snd left))
     <> map identity_of (emissions (snd joined)).
Proof. repeat split. vm_compute. discriminate. Qed.

(** C5, amended.  In a reachable state where connection [sid] is
    registered under no user id other than [u], let [sid] join as [u];
    then let events follow among which nobody joins as [u], [sid] joins
    as nobody else and [sid] does not disconnect; then let [sid]
    disconnect.  The join broadcasts one user-online and the disconnect
    one user-offline, and both carry the same userId, name and role:
    those of the join payload. *)
Theorem offline_round_trip (tr0 mid : list (clock * event)) (clk clk' : clock)
  (sid : string) (p : obj) :
  holds_only sid (field p "userId")
    (connectedUsers (state_after initial tr0)) = true ->
  forallb (undisturbed sid (field p "userId")) mid = true ->
  let u := field p "userId" in
  let joined := step (state_after initial tr0) (clk, JoinUser sid p) in
  let left := step (state_after (fst joined) mid) (clk', Disconnect sid) in
  emissions (snd joined) = [user_online u (field p "role") (field p "name")]
  /\ emissions (snd left) = [user_offline u (joined_entry sid p)]
  /\ identity_of (user_offline u (joined_entry sid p))
     = identity_of (user_online u (field p "role") (field p "name"))
  /\ identity_of (user_offline u (joined_entry sid p))
     = (u, field p "name", field p "role").
Proof.
  intros Hh Hq u joined left.
  split; [apply step_join|]. split; [|split; reflexivity].
  subst left. rewrite (proj2 (step_disconnect _ clk' sid)).
  rewrite registry_run. subst joined. rewrite registry_step. simpl snd.
  cbn [registry_next].
  rewrite (undisturbed_stretch sid u (joined_entry sid p) mid).
  - reflexivity.
  - reflexivity.
  - exact Hq.
  - apply well_formed_set. apply reachable_well_formed.
  - now apply first_held_set_own.
Qed.

(** Cy joins on s3, others come and go, Cy's connection drops. *)
Lemma offline_round_trip_witness :
  holds_only "s3" (field Runs.cy_joins "userId")
    (connectedUsers (state_after initial (Runs.ann_session
                                            ++ [Runs.at0 (Connection "s3")]))) = true
  /\ forallb (undisturbed "s3" (field Runs.cy_joins "userId")) Runs.around_cy = true
  /\ emissions
       (snd (step (state_after
                     (fst (step (state_after initial
                                   (Runs.ann_session ++ [Runs.at0 (Connection "s3")]))
                                (Runs.clk0, JoinUser "s3" Runs.cy_joins)))
                     Runs.around_cy)
                  (Runs.clk0, Disconnect "s3")))
     = [(ToAll, "user-offline",
         DObj [("userId", JStr "C"); ("name", JStr "Cy");
               ("role", JStr "client"); ("online", JBool false)])].
Proof.
  split; [reflexivity|]. split; [reflexivity|].
  exact (proj1 (proj2
    (offline_round_trip (Runs.ann_session ++ [Runs.at0 (Connection "s3")])
       Runs.around_cy Runs.clk0 Runs.clk0 "s3" Runs.cy_joins eq_refl eq_refl))).
Defined.

(** ** Disconnect *)

Lemma never_joined_holds_nothing (sid : string) (tr : list (clock * event)) :
  forallb (not_join_of sid) tr = true ->
  existsb (held_by sid) (connectedUsers (state_after initial tr)) = false.
Proof.
  rewrite registry_run. simpl connectedUsers.
  assert (G : forall m, existsb (held_by sid) m = false ->
            forallb (not_join_of sid) tr = true ->
            existsb (held_by sid) (fold_left registry_next (map snd tr) m) = false).
  { induction tr as [|[clk e] tr IH]; intros m Hm Htr; simpl in *.
    - exact Hm.
    - apply andb_true_iff in Htr. destruct Htr as [He Htr].
      apply IH; [|exact Htr].
      apply not_true_is_false. intro Hex.
      apply existsb_exists in Hex. destruct Hex as [[k v] [Hin Hheld]].
      assert (Hno : forall x, In x m -> held_by sid x = false).
      { intros x Hx. destruct (held_by sid x) eqn:E; [|reflexivity].
        assert (existsb (held_by sid) m = true)
          by (apply existsb_exists; eauto). congruence. }
      destruct e; simpl in Hin;
        try (rewrite (Hno _ Hin) in Hheld; discriminate).
      + unfold not_join_of in He. simpl in He.
        apply negb_true_iff in He. apply String.eqb_neq in He.
        assert (Hset : forallb (fun x => negb (held_by sid x))
                         (JsMap.set (field p "userId") (joined_entry sid0 p) m) = true).
        { apply forallb_set.
          - apply forallb_forall. intros x Hx. now rewrite (Hno x Hx).
          - unfold held_by. simpl. apply negb_true_iff. now apply String.eqb_neq. }
        rewrite forallb_forall in Hset. specialize (Hset _ Hin).
        rewrite Hheld in Hset. discriminate.
      + destruct (first_held sid0 m) as [[u' e']|].
        * assert (Hdel : forallb (fun x => negb (held_by sid x))
                           (JsMap.delete u' m) = true).
          { apply forallb_delete. apply forallb_forall.
            intros x Hx. now rewrite (Hno x Hx). }
          rewrite forallb_forall in Hdel. specialize (Hdel _ Hin).
          rewrite Hheld in Hdel. discriminate.
        * rewrite (Hno _ Hin) in Hheld. discriminate. }
  apply G. reflexivity.
Qed.

(** C7, as stated, fails.  Connection s1 joined as Ann and then as Bob:
    its user id is B and it is the registry's connection for B.  Its
    disconnect removes Ann's entry and announces Ann; Bob's entry, still
    naming s1, stays in the registry. *)
Lemma disconnect_removal_counterexample :
  let st := state_after initial Runs.two_identities in
  let gone := step st (Runs.clk0, Disconnect "s1") in
  let bob := {| socketId := "s1"; role := JStr "vendor"; name := JStr "Bob";
                online := true |} in
  map userId (sockets st) = [JStr "B"]
  /\ JsMap.get (JStr "B") (connectedUsers st) = Some bob
  /\ JsMap.get (JStr "B") (connectedUsers (fst gone)) = Some bob
  /\ connectedUsers (fst gone) <> JsMap.delete (JStr "B") (connectedUsers st)
  /\ emissions (snd gone)
     = [(ToAll, "user-offline",
         DObj [("userId", JStr "A"); ("name", JStr "Ann");
               ("role", JStr "client"); ("online", JBool false)])].
Proof. repeat split. vm_compute. discriminate. Qed.

(** C7, amended.  In every reachable state: when a connection
    disconnects that is the registered connection of user [u] and is
    registered under no other user id, the server removes the entry of
    [u], leaving one entry fewer, and emits user-offline exactly once,
    with the user id, name and role of that entry; when a connection
    disconnects that never sent join-user, the registry is unchanged and
    nothing is emitted. *)
Theorem disconnect_presence_removal (tr : list (clock * event)) (clk : clock)
  (sid : string) :
  let st := state_after initial tr in
  let gone := step st (clk, Disconnect sid) in
  (forall u e,
      JsMap.get u (connectedUsers st) = Some e ->
      socketId e = sid ->
      holds_only sid u (connectedUsers st) = true ->
      connectedUsers (fst gone) = JsMap.delete u (connectedUsers st)
      /\ JsMap.get u (connectedUsers (fst gone)) = None
      /\ registry_size st = S (registry_size (fst gone))
      /\ emissions (snd gone) = [user_offline u e])
  /\ (forallb (not_join_of sid) tr = true ->
      connectedUsers (fst gone) = connectedUsers st
      /\ emissions (snd gone) = []).
Proof.
  intros st gone. subst gone.
  destruct (step_disconnect st clk sid) as [R E]. rewrite R, E. split.
  - intros u e Hg Hs Hh.
    rewrite (first_held_of_get sid u e _ Hg Hs Hh).
    assert (W : JsMap.well_formed (connectedUsers st))
      by apply reachable_well_formed.
    repeat split.
    + now apply get_delete_same.
    + unfold registry_size. rewrite R.
      rewrite (first_held_of_get sid u e _ Hg Hs Hh).
      symmetry. apply size_delete. unfold JsMap.has. now rewrite Hg.
  - intro Hn. apply never_joined_holds_nothing in Hn.
    apply first_held_none in Hn. fold st in Hn. rewrite Hn. split; reflexivity.
Qed.

(** Bob's connection drops; a connection that only chatted drops. *)
Lemma disconnect_presence_removal_witness :
  (JsMap.get (JStr "B") (connectedUsers (state_after initial Runs.ann_session))
   = Some (joined_entry "s2" (Runs.join "B" "vendor" "Bob"))
   /\ holds_only "s2" (JStr "B")
        (connectedUsers (state_after initial Runs.ann_session)) = true
   /\ emissions (snd (step (state_after initial Runs.ann_session)
                         (Runs.clk0, Disconnect "s2")))
      = [user_offline (JStr "B") (joined_entry "s2" (Runs.join "B" "vendor" "Bob"))])
  /\ (forallb (not_join_of "s3") Runs.lurker = true
      /\ emissions (snd (step (state_after initial Runs.lurker)
                            (Runs.clk0, Disconnect "s3"))) = []).
Proof.
  split.
  - split; [reflexivity|]. split; [reflexivity|].
    exact (proj2 (proj2 (proj2
      (proj1 (disconnect_presence_removal Runs.ann_session Runs.clk0 "s2")
         (JStr "B") (joined_entry "s2" (Runs.join "B" "vendor" "Bob"))
         eq_refl eq_refl eq_refl)))).
  - split; [reflexivity|].
    exact (proj2
      (proj2 (disconnect_presence_removal Runs.lurker Runs.clk0 "s3") eq_refl)).
Defined.

(* ================================================================== *)
(** * Further properties of the router *)
(* ================================================================== *)

(** ** Session-channel events *)

Lemma recipients_room_except (socks : list socket) (r : jsval) (sid x : string) :
  In x (recipients socks (ToRoomExcept r sid)) <->
  exists s, In s socks /\ id s = x /\ in_room r s = true /\ x <> sid.
Proof.
  simpl. rewrite in_map_iff. split.
  - intros [s [E H]]. apply filter_In in H. destruct H as [H1 H2].
    apply andb_true_iff in H2. destruct H2 as [H2 H3].
    apply negb_true_iff in H3. apply String.eqb_neq in H3.
    exists s. subst x. tauto.
  - intros [s [H1 [H2 [H3 H4]]]]. exists s. split; [exact H2|].
    apply filter_In. split; [exact H1|]. rewrite H3. simpl.
    apply negb_true_iff. apply String.eqb_neq. congruence.
Qed.

Lemma step_session_events (st : server) (clk : clock) (sid : string) (p : obj) :
  step st (clk, Typing sid p)
  = (st, [Emit (ToRoomExcept (field p "chatId") sid) "user-typing"
            (DObj [("chatId", field p "chatId"); ("name", field p "name")])])
  /\ step st (clk, StopTyping sid p)
     = (st, [Emit (ToRoomExcept (field p "chatId") sid) "user-stop-typing"
               (DObj [("chatId", field p "chatId")])])
  /\ step st (clk, MarkRead sid p)
     = (st, [Emit (ToRoom (field p "chatId")) "message-read"
               (DObj [("chatId", field p "chatId");
                      ("messageId", field p "messageId");
                      ("userId", field p "userId")])]).
Proof. destruct st. repeat split. Qed.

(** X1.  typing and stop-typing change nothing and emit one event each,
    user-typing {chatId, name} and user-stop-typing {chatId}, addressed
    to the room named by the chat id without the emitting connection:
    every other connection in that room receives it, the emitter never
    does.  mark-read emits message-read {chatId, messageId, userId} to
    the whole room, the emitter included when it is in the room. *)
Theorem session_channel_events (st : server) (clk : clock) (sid : string)
  (p : obj) :
  let c := field p "chatId" in
  step st (clk, Typing sid p)
  = (st, [Emit (ToRoomExcept c sid) "user-typing"
            (DObj [("chatId", c); ("name", field p "name")])])
  /\ step st (clk, StopTyping sid p)
     = (st, [Emit (ToRoomExcept c sid) "user-stop-typing"
               (DObj [("chatId", c)])])
  /\ step st (clk, MarkRead sid p)
     = (st, [Emit (ToRoom c) "message-read"
               (DObj [("chatId", c); ("messageId", field p "messageId");
                      ("userId", field p "userId")])])
  /\ ~ In sid (recipients (sockets st) (ToRoomExcept c sid))
  /\ (forall s, In s (sockets st) -> in_room c s = true ->
        In (id s) (recipients (sockets st) (ToRoom c))
        /\ (id s <> sid ->
            In (id s) (recipients (sockets st) (ToRoomExcept c sid)))).
Proof.
  intro c. destruct (step_session_events st clk sid p) as [T [S R]].
  repeat split; try assumption.
  - intro H. apply recipients_room_except in H.
    destruct H as [s [_ [_ [_ H]]]]. now apply H.
  - apply recipients_room_member. exists s. auto.
  - intro Hn. apply recipients_room_except. exists s. auto.
Qed.

(** ** Payment and order-status events *)

(** X2.  order-paid, from any connection, changes nothing and emits
    new-order-payment {orderId, userId, amount, paymentMethod,
    timestamp} to the vendor channel and payment-confirmed {orderId} to
    the personal channel of the payload's userId.  A connection that
    joined with role vendor receives the first, a connection that joined
    as that user the second; the payload's vendorId plays no part. *)
Theorem order_paid_routing (st : server) (clk : clock) (sid : string)
  (p : obj) (v c : socket) :
  In v (sockets st) -> in_room (JStr "vendor") v = true ->
  In c (sockets st) -> joined_as (field p "userId") c = true ->
  let outs := snd (step st (clk, OrderPaid sid p)) in
  fst (step st (clk, OrderPaid sid p)) = st
  /\ emissions outs
     = [(ToRoom (JStr "vendor"), "new-order-payment",
         DObj [("orderId", field p "orderId"); ("userId", field p "userId");
               ("amount", field p "amount");
               ("paymentMethod", field p "paymentMethod");
               ("timestamp", JStr (iso_string clk))]);
        (ToRoom (user_room (field p "userId")), "payment-confirmed",
         DObj [("orderId", field p "orderId")])]
  /\ In (id v) (recipients (sockets st) (ToRoom (JStr "vendor")))
  /\ In (id c) (recipients (sockets st) (ToRoom (user_room (field p "userId"))))
  /\ (forall w, step st (clk, OrderPaid sid (("vendorId", w) :: p))
                = step st (clk, OrderPaid sid p)).
Proof.
  intros Hv Hvr Hc Hcr outs. subst outs.
  repeat split; try (destruct st; reflexivity).
  - apply recipients_room_member. exists v. auto.
  - apply recipients_room_member. exists c. auto.
Qed.

(** Ann (client) pays order o1; Bob (vendor) is connected. *)
Lemma order_paid_routing_witness :
  In Runs.bob_socket (sockets Runs.ann_and_bob)
  /\ in_room (JStr "vendor") Runs.bob_socket = true
  /\ In Runs.ann_socket (sockets Runs.ann_and_bob)
  /\ joined_as (JStr "A") Runs.ann_socket = true
  /\ In "s2" (recipients (sockets Runs.ann_and_bob) (ToRoom (JStr "vendor")))
  /\ In "s1" (recipients (sockets Runs.ann_and_bob) (ToRoom (JStr "user-A"))).
Proof.
  assert (H0 : In Runs.ann_socket (sockets Runs.ann_and_bob)).
  { vm_compute. left. reflexivity. }
  assert (H1 : In Runs.bob_socket (sockets Runs.ann_and_bob)).
  { vm_compute. right. left. reflexivity. }
  split; [exact H1|]. split; [reflexivity|].
  split; [exact H0|]. split; [reflexivity|].
  destruct (order_paid_routing Runs.ann_and_bob Runs.clk0 "s1"
              [("orderId", JStr "o1"); ("userId", JStr "A")]
              Runs.bob_socket Runs.ann_socket H1 eq_refl H0 eq_refl)
    as [_ [_ [A [B _]]]].
  split; [exact A | exact B].
Defined.

(** X3.  order-status-updated, from any connection, changes nothing and
    emits order-status-changed twice: to the personal channel of the
    payload's clientId and to the vendor channel.  Both carry the
    payload's orderId and status; each carries its own clock reading as
    timestamp, so the two payloads are equal exactly when the two
    readings are.  The payload's vendorId plays no part. *)
Theorem order_status_updated_routing (st : server) (clk : clock) (sid : string)
  (p : obj) :
  let to_client := DObj [("orderId", field p "orderId");
                         ("status", field p "status");
                         ("timestamp", JStr (iso_string clk))] in
  let to_vendor := DObj [("orderId", field p "orderId");
                         ("status", field p "status");
                         ("timestamp", JStr (iso_string_again clk))] in
  fst (step st (clk, OrderStatusUpdated sid p)) = st
  /\ emissions (snd (step st (clk, OrderStatusUpdated sid p)))
     = [(ToRoom (user_room (field p "clientId")), "order-status-changed", to_client);
        (ToRoom (JStr "vendor"), "order-status-changed", to_vendor)]
  /\ (to_client = to_vendor <-> iso_string clk = iso_string_again clk)
  /\ (forall w, step st (clk, OrderStatusUpdated sid (("vendorId", w) :: p))
                = step st (clk, OrderStatusUpdated sid p)).
Proof.
  intros to_client to_vendor.
  repeat split; try (destruct st; reflexivity).
  - intro H. subst to_client to_vendor. congruence.
  - intro H. subst to_client to_vendor. now rewrite H.
Qed.

(** ** The socket table *)

Import Rooms.

Lemma sockets_step (st : server) (ce : clock * event) :
  sockets (fst (step st ce)) = sockets_next (sockets st) (snd ce).
Proof.
  destruct ce as [clk e]. destruct e; simpl snd;
    try (destruct st; reflexivity).
  - destruct st as [m socks]. simpl. rewrite !map_map. apply map_ext.
    intro s. destruct (String.eqb (id s) sid) eqn:E; simpl.
    + rewrite E. simpl. rewrite E. reflexivity.
    + rewrite E. simpl. rewrite E. reflexivity.
  - rewrite step_disconnect_full.
    now destruct (first_held sid (connectedUsers st)) as [[u e]|].
Qed.

Lemma in_room_add_room (c r : jsval) (rs : list jsval) :
  existsb (same_value_zero c) (add_room r rs)
  = existsb (same_value_zero c) rs
    || (same_value_zero c r && negb (existsb (same_value_zero r) rs)).
Proof.
  unfold add_room. destruct (existsb (same_value_zero r) rs) eqn:E; simpl.
  - now rewrite andb_false_r, orb_false_r.
  - rewrite existsb_app. simpl. now rewrite orb_false_r, andb_true_r.
Qed.

Lemma in_room_add_room_same (r : jsval) (rs : list jsval) :
  existsb (same_value_zero r) (add_room r rs) = true.
Proof.
  rewrite in_room_add_room, same_value_zero_refl. simpl.
  now destruct (existsb (same_value_zero r) rs).
Qed.

Lemma in_room_add_room_mono (c r : jsval) (rs : list jsval) :
  existsb (same_value_zero c) rs = true ->
  existsb (same_value_zero c) (add_room r rs) = true.
Proof. intro H. now rewrite in_room_add_room, H. Qed.

(** X4.  join-user of a connected socket subscribes it to the personal
    channel of the payload's userId and to the channel named by its
    role: afterwards the connection receives what is sent to either,
    so a send-message to that user id reaches it.  The join adds and
    removes no connection and takes the socket out of no room it was in
    (a second join under another user id keeps the first personal
    channel).  The join emits exactly one event: user-online with the
    payload's userId, role and name and online true, addressed to
    every connection, the joining one included. *)
Theorem join_subscribes (st : server) (clk : clock) (p : obj) (s : socket) :
  In s (sockets st) ->
  let st' := fst (step st (clk, JoinUser (id s) p)) in
  In (id s) (recipients (sockets st') (ToRoom (user_room (field p "userId"))))
  /\ In (id s) (recipients (sockets st') (ToRoom (field p "role")))
  /\ (forall r, in_room r s = true ->
        In (id s) (recipients (sockets st') (ToRoom r)))
  /\ map id (sockets st') = map id (sockets st)
  /\ emissions (snd (step st (clk, JoinUser (id s) p)))
     = [(ToAll, "user-online",
         DObj [("userId", field p "userId"); ("role", field p "role");
               ("name", field p "name"); ("online", JBool true)])]
  /\ recipients (sockets st') ToAll = map id (sockets st)
  /\ In (id s) (recipients (sockets st') ToAll)
  /\ (forall clk' sid' q, field q "recipientId" = field p "userId" ->
        exists t ev d,
          In (t, ev, d) (emissions (snd (step st' (clk', SendMessage sid' q))))
          /\ ev = "receive-message"
          /\ In (id s) (recipients (sockets st') t)).
Proof.
  intros Hs st'.
  assert (Hin : In (joined_socket p s) (sockets st')).
  { subst st'. rewrite sockets_step. simpl. apply in_map_iff.
    exists s. now rewrite String.eqb_refl. }
  assert (Hids : map id (sockets st') = map id (sockets st)).
  { subst st'. rewrite sockets_step. simpl. rewrite map_map. apply map_ext.
    intro x. now destruct (String.eqb (id x) (id s)). }
  assert (Hu : In (id s) (recipients (sockets st')
                            (ToRoom (user_room (field p "userId"))))).
  { apply recipients_room_member. exists (joined_socket p s).
    repeat split; [exact Hin|]. unfold in_room. simpl.
    apply in_room_add_room_mono, in_room_add_room_same. }
  repeat split.
  - exact Hu.
  - apply recipients_room_member. exists (joined_socket p s).
    repeat split; [exact Hin|]. unfold in_room. simpl.
    apply in_room_add_room_same.
  - intros r Hr. apply recipients_room_member. exists (joined_socket p s).
    repeat split; [exact Hin|]. unfold in_room in *. simpl.
    now apply in_room_add_room_mono, in_room_add_room_mono.
  - exact Hids.
  - exact Hids.
  - change (In (id s) (map id (sockets st'))). rewrite Hids. now apply in_map.
  - intros clk' sid' q Hq. rewrite step_send_message. simpl.
    eexists _, _, _. split; [left; reflexivity|]. split; [reflexivity|].
    rewrite Hq. exact Hu.
Qed.

(** Bob's connection s2, already present, joins as Ann as well. *)
Lemma join_subscribes_witness :
  In Runs.bob_socket (sockets Runs.ann_and_bob)
  /\ In "s2" (recipients
               (sockets (fst (step Runs.ann_and_bob
                                (Runs.clk0,
                                 JoinUser "s2" (Runs.join "A" "client" "Ann")))))
               (ToRoom (JStr "user-A")))
  /\ In "s2" (recipients
               (sockets (fst (step Runs.ann_and_bob
                                (Runs.clk0,
                                 JoinUser "s2" (Runs.join "A" "client" "Ann")))))
               (ToRoom (JStr "user-B")))
  /\ emissions (snd (step Runs.ann_and_bob
                       (Runs.clk0, JoinUser "s2" (Runs.join "A" "client" "Ann"))))
     = [(ToAll, "user-online",
         DObj [("userId", JStr "A"); ("role", JStr "client");
               ("name", JStr "Ann"); ("online", JBool true)])]
  /\ recipients
       (sockets (fst (step Runs.ann_and_bob
                        (Runs.clk0, JoinUser "s2" (Runs.join "A" "client" "Ann")))))
       ToAll
     = ["s1"; "s2"].
Proof.
  assert (H1 : In Runs.bob_socket (sockets Runs.ann_and_bob)).
  { vm_compute. right. left. reflexivity. }
  split; [exact H1|].
  destruct (join_subscribes Runs.ann_and_bob Runs.clk0
              (Runs.join "A" "client" "Ann") Runs.bob_socket H1)
    as [A [_ [B [_ [E [R _]]]]]].
  split; [exact A|]. split; [exact (B (JStr "user-B") eq_refl)|].
  split; [exact E | exact R].
Defined.

(** ** Who is online *)

Lemma filter_map_swap {A B : Type} (f : B -> bool) (g : A -> B) (l : list A) :
  filter f (map g l) = map g (filter (fun x => f (g x)) l).
Proof.
  induction l as [|x l IH]; simpl; [reflexivity|].
  destruct (f (g x)); simpl; now rewrite IH.
Qed.

(** X5.  get-online-users changes nothing, emits nothing and answers
    the requester alone with one item {id, name, role, online: true}
    per registry entry, in registry order.  Asked right after a
    join-user, in any run, the answer lists the joined user id exactly
    once, with the role and name of that join. *)
Theorem online_users_after_join (tr : list (clock * event)) (clk clk' : clock)
  (sid requester : string) (p : obj) :
  let st := state_after initial (tr ++ [(clk, JoinUser sid p)]) in
  let items := map online_user (connectedUsers st) in
  step st (clk', GetOnlineUsers requester) = (st, [Ack requester (DArr items)])
  /\ length items = registry_size st
  /\ filter (fun o => same_value_zero (field o "id") (field p "userId")) items
     = [[("id", field p "userId"); ("name", field p "name");
         ("role", field p "role"); ("online", JBool true)]]
  /\ forallb (fun o => same_value_zero (field o "online") (JBool true)) items
     = true.
Proof.
  intros st items. split; [destruct st; reflexivity|].
  split; [apply length_map|]. split.
  - subst items. rewrite filter_map_swap.
    change (filter (fun x => same_value_zero (field (online_user x) "id")
                               (field p "userId")) (connectedUsers st))
      with (JsMap.entries_for (field p "userId") (connectedUsers st)).
    subst st. rewrite state_after_app, state_after_cons, state_after_nil.
    rewrite registry_step. simpl snd. cbn [registry_next].
    rewrite entries_for_set; [reflexivity | apply reachable_well_formed].
  - subst items. apply forallb_forall. intros o Ho.
    apply in_map_iff in Ho. destruct Ho as [x [<- _]]. reflexivity.
Qed.

(** ** Disconnects, in general *)

Lemma existsb_held_after_set (s1 : string) (u : jsval) (e : presence)
  (m : JsMap.t presence) :
  JsMap.well_formed m ->
  holds_only s1 u m = true ->
  socketId e <> s1 ->
  existsb (held_by s1) (JsMap.set u e m) = false.
Proof.
  intros Hw Hh He.
  assert (Hn : forall k, held_by s1 (k, e) = false).
  { intro k. unfold held_by. simpl. now apply String.eqb_neq. }
  assert (Hrest : forall m', holds_only s1 u m' = true ->
            ~ In u (JsMap.keys m') -> existsb (held_by s1) m' = false).
  { induction m' as [|[k v] m' IH]; simpl; intros H1 H2; [reflexivity|].
    apply andb_true_iff in H1. destruct H1 as [H1 H3].
    destruct (same_value_zero k u) eqn:E.
    - apply same_value_zero_eq in E. subst k. tauto.
    - simpl in H1. apply negb_true_iff in H1. rewrite H1. simpl.
      apply IH; tauto. }
  unfold JsMap.well_formed, JsMap.keys in Hw.
  induction m as [|[k v] m IH]; simpl in *.
  - now rewrite Hn.
  - inversion Hw as [|? ? Hnk Hd]; subst.
    apply andb_true_iff in Hh. destruct Hh as [H1 H2].
    destruct (same_value_zero u k) eqn:E; simpl.
    + apply same_value_zero_eq in E. subst k. rewrite Hn. simpl.
      now apply Hrest.
    + rewrite same_value_zero_sym, E in H1. simpl in H1.
      apply negb_true_iff in H1. rewrite H1. simpl. now apply IH.
Qed.

(** X6.  Reconnect.  A connection [s1] is registered under user id [u]
    at most; another connection [s2] joins as [u].  When [s1] then
    disconnects, the registry is unchanged, no user-offline is emitted,
    and [u] stays registered to [s2]. *)
Theorem superseded_disconnect_is_harmless (tr : list (clock * event))
  (clk clk' : clock) (s1 s2 : string) (p : obj) :
  String.eqb s2 s1 = false ->
  holds_only s1 (field p "userId")
    (connectedUsers (state_after initial tr)) = true ->
  let st1 := fst (step (state_after initial tr) (clk, JoinUser s2 p)) in
  let gone := step st1 (clk', Disconnect s1) in
  connectedUsers (fst gone) = connectedUsers st1
  /\ emissions (snd gone) = []
  /\ JsMap.get (field p "userId") (connectedUsers (fst gone))
     = Some (joined_entry s2 p).
Proof.
  intros Hne Hh st1 gone.
  assert (Hnone : first_held s1 (connectedUsers st1) = None).
  { apply first_held_none. subst st1. rewrite registry_step. simpl.
    apply existsb_held_after_set.
    - apply reachable_well_formed.
    - exact Hh.
    - simpl. now apply String.eqb_neq. }
  subst gone. destruct (step_disconnect st1 clk' s1) as [R E].
  rewrite R, E, Hnone. repeat split.
  subst st1. rewrite registry_step. simpl. apply get_set_same.
Qed.

(** Ann reconnects on s3 while s1 still holds her entry; s1 then drops. *)
Lemma superseded_disconnect_is_harmless_witness :
  String.eqb "s3" "s1" = false
  /\ holds_only "s1" (JStr "A")
       (connectedUsers (state_after initial Runs.ann_session)) = true
  /\ JsMap.get (JStr "A")
       (connectedUsers
          (fst (step (fst (step (state_after initial Runs.ann_session)
                             (Runs.clk0, JoinUser "s3" (Runs.join "A" "client" "Ann"))))
                     (Runs.clk0, Disconnect "s1"))))
     = Some (joined_entry "s3" (Runs.join "A" "client" "Ann")).
Proof.
  split; [reflexivity|]. split; [reflexivity|].
  exact (proj2 (proj2
    (superseded_disconnect_is_harmless Runs.ann_session Runs.clk0 Runs.clk0
       "s1" "s3" (Runs.join "A" "client" "Ann") eq_refl eq_refl))).
Defined.

Lemma find_split {A : Type} (f : A -> bool) (l : list A) (x : A) :
  find f l = Some x ->
  exists pre post, l = (pre ++ x :: post)%list
                   /\ filter f pre = [] /\ f x = true.
Proof.
  induction l as [|y l IH]; simpl; [discriminate|].
  destruct (f y) eqn:E.
  - intro H. injection H as ->. exists [], l. auto.
  - intro H. destruct (IH H) as [pre [post [-> [H1 H2]]]].
    exists (y :: pre), post. simpl. rewrite E. auto.
Qed.

Lemma find_none_filter {A : Type} (f : A -> bool) (l : list A) :
  find f l = None -> filter f l = [].
Proof.
  induction l as [|y l IH]; simpl; [reflexivity|].
  destruct (f y); [discriminate | exact IH].
Qed.

Lemma delete_at_first (u : jsval) (e : presence)
  (pre post : list (jsval * presence)) :
  ~ In u (JsMap.keys pre) ->
  JsMap.delete u (pre ++ (u, e) :: post)%list = (pre ++ post)%list.
Proof.
  unfold JsMap.keys. induction pre as [|[k v] pre IH]; simpl; intro H.
  - now rewrite same_value_zero_refl.
  - destruct (same_value_zero u k) eqn:E.
    + apply same_value_zero_eq in E. subst k. tauto.
    + rewrite IH; tauto.
Qed.

(** X7.  What a disconnect does in general.  Of the entries registered
    to the disconnecting connection, in registry order, the first is
    removed and announced by one user-offline; all the others stay in
    the registry although the connection is gone from the server.  The
    entries of every other connection are untouched. *)
Theorem disconnect_removes_first_entry_only (tr : list (clock * event))
  (clk : clock) (sid : string) :
  let st := state_after initial tr in
  let gone := step st (clk, Disconnect sid) in
  let held := held_entries sid (connectedUsers st) in
  held_entries sid (connectedUsers (fst gone)) = tl held
  /\ emissions (snd gone)
     = map (fun ue => user_offline (fst ue) (snd ue)) (firstn 1 held)
  /\ registry_size (fst gone) + length (firstn 1 held) = registry_size st
  /\ (forall other, other <> sid ->
        held_entries other (connectedUsers (fst gone))
        = held_entries other (connectedUsers st))
  /\ ~ In sid (map id (sockets (fst gone))).
Proof.
  intros st gone held. subst gone.
  destruct (step_disconnect st clk sid) as [R E].
  assert (Hsock : ~ In sid (map id (sockets (fst (step st (clk, Disconnect sid)))))).
  { rewrite sockets_step. simpl. intro H. apply in_map_iff in H.
    destruct H as [s [H1 H2]]. apply filter_In in H2. destruct H2 as [_ H2].
    apply negb_true_iff in H2. apply String.eqb_neq in H2. contradiction. }
  unfold registry_size. rewrite R, E. subst held. unfold held_entries.
  destruct (first_held sid (connectedUsers st)) as [[u e]|] eqn:F.
  - pose proof (first_held_some _ _ _ _ F) as [Hin Hsid].
    unfold first_held in F. apply find_split in F.
    destruct F as [pre [post [Hm [Hpre Hx]]]].
    assert (Hw : JsMap.well_formed (connectedUsers st))
      by apply reachable_well_formed.
    rewrite Hm in *. clear Hm.
    assert (Hu : ~ In u (JsMap.keys pre)).
    { unfold JsMap.well_formed, JsMap.keys in *. rewrite map_app in Hw.
      simpl in Hw. apply NoDup_remove_2 in Hw. intro H. apply Hw.
      apply in_or_app. now left. }
    rewrite delete_at_first by exact Hu.
    rewrite !filter_app. simpl. rewrite Hx, Hpre. simpl.
    repeat split.
    + unfold JsMap.size. rewrite !length_app. simpl. lia.
    + intros other Ho.
      assert (Hoe : held_by other (u, e) = false).
      { unfold held_by. simpl. rewrite Hsid. apply String.eqb_neq. congruence. }
      rewrite !filter_app. cbn [filter]. now rewrite Hoe.
    + exact Hsock.
  - unfold first_held in F.
    rewrite (find_none_filter _ _ F). simpl. repeat split; [lia | exact Hsock].
Qed.

(** ** Where presence entries come from *)

Lemma in_set_cases (m : JsMap.t presence) (k : jsval) (v : presence)
  (x : jsval * presence) :
  In x (JsMap.set k v m) -> x = (k, v) \/ In x m.
Proof.
  induction m as [|[k' v'] m IH]; simpl.
  - intros [H|[]]; auto.
  - destruct (same_value_zero k k') eqn:E; simpl.
    + apply same_value_zero_eq in E. subst k'. intros [H|H]; auto.
    + intros [H|H]; auto. destruct (IH H); auto.
Qed.

Lemma in_delete (m : JsMap.t presence) (k : jsval) (x : jsval * presence) :
  In x (JsMap.delete k m) -> In x m.
Proof.
  induction m as [|[k' v'] m IH]; simpl; [tauto|].
  destruct (same_value_zero k k'); simpl; intuition.
Qed.

(** X8.  In every reachable state each presence entry is what a
    join-user event of the run wrote: the run contains a join-user, on
    the connection the entry names, whose payload has the entry's user
    id, role and name; and the entry is marked online. *)
Theorem presence_entries_come_from_joins (tr : list (clock * event))
  (ue : jsval * presence) :
  In ue (connectedUsers (state_after initial tr)) ->
  online (snd ue) = true
  /\ exists ce, In ce tr /\ written_by ue ce.
Proof.
  revert ue. induction tr as [|[clk e] tr IH] using rev_ind; intros ue Hin.
  - destruct Hin.
  - rewrite state_after_app, state_after_cons, state_after_nil in Hin.
    rewrite registry_step in Hin. simpl snd in Hin.
    assert (Hold : In ue (connectedUsers (state_after initial tr)) ->
              online (snd ue) = true
              /\ exists ce, In ce (tr ++ [(clk, e)])%list /\ written_by ue ce).
    { intro H. destruct (IH ue H) as [H1 [ce [H2 H3]]]. split; [exact H1|].
      exists ce. split; [apply in_or_app; now left | exact H3]. }
    destruct e; simpl in Hin; try (now apply Hold).
    + apply in_set_cases in Hin. destruct Hin as [->|Hin]; [|now apply Hold].
      split; [reflexivity|]. exists (clk, JoinUser sid p).
      split; [apply in_or_app; right; now left|].
      exists p. simpl. auto.
    + destruct (first_held sid (connectedUsers (state_after initial tr)))
        as [[u x]|]; [|now apply Hold].
      apply in_delete in Hin. now apply Hold.
Qed.

(** Bob's entry after Ann's session. *)
Lemma presence_entries_come_from_joins_witness :
  In (JStr "B", joined_entry "s2" (Runs.join "B" "vendor" "Bob"))
     (connectedUsers (state_after initial Runs.ann_session))
  /\ online (joined_entry "s2" (Runs.join "B" "vendor" "Bob")) = true.
Proof.
  assert (H : In (JStr "B", joined_entry "s2" (Runs.join "B" "vendor" "Bob"))
                (connectedUsers (state_after initial Runs.ann_session))).
  { vm_compute. right. left. reflexivity. }
  split; [exact H|].
  exact (proj1 (presence_entries_come_from_joins Runs.ann_session _ H)).
Defined.

(** ** Rooms nobody joins *)

Lemma sockets_run (st : server) (tr : list (clock * event)) :
  sockets (state_after st tr)
  = fold_left sockets_next (map snd tr) (sockets st).
Proof.
  revert st. induction tr as [|ce tr IH]; intro st.
  - reflexivity.
  - rewrite state_after_cons, IH, sockets_step. reflexivity.
Qed.

Lemma sockets_next_outside (c : jsval) (clk : clock) (e : event)
  (socks : list socket) :
  avoids_room c (clk, e) = true ->
  forallb (fun s => negb (in_room c s)) socks = true ->
  forallb (fun s => negb (in_room c s)) (sockets_next socks e) = true.
Proof.
  intros Ha Hs. unfold avoids_room in Ha. simpl in Ha.
  destruct e; simpl; try exact Hs.
  - rewrite forallb_app, Hs. simpl. unfold in_room. simpl.
    apply negb_true_iff in Ha. now rewrite Ha.
  - apply andb_true_iff in Ha. destruct Ha as [A1 A2].
    apply negb_true_iff in A1, A2.
    apply forallb_forall. intros s' Hin. apply in_map_iff in Hin.
    destruct Hin as [s [<- Hin]].
    rewrite forallb_forall in Hs. specialize (Hs s Hin).
    destruct (String.eqb (id s) sid); [|exact Hs].
    unfold in_room in *. simpl. rewrite !in_room_add_room, A1, A2. simpl.
    apply negb_true_iff in Hs. rewrite Hs. reflexivity.
  - apply forallb_forall. intros s Hin. apply filter_In in Hin.
    rewrite forallb_forall in Hs. now apply Hs.
Qed.

(** X9.  The server puts a connection into three kinds of room only:
    the one named by its socket id, the personal channel of a join, and
    the role of a join.  If no connection and no join-user of a run
    brings in the room named [c], then in the state the run reaches no
    connection is in room [c], and whatever is addressed to it, the
    user-typing and user-stop-typing of a chat [c] or its message-read,
    is delivered to nobody. *)
Theorem unjoined_room_reaches_nobody (tr : list (clock * event)) (c : jsval) :
  forallb (avoids_room c) tr = true ->
  let st := state_after initial tr in
  forallb (fun s => negb (in_room c s)) (sockets st) = true
  /\ recipients (sockets st) (ToRoom c) = []
  /\ (forall sid, recipients (sockets st) (ToRoomExcept c sid) = [])
  /\ (forall clk sid p, field p "chatId" = c ->
        forall t ev d,
          In (t, ev, d)
             (emissions (snd (step st (clk, Typing sid p)))
              ++ emissions (snd (step st (clk, StopTyping sid p)))
              ++ emissions (snd (step st (clk, MarkRead sid p))))%list ->
          recipients (sockets st) t = []).
Proof.
  intros Ha st.
  assert (Hout : forallb (fun s => negb (in_room c s)) (sockets st) = true).
  { subst st. rewrite sockets_run. simpl sockets.
    assert (G : forall socks,
              forallb (fun s => negb (in_room c s)) socks = true ->
              forallb (fun s => negb (in_room c s))
                (fold_left sockets_next (map snd tr) socks) = true).
    { induction tr as [|[clk e] tr IH]; intros socks Hs; simpl in *.
      - exact Hs.
      - apply andb_true_iff in Ha. destruct Ha as [A1 A2].
        apply IH; [exact A2|]. now apply (sockets_next_outside c clk). }
    now apply G. }
  assert (Hroom : recipients (sockets st) (ToRoom c) = []).
  { simpl. induction (sockets st) as [|s l IH]; simpl in *; [reflexivity|].
    apply andb_true_iff in Hout. destruct Hout as [H1 H2].
    apply negb_true_iff in H1. rewrite H1. now apply IH. }
  assert (Hexc : forall sid, recipients (sockets st) (ToRoomExcept c sid) = []).
  { intro sid. simpl. clear Hroom.
    induction (sockets st) as [|s l IH]; simpl in *; [reflexivity|].
    apply andb_true_iff in Hout. destruct Hout as [H1 H2].
    apply negb_true_iff in H1. rewrite H1. simpl. now apply IH. }
  repeat split; try assumption.
  intros clk sid p Hp t ev d Hin.
  pose proof (step_session_events st clk sid p) as [T [S R]].
  rewrite T, S, R, Hp in Hin. simpl in Hin.
  destruct Hin as [H|[H|[H|[]]]]; injection H as <- _ _; auto.
Qed.

(** Ann and Bob are connected and joined; chat 1700000000000 is the
    name of no room. *)
Lemma unjoined_room_reaches_nobody_witness :
  forallb (avoids_room (JStr "1700000000000")) Runs.ann_session = true
  /\ recipients (sockets (state_after initial Runs.ann_session))
       (ToRoomExcept (JStr "1700000000000") "s1") = [].
Proof.
  split; [reflexivity|].
  exact (proj1 (proj2 (proj2
    (unjoined_room_reaches_nobody Runs.ann_session (JStr "1700000000000")
       eq_refl))) "s1").
Defined.

(** ** The route and the order emitters, with the handle present *)

Lemma join_puts_in_user_room (st : server) (clk : clock) (p : obj) (s : socket) :
  In s (sockets st) ->
  In (id s)
     (recipients (sockets (fst (step st (clk, JoinUser (id s) p))))
        (ToRoom (user_room (field p "userId")))).
Proof.
  intro Hs. apply recipients_room_member. exists (joined_socket p s).
  repeat split.
  - rewrite sockets_step. simpl. apply in_map_iff.
    exists s. now rewrite String.eqb_refl.
  - unfold in_room. simpl.
    apply in_room_add_room_mono, in_room_add_room_same.
Qed.

(** X10.  The route handler creates the instance on the first request,
    with an empty registry and one console line, and leaves an existing
    instance alone, with its registry and sockets and without a console
    line: after any number of further requests the process is as after
    the first. *)
Theorem ioHandler_keeps_instance (pr : Process.process) (n : nat) :
  let request := fun q => fst (exec Api.ioHandler q) in
  Nat.iter (S n) request pr = request pr
  /\ snd (exec Api.ioHandler (request pr)) = []
  /\ request pr
     = match Process.global_io pr with
       | Some st => {| Process.global_io := Some st |}
       | None => {| Process.global_io := Some initial |}
       end
  /\ snd (exec Api.ioHandler pr)
     = match Process.global_io pr with
       | Some _ => []
       | None => [ConsoleLog [LStr "🔄 Initializing Socket.IO server..."]]
       end.
Proof.
  intro request.
  assert (Hreq : forall q, request q
            = match Process.global_io q with
              | Some st => {| Process.global_io := Some st |}
              | None => {| Process.global_io := Some initial |}
              end).
  { intros [[st|]]; reflexivity. }
  assert (Hidem : forall q, request (request q) = request q).
  { intro q. rewrite (Hreq q). now destruct (Process.global_io q). }
  repeat split.
  - induction n as [|n IH]; [reflexivity|].
    change (Nat.iter (S (S n)) request pr)
      with (request (Nat.iter (S n) request pr)).
    now rewrite IH.
  - rewrite (Hreq pr). now destruct (Process.global_io pr).
  - apply Hreq.
  - now destruct pr as [[st|]].
Qed.

(** X11.  With the handle present [emitOrderCreated] never changes the
    process and never throws.  The vendor channel always gets
    order-created, so every connection that joined with role vendor
    receives it.  For an order that is there, the personal channel of
    its userId gets it too exactly when that userId is truthy, and
    nothing is logged.  For an absent order the vendor channel gets an
    undefined payload, then the failed read of the user id is caught and
    logged on the error console. *)
Theorem emitOrderCreated_with_handle (pr : Process.process) (st : server)
  (order : option obj) (v : socket) :
  Process.global_io pr = Some st ->
  In v (sockets st) -> in_room (JStr "vendor") v = true ->
  let outs := snd (exec (Process.emitOrderCreated order) pr) in
  fst (exec (Process.emitOrderCreated order) pr) = pr
  /\ In (id v) (recipients (sockets st) (ToRoom (JStr "vendor")))
  /\ emissions outs
     = (ToRoom (JStr "vendor"), "order-created", data_of_any order)
       :: match order with
          | Some o =>
              if truthy (field o "userId")
              then [(ToRoom (user_room (field o "userId")), "order-created",
                     DObj o)]
              else []
          | None => []
          end
  /\ console outs
     = match order with
       | Some _ => []
       | None => [ConsoleError [LStr "emitOrderCreated error"; LErr "TypeError"]]
       end.
Proof.
  intros Hio Hv Hr outs. subst outs.
  unfold exec, Process.emitOrderCreated, bind, read, ret. simpl. rewrite Hio.
  split; [|split].
  - destruct order as [o|]; simpl; [|reflexivity].
    now destruct (truthy (field o "userId")).
  - apply recipients_room_member. exists v. auto.
  - destruct order as [o|]; simpl; [|split; reflexivity].
    now destruct (truthy (field o "userId")).
Qed.

(** Bob (vendor) is connected when an order of client C is created. *)
Lemma emitOrderCreated_with_handle_witness :
  Process.global_io Runs.serving = Some Runs.ann_and_bob
  /\ In Runs.bob_socket (sockets Runs.ann_and_bob)
  /\ in_room (JStr "vendor") Runs.bob_socket = true
  /\ In "s2" (recipients (sockets Runs.ann_and_bob) (ToRoom (JStr "vendor"))).
Proof.
  assert (H1 : In Runs.bob_socket (sockets Runs.ann_and_bob)).
  { vm_compute. right. left. reflexivity. }
  split; [reflexivity|]. split; [exact H1|]. split; [reflexivity|].
  exact (proj1 (proj2
    (emitOrderCreated_with_handle Runs.serving Runs.ann_and_bob
       (Some Runs.shipped_order) Runs.bob_socket eq_refl H1 eq_refl))).
Defined.

(** X12.  [emitOrderUpdated] guards order-updated by the order's userId
    but not order-status-changed.  For an order with a truthy status and
    no userId it emits order-updated to the vendor channel only, and
    order-status-changed, with orderId taken from id or else _id, to the
    channel user-undefined.  A connection that sent join-user without a
    userId is in that channel and receives it. *)
Theorem status_change_without_user_id (st : server) (clk clk' : clock)
  (p o : obj) (s : socket) :
  In s (sockets st) ->
  field p "userId" = JUndefined ->
  field o "userId" = JUndefined ->
  truthy (field o "status") = true ->
  let st' := fst (step st (clk, JoinUser (id s) p)) in
  let outs := snd (exec (Process.emitOrderUpdated clk' (Some o))
                        {| Process.global_io := Some st' |}) in
  emissions outs
  = [(ToRoom (JStr "vendor"), "order-updated", DObj o);
     (ToRoom (JStr "user-undefined"), "order-status-changed",
      DObj [("orderId", js_or (field o "id") (field o "_id"));
            ("status", field o "status");
            ("timestamp", JStr (iso_string clk'))])]
  /\ In (id s) (recipients (sockets st') (ToRoom (JStr "user-undefined"))).
Proof.
  intros Hs Hp Ho Hst st' outs. split.
  - subst outs. unfold exec, Process.emitOrderUpdated, bind, read, ret. simpl.
    rewrite Ho, Hst. reflexivity.
  - pose proof (join_puts_in_user_room st clk p s Hs) as H.
    rewrite Hp in H. exact H.
Qed.

(** Bob's connection joins again with an empty payload; an order
    without userId is marked shipped. *)
Lemma status_change_without_user_id_witness :
  In Runs.bob_socket (sockets Runs.ann_and_bob)
  /\ field [] "userId" = JUndefined
  /\ field [("id", JStr "o9"); ("status", JStr "shipped")] "userId" = JUndefined
  /\ truthy (field [("id", JStr "o9"); ("status", JStr "shipped")] "status") = true
  /\ In "s2" (recipients
               (sockets (fst (step Runs.ann_and_bob (Runs.clk0, JoinUser "s2" []))))
               (ToRoom (JStr "user-undefined"))).
Proof.
  assert (H1 : In Runs.bob_socket (sockets Runs.ann_and_bob)).
  { vm_compute. right. left. reflexivity. }
  split; [exact H1|]. repeat (split; [reflexivity|]).
  exact (proj2
    (status_change_without_user_id Runs.ann_and_bob Runs.clk0 Runs.clk0 []
       [("id", JStr "o9"); ("status", JStr "shipped")] Runs.bob_socket
       H1 eq_refl eq_refl eq_refl)).
Defined.

(* ================================================================== *)
(** * Properties of the pages *)
(* ================================================================== *)

(** ** Object literals *)

Import Objects.

Lemma strict_equal_eq (a b : jsval) : strict_equal a b = true <-> a = b.
Proof. apply same_value_zero_eq. Qed.

Lemma field_assign (o : obj) (k k' : string) (v : jsval) :
  field (assign k v o) k' = if String.eqb k' k then v else field o k'.
Proof.
  induction o as [|[k0 v0] o IH]; simpl.
  - reflexivity.
  - destruct (String.eqb k k0) eqn:E; simpl.
    + apply String.eqb_eq in E. subst k0.
      now destruct (String.eqb k' k).
    + rewrite IH. destruct (String.eqb k' k0) eqn:E0; [|reflexivity].
      apply String.eqb_eq in E0. subst k0.
      rewrite String.eqb_sym, E. reflexivity.
Qed.

Lemma has_own_in (o : obj) (k : string) :
  has_own o k = true <-> In k (map fst o).
Proof.
  unfold has_own. rewrite existsb_exists. split.
  - intros [[k0 v0] [H1 H2]]. simpl in H2. apply String.eqb_eq in H2. subst k0.
    change k with (fst (k, v0)). now apply in_map.
  - intro H. apply in_map_iff in H. destruct H as [[k0 v0] [H1 H2]].
    simpl in H1. subst k0. exists (k, v0). split; [exact H2|].
    apply String.eqb_refl.
Qed.

Lemma field_spread (base extra : obj) (k : string) :
  NoDup (map fst extra) ->
  field (spread base extra) k
  = if has_own extra k then field extra k else field base k.
Proof.
  unfold spread. revert base.
  induction extra as [|[k0 v0] extra IH]; intros base Hnd; simpl.
  - reflexivity.
  - inversion Hnd as [|? ? Hn Hd]; subst.
    rewrite IH by exact Hd. unfold has_own at 2. simpl.
    fold (has_own extra k). rewrite field_assign.
    destruct (String.eqb k k0) eqn:E; simpl; [|reflexivity].
    apply String.eqb_eq in E. subst k0.
    destruct (has_own extra k) eqn:H; [|reflexivity].
    apply has_own_in in H. contradiction.
Qed.

(** ** The chat page *)

(** X13.  What the chat page makes of the server's receive-message.
    For every viewer and chat session the message built from the
    server's record carries the id the server generated, never the
    page's own fallback id, and the record's chatId, message, senderId
    and recipientId; its timestamp is the server's unless that is the
    empty string; it counts as read exactly when the viewer is the
    sender.  Without a session user nothing is built. *)
Theorem realtime_message_of_server_record (browser_clk clk : clock)
  (u : ChatPage.SessionUser) (cs : ChatPage.ChatSession) (p : obj) :
  ChatPage.buildRealtimeMessage browser_clk None (fullMessage clk p) cs = None
  /\ exists m,
       ChatPage.buildRealtimeMessage browser_clk (Some u) (fullMessage clk p) cs
       = Some m
       /\ ChatPage.id m
          = JStr ("msg-" ++ decimal (date_now clk) ++ "-"
                    ++ substr (random_base36 clk) 2 9)
       /\ ChatPage.id m <> JStr ("socket-" ++ decimal (date_now browser_clk))
       /\ (ChatPage.chatId m, ChatPage.message m, ChatPage.senderId m,
           ChatPage.recipientId m)
          = (field p "chatId", field p "message", field p "senderId",
             field p "recipientId")
       /\ ChatPage.timestamp m
          = (if String.eqb (iso_string clk) ""
             then JStr (iso_string browser_clk) else JStr (iso_string clk))
       /\ ChatPage.read m
          = strict_equal (field p "senderId") (ChatPage.user_id u).
Proof.
  split; [reflexivity|]. eexists. split; [reflexivity|]. simpl.
  repeat split.
  - discriminate.
  - unfold Client.buildRealtimeMessage_timestamp, js_or. simpl.
    now destruct (String.eqb (iso_string clk) "").
Qed.

(** X14.  A receive-message never alters or drops the messages shown:
    the new list is the old one with at most one message added at the
    end.  One is added exactly when a session is selected whose id is
    the payload's chatId (and there is a session user); a message of
    another chat is never added. *)
Theorem receive_message_appends (browser_clk : clock)
  (user : option ChatPage.SessionUser) (active : option ChatPage.ChatSession)
  (payload : obj) (prev : list ChatPage.Message) :
  let next := ChatPage.handleReceiveMessage browser_clk user active payload prev in
  let shown :=
    match user, active with
    | Some _, Some a =>
        strict_equal (ChatPage.session_id a) (field payload "chatId")
    | _, _ => false
    end in
  exists extra,
    next = (prev ++ extra)%list
    /\ length extra = (if shown then 1 else 0)
    /\ forall m, In m extra ->
         ChatPage.chatId m = field payload "chatId"
         /\ ChatPage.chatId m = ChatPage.selected_id active.
Proof.
  intros next shown. subst next shown.
  unfold ChatPage.handleReceiveMessage.
  destruct active as [a|].
  - destruct (strict_equal (ChatPage.session_id a) (field payload "chatId")) eqn:E.
    + destruct user as [u|]; simpl.
      * eexists [_]. split; [reflexivity|]. split; [reflexivity|].
        intros m0 Hm. destruct Hm as [Hm|[]]. subst m0. simpl.
        split; [reflexivity|].
        apply strict_equal_eq in E. now rewrite E.
      * exists []. rewrite app_nil_r. split; [reflexivity|].
        split; [reflexivity|]. intros ? [].
    + exists []. rewrite app_nil_r.
      destruct user; (split; [reflexivity|]; split; [reflexivity|]; intros ? []).
  - exists []. rewrite app_nil_r.
    destruct user; (split; [reflexivity|]; split; [reflexivity|]; intros ? []).
Qed.

Lemma mark_read_idempotent (m : ChatPage.Message) :
  ChatPage.mark_read (ChatPage.mark_read m) = ChatPage.mark_read m.
Proof. reflexivity. Qed.

(** X15.  A message-read for the selected chat marks as read every
    message whose id is the payload's messageId and changes nothing
    else: the list keeps its length and order, every message keeps all
    its other fields, no message becomes unread, and handling the same
    payload again changes nothing.  A message-read for another chat
    leaves the list as it is. *)
Theorem message_read_marks_matching (selected : option ChatPage.ChatSession)
  (payload : obj) (prev : list ChatPage.Message) :
  let next := ChatPage.handleMessageRead selected payload prev in
  let for_this_chat :=
    strict_equal (ChatPage.selected_id selected) (field payload "chatId") in
  Forall2 (fun m m' =>
             m' = (if for_this_chat
                      && strict_equal (ChatPage.id m) (field payload "messageId")
                   then ChatPage.mark_read m else m))
          prev next
  /\ length next = length prev
  /\ ChatPage.handleMessageRead selected payload next = next
  /\ (for_this_chat = false -> next = prev).
Proof.
  intros next for_this_chat. subst next for_this_chat.
  unfold ChatPage.handleMessageRead, strict_unequal.
  destruct (strict_equal (ChatPage.selected_id selected) (field payload "chatId"));
    simpl.
  - repeat split.
    + induction prev as [|m prev IH]; simpl; constructor; auto.
    + apply length_map.
    + rewrite map_map. apply map_ext. intro m.
      destruct (strict_equal (ChatPage.id m) (field payload "messageId")) eqn:E;
        simpl; now rewrite E.
    + discriminate.
  - repeat split.
    induction prev as [|m prev IH]; constructor; auto.
Qed.

(** ** Read receipts, there and back *)

Section ReadReceipts.
Variables (u : ChatPage.SessionUser) (sel : ChatPage.ChatSession).

Lemma effect_reports_unsettled (msgs : list ChatPage.Message) :
  ChatPage.markReadEffect (Some u) (Some sel) true msgs
  = map (fun m => [("chatId", ChatPage.session_id sel);
                   ("messageId", ChatPage.id m);
                   ("userId", ChatPage.user_id u)])
        (filter (fun m => negb (ChatPage.settled u m)) msgs).
Proof.
  unfold ChatPage.markReadEffect, ChatPage.settled, strict_unequal.
  assert (E : forall l : list ChatPage.Message,
            filter (fun msg => negb (ChatPage.read msg)
                      && negb (strict_equal (ChatPage.senderId msg)
                                 (ChatPage.user_id u))) l
            = filter (fun m => negb (ChatPage.read m
                        || strict_equal (ChatPage.senderId m)
                             (ChatPage.user_id u))) l).
  { intro l. apply filter_ext. intro m. now rewrite negb_orb. }
  rewrite E.
  destruct (filter _ msgs) as [|m l]; reflexivity.
Qed.

Lemma filter_all_settled (l : list ChatPage.Message) :
  (forall m, In m l -> ChatPage.settled u m = true) ->
  filter (fun m => negb (ChatPage.settled u m)) l = [].
Proof.
  induction l as [|m l IH]; simpl; intro H; [reflexivity|].
  rewrite (H m (or_introl eq_refl)). simpl. apply IH.
  intros m' Hm'. apply H. now right.
Qed.

Lemma message_read_echo (st : server) (clk : clock) (sid : string) (q : obj) :
  ChatPage.message_read_of st clk sid q
  = [("chatId", field q "chatId"); ("messageId", field q "messageId");
     ("userId", field q "userId")].
Proof.
  unfold ChatPage.message_read_of.
  now rewrite (proj2 (proj2 (step_session_events st clk sid q))).
Qed.

Lemma settle_round (st : server) (clk : clock) (sid : string)
  (todo : list ChatPage.Message) (msgs : list ChatPage.Message) :
  (forall m, In m msgs ->
     ChatPage.settled u m = true \/ In (ChatPage.id m) (map ChatPage.id todo)) ->
  let payloads :=
    map (fun m => [("chatId", ChatPage.session_id sel);
                   ("messageId", ChatPage.id m);
                   ("userId", ChatPage.user_id u)]) todo in
  let after :=
    fold_left (fun acc q =>
                 ChatPage.handleMessageRead (Some sel)
                   (ChatPage.message_read_of st clk sid q) acc)
              payloads msgs in
  length after = length msgs
  /\ forall m, In m after -> ChatPage.settled u m = true.
Proof.
  revert msgs. induction todo as [|t todo IH]; intros msgs H; simpl.
  - split; [reflexivity|]. intros m Hm. destruct (H m Hm) as [?|[]]. assumption.
  - rewrite message_read_echo. simpl.
    unfold ChatPage.handleMessageRead at 2 4. simpl.
    unfold strict_unequal, strict_equal. rewrite same_value_zero_refl. simpl.
    set (msgs1 := map _ msgs).
    destruct (IH msgs1) as [L A].
    + intros m Hm. subst msgs1. apply in_map_iff in Hm.
      destruct Hm as [m0 [Hm0 Hin]].
      destruct (same_value_zero (ChatPage.id m0) (ChatPage.id t)) eqn:E.
      * subst m. left. reflexivity.
      * subst m. destruct (H m0 Hin) as [Hs|[Hi|Hi]]; auto.
        apply same_value_zero_neq in E. congruence.
    + split; [|exact A]. simpl in L. rewrite L. subst msgs1. apply length_map.
Qed.

End ReadReceipts.

(** X16.  Read receipts settle.  With a session selected and a socket,
    the effect emits one mark-read per message that is unread and not
    sent by the viewer, with that message's id, the selected chat's id
    and the viewer's id, and none for any other message.  Once the
    server's message-read for each of them has been handled by the
    page, the list has the same length and the effect has nothing left
    to emit. *)
Theorem read_receipts_settle (st : server) (clk : clock) (sid : string)
  (u : ChatPage.SessionUser) (sel : ChatPage.ChatSession)
  (msgs : list ChatPage.Message) :
  let unread := filter (fun m => negb (ChatPage.settled u m)) msgs in
  let emitted := ChatPage.markReadEffect (Some u) (Some sel) true msgs in
  let after :=
    fold_left (fun acc q =>
                 ChatPage.handleMessageRead (Some sel)
                   (ChatPage.message_read_of st clk sid q) acc)
              emitted msgs in
  emitted = map (fun m => [("chatId", ChatPage.session_id sel);
                           ("messageId", ChatPage.id m);
                           ("userId", ChatPage.user_id u)]) unread
  /\ length after = length msgs
  /\ ChatPage.markReadEffect (Some u) (Some sel) true after = []
  /\ ChatPage.markReadEffect None (Some sel) true msgs = []
  /\ ChatPage.markReadEffect (Some u) None true msgs = []
  /\ ChatPage.markReadEffect (Some u) (Some sel) false msgs = [].
Proof.
  intros unread emitted after.
  assert (E : emitted = map (fun m => [("chatId", ChatPage.session_id sel);
                                       ("messageId", ChatPage.id m);
                                       ("userId", ChatPage.user_id u)]) unread)
    by apply effect_reports_unsettled.
  split; [exact E|].
  destruct (settle_round u sel st clk sid unread msgs) as [L A].
  { intros m Hm. destruct (ChatPage.settled u m) eqn:S; [now left|]. right.
    apply in_map. apply filter_In. split; [exact Hm|]. now rewrite S. }
  fold emitted in E. subst after. rewrite E.
  split; [exact L|]. split.
  - rewrite effect_reports_unsettled.
    now rewrite (filter_all_settled _ _ A).
  - repeat split.
    + unfold ChatPage.markReadEffect. now rewrite andb_false_r.
Qed.

(** ** Order lists *)

(** X17.  On the orders page an order-status-changed updates the orders
    whose _id is the payload's orderId and no other: such an order gets
    the payload's status and timestamp as status and updatedAt and
    keeps every other field; all other orders, and the length and order
    of the list, stay as they are.  When no order has that _id the list
    is unchanged. *)
Theorem status_changed_updates_matching (payload : obj) (prev : list obj) :
  let next := OrderLists.orders_on_order_status_changed payload prev in
  Forall2 (fun o o' =>
             if strict_equal (field o "_id") (field payload "orderId")
             then field o' "status" = field payload "status"
                  /\ field o' "updatedAt" = field payload "timestamp"
                  /\ forall k, k <> "status" -> k <> "updatedAt" ->
                       field o' k = field o k
             else o' = o)
          prev next
  /\ length next = length prev
  /\ (forallb (fun o => negb (strict_equal (field o "_id")
                                (field payload "orderId"))) prev = true ->
      next = prev).
Proof.
  intro next. subst next. unfold OrderLists.orders_on_order_status_changed.
  repeat split.
  - induction prev as [|o prev IH]; simpl; constructor; [|exact IH].
    destruct (strict_equal (field o "_id") (field payload "orderId"));
      [|reflexivity].
    rewrite !field_assign. simpl. repeat split.
    intros k H1 H2. rewrite !field_assign.
    apply String.eqb_neq in H1, H2. now rewrite H1, H2.
  - apply length_map.
  - intro H. induction prev as [|o prev IH]; simpl in *; [reflexivity|].
    apply andb_true_iff in H. destruct H as [H1 H2].
    apply negb_true_iff in H1. rewrite H1. now rewrite IH.
Qed.

(** The store's order o1 is listed with _id o1; it is marked shipped. *)
Lemma status_changed_updates_matching_witness :
  forallb (fun o => negb (strict_equal (field o "_id") (JStr "o7")))
    [[("_id", JStr "o1"); ("status", JStr "pending")]] = true
  /\ OrderLists.orders_on_order_status_changed
       [("orderId", JStr "o7"); ("status", JStr "shipped")]
       [[("_id", JStr "o1"); ("status", JStr "pending")]]
     = [[("_id", JStr "o1"); ("status", JStr "pending")]].
Proof.
  split; [reflexivity|].
  exact (proj2 (proj2
    (status_changed_updates_matching
       [("orderId", JStr "o7"); ("status", JStr "shipped")]
       [[("_id", JStr "o1"); ("status", JStr "pending")]])) eq_refl).
Defined.

(** X18.  On the orders page an order-updated merges the update into
    the listed orders it matches and leaves the others, and the length
    and order of the list, alone: an order matches when its _id is the
    update's _id, or the update's id when that _id is missing or
    falsy; in a matched order every property of the update has the
    update's value and every other property keeps its value.  An
    order-created is put first when its userId is the viewer's and is
    dropped otherwise. *)
Theorem order_updated_merges (viewer : jsval) (update : obj) (prev : list obj) :
  NoDup (map fst update) ->
  Forall2 (fun o o' =>
             if strict_equal (field o "_id")
                  (js_or (field update "_id") (field update "id"))
             then forall k, field o' k
                            = if has_own update k then field update k
                              else field o k
             else o' = o)
          prev (OrderLists.orders_on_order_updated update prev)
  /\ OrderLists.orders_on_order_created viewer update prev
     = (if strict_equal (field update "userId") viewer
        then update :: prev else prev).
Proof.
  intros Hnd. split; [|reflexivity].
  unfold OrderLists.orders_on_order_updated.
  induction prev as [|o prev IH]; simpl; constructor; [|exact IH].
  destruct (strict_equal (field o "_id") _); [|reflexivity].
  intro k. now apply field_spread.
Qed.

(** Client C lists the orders o1 and o2, both pending; the update says
    that o1 has been shipped: o1 takes the status and keeps its total,
    o2 stays as it is. *)
Lemma order_updated_merges_witness :
  let update := [("id", JStr "o1"); ("userId", JStr "C");
                 ("status", JStr "shipped")] in
  let o1 := [("_id", JStr "o1"); ("status", JStr "pending");
             ("total", JNum 30)] in
  let o2 := [("_id", JStr "o2"); ("status", JStr "pending");
             ("total", JNum 12)] in
  NoDup (map fst update)
  /\ (exists o1',
        OrderLists.orders_on_order_updated update [o1; o2] = [o1'; o2]
        /\ field o1' "status" = JStr "shipped"
        /\ field o1' "total" = JNum 30
        /\ field o1' "_id" = JStr "o1")
  /\ OrderLists.orders_on_order_created (JStr "C") update [o1; o2]
     = [update; o1; o2].
Proof.
  intros update o1 o2.
  assert (H : NoDup (map fst update)).
  { repeat constructor; simpl; intuition discriminate. }
  split; [exact H|].
  destruct (order_updated_merges (JStr "C") update [o1; o2] H) as [M C].
  split; [|exact C].
  exists (hd [] (OrderLists.orders_on_order_updated update [o1; o2])).
  split; [reflexivity|].
  apply Forall2_cons_iff in M. destruct M as [M _].
  change (forall k,
            field (hd [] (OrderLists.orders_on_order_updated update [o1; o2])) k
            = if has_own update k then field update k else field o1 k) in M.
  split; [exact (M "status")|]. split; [exact (M "total") | exact (M "_id")].
Defined.

(** ** Browser notifications *)

(** X19.  [requestNotificationPermission] answers true exactly when,
    after the call, the page has a window and the permission is
    granted.  It asks the user exactly when there is a window and the
    permission is still default, and then takes the user's answer as
    the permission; in every other case the browser is left as it was.
    Without a window it does nothing.  With a window but without the
    Notification API it answers false and writes one warning,
    Notification permission request failed: with the ReferenceError,
    and it warns in no other case; it never creates a notification.
    When it has answered true, a second call answers true without
    asking, and [showBrowserNotification] without options then creates
    one notification with the site's icon and badge, or, where the
    constructor throws, none and the warning Browser notification
    failed: with the error. *)
Theorem notification_permission (b : Notifications.browser)
  (answer : Notifications.permission) (title : string) :
  let '(ok, b', effects) := Notifications.requestNotificationPermission b answer in
  let warning :=
    Notifications.Warn [LStr "Notification permission request failed:";
                        LErr "ReferenceError"] in
  (ok = true <->
     Notifications.window b' = true
     /\ Notifications.notification b' = Some Notifications.granted)
  /\ (Notifications.window b = true
      /\ Notifications.notification b = Some Notifications.default ->
      effects = [Notifications.RequestPermission]
      /\ b' = {| Notifications.window := true;
                 Notifications.notification := Some answer |})
  /\ (Notifications.window b = true /\ Notifications.notification b = None ->
      ok = false /\ b' = b /\ effects = [warning])
  /\ (Notifications.window b = true
      /\ Notifications.notification b <> Some Notifications.default
      /\ Notifications.notification b <> None ->
      b' = b /\ effects = [])
  /\ (Notifications.window b = false -> ok = false /\ b' = b /\ effects = [])
  /\ (In Notifications.RequestPermission effects ->
      Notifications.window b = true
      /\ Notifications.notification b = Some Notifications.default)
  /\ (forall args, In (Notifications.Warn args) effects ->
      Notifications.Warn args = warning
      /\ Notifications.window b = true /\ Notifications.notification b = None)
  /\ (forall t o, ~ In (Notifications.NewNotification t o) effects)
  /\ (ok = true ->
        Notifications.requestNotificationPermission b' answer = (true, b', [])
        /\ Notifications.showBrowserNotification b' None title None
           = [Notifications.NewNotification title
                [("icon", JStr "/images/vape4you-icon.png");
                 ("badge", JStr "/images/vape4you-badge.png")]]
        /\ forall e,
             Notifications.showBrowserNotification b' (Some e) title None
             = [Notifications.Warn [LStr "Browser notification failed:";
                                    LErr e]]).
Proof.
  destruct b as [[|] [[| |]|]]; destruct answer; simpl;
    repeat match goal with |- _ /\ _ => split end;
    try (intros; intuition (try discriminate; try congruence); fail);
    try (intros args [H|[]]; now rewrite <- H);
    try (intros t o [H|[]]; discriminate H);
    try (intros t o []).
Qed.

(** X20.  [showBrowserNotification] does something only with a window,
    the Notification API and a granted permission.  Then, when the
    constructor returns, it creates exactly one notification, with the
    given title; its options are the caller's over the defaults for
    icon and badge: every property the caller gives has the caller's
    value, icon and badge fall back to the site's images when the
    caller leaves them out, and nothing else is added.  When the
    constructor throws, no notification is created and the error is
    reported in one warning, Browser notification failed:. *)
Theorem notification_options_override (b : Notifications.browser)
  (thrown : option string) (title : string) (options : obj) :
  NoDup (map fst options) ->
  let shown :=
    Notifications.showBrowserNotification b thrown title (Some options) in
  let allowed :=
    Notifications.window b
    && match Notifications.notification b with
       | Some Notifications.granted => true
       | _ => false
       end in
  (allowed = false -> shown = [])
  /\ (allowed = true -> forall e, thrown = Some e ->
      shown = [Notifications.Warn [LStr "Browser notification failed:";
                                   LErr e]])
  /\ (allowed = true -> thrown = None ->
      exists o,
        shown = [Notifications.NewNotification title o]
        /\ forall k,
             field o k
             = if has_own options k then field options k
               else if String.eqb k "icon" then JStr "/images/vape4you-icon.png"
               else if String.eqb k "badge" then JStr "/images/vape4you-badge.png"
               else JUndefined).
Proof.
  intros Hnd shown allowed. subst shown allowed.
  unfold Notifications.showBrowserNotification.
  destruct (Notifications.window b); simpl.
  - destruct (Notifications.notification b) as [[| |]|]; simpl;
      (split; [|split]); try discriminate; try reflexivity.
    + intros _ e ->. reflexivity.
    + intros _ ->. eexists. split; [reflexivity|]. intro k.
      rewrite field_spread by exact Hnd. simpl.
      now destruct (String.eqb k "icon"), (String.eqb k "badge").
  - split; [reflexivity|]. split; discriminate.
Qed.

(** A chat notification with a body and its own icon, permission
    granted: one notification, with the caller's icon and body and the
    site's badge. *)
Lemma notification_options_override_witness :
  let b := {| Notifications.window := true;
              Notifications.notification := Some Notifications.granted |} in
  let options := [("body", JStr "New message"); ("icon", JStr "/chat.png")] in
  NoDup (map fst options)
  /\ exists o,
       Notifications.showBrowserNotification b None "Vape4You" (Some options)
       = [Notifications.NewNotification "Vape4You" o]
       /\ field o "icon" = JStr "/chat.png"
       /\ field o "body" = JStr "New message"
       /\ field o "badge" = JStr "/images/vape4you-badge.png"
       /\ field o "tag" = JUndefined.
Proof.
  intros b options.
  assert (H : NoDup (map fst options)).
  { repeat constructor; simpl; intuition discriminate. }
  split; [exact H|].
  destruct (notification_options_override b None "Vape4You" options H)
    as [_ [_ N]].
  destruct (N eq_refl eq_refl) as [o [E F]].
  exists o. split; [exact E|].
  split; [exact (F "icon")|]. split; [exact (F "body")|].
  split; [exact (F "badge") | exact (F "tag")].
Defined.

(** ** The client adapter and the registry *)

Lemma useSocket_join_some (o : Client.UseSocketOptions) (p : obj) :
  Client.useSocket_join o = Some p ->
  p = [("userId", Client.userId o); ("role", Client.userRole o);
       ("name", Client.userName o)]
  /\ truthy (Client.userId o) = true
  /\ truthy (Client.userName o) = true
  /\ truthy (Client.userRole o) = true.
Proof.
  unfold Client.useSocket_join.
  destruct (truthy (Client.userId o)), (truthy (Client.userName o)),
    (truthy (Client.userRole o)); simpl; try discriminate.
  intro H. injection H as <-. auto.
Qed.

(** X21.  [useSocket] announces an identity only when user id, name and
    role are all truthy.  The join-user it then sends, processed on any
    connection after any run, registers exactly that identity: the
    registry maps the adapter's user id to this connection with the
    adapter's role and name, the user-online broadcast carries the
    three values, and all three are non-empty. *)
Theorem useSocket_join_registers (o : Client.UseSocketOptions) (p : obj)
  (tr : list (clock * event)) (clk : clock) (sid : string) :
  Client.useSocket_join o = Some p ->
  let before := state_after initial tr in
  let entry := {| socketId := sid; role := Client.userRole o;
                  name := Client.userName o; online := true |} in
  JsMap.get (Client.userId o)
    (connectedUsers (fst (step before (clk, JoinUser sid p)))) = Some entry
  /\ emissions (snd (step before (clk, JoinUser sid p)))
     = [user_online (Client.userId o) (Client.userRole o) (Client.userName o)]
  /\ presence_nonempty (Client.userId o, entry) = true
  /\ truthy (Client.userId o) && truthy (Client.userName o)
     && truthy (Client.userRole o) = true.
Proof.
  intros H before entry.
  destruct (useSocket_join_some o p H) as [-> [E1 [E2 E3]]].
  split; [|split; [|split]].
  - rewrite registry_step. simpl. apply get_set_same.
  - apply step_join.
  - unfold presence_nonempty. simpl.
    now rewrite (truthy_nonempty _ E1), (truthy_nonempty _ E2),
      (truthy_nonempty _ E3).
  - now rewrite E1, E2, E3.
Qed.

(** The adapter of Ann's chat page connects as s1. *)
Lemma useSocket_join_registers_witness :
  Client.useSocket_join
    {| Client.userId := JStr "A"; Client.userName := JStr "Ann";
       Client.userRole := JStr "client" |}
  = Some (Runs.join "A" "client" "Ann")
  /\ JsMap.get (JStr "A")
       (connectedUsers
          (fst (step (state_after initial [Runs.at0 (Connection "s1")])
                  (Runs.clk0, JoinUser "s1" (Runs.join "A" "client" "Ann")))))
     = Some {| socketId := "s1"; role := JStr "client"; name := JStr "Ann";
               online := true |}.
Proof.
  split; [reflexivity|].
  exact (proj1
    (useSocket_join_registers
       {| Client.userId := JStr "A"; Client.userName := JStr "Ann";
          Client.userRole := JStr "client" |}
       (Runs.join "A" "client" "Ann") [Runs.at0 (Connection "s1")]
       Runs.clk0 "s1" eq_refl)).
Defined.

(* ================================================================== *)
(** * Properties of the store *)
(* ================================================================== *)

Section StoreFacts.
Context {Details : Type}.
Implicit Types (db : LocalDb.DB Details).

Lemma find_of_in {A : Type} (f : A -> bool) (l : list A) (x : A) :
  In x l -> f x = true -> exists y, find f l = Some y.
Proof.
  induction l as [|a l IH]; simpl; [tauto|].
  intros [->|H] Hx.
  - rewrite Hx. eauto.
  - destruct (f a); eauto.
Qed.

Lemma find_update_first {A : Type} (p : A -> bool) (f : A -> A) (l : list A) :
  (forall x, p (f x) = p x) ->
  find p (LocalDb.update_first p f l) = option_map f (find p l).
Proof.
  intro H. induction l as [|a l IH]; simpl; [reflexivity|].
  destruct (p a) eqn:E; simpl.
  - now rewrite H, E.
  - now rewrite E.
Qed.

Lemma find_update_first_other {A : Type} (p q : A -> bool) (f : A -> A)
  (l : list A) :
  (forall x, q (f x) = q x) ->
  (forall x, p x = true -> q x = false) ->
  find q (LocalDb.update_first p f l) = find q l.
Proof.
  intros H1 H2. induction l as [|a l IH]; simpl; [reflexivity|].
  destruct (p a) eqn:E; simpl.
  - rewrite H1, (H2 a E). reflexivity.
  - destruct (q a); [reflexivity | exact IH].
Qed.

Lemma map_update_first {A B : Type} (g : A -> B) (p : A -> bool) (f : A -> A)
  (l : list A) :
  (forall x, g (f x) = g x) ->
  map g (LocalDb.update_first p f l) = map g l.
Proof.
  intro H. induction l as [|a l IH]; simpl; [reflexivity|].
  destruct (p a); simpl; [now rewrite H | now rewrite IH].
Qed.

Lemma length_update_first {A : Type} (p : A -> bool) (f : A -> A) (l : list A) :
  length (LocalDb.update_first p f l) = length l.
Proof.
  induction l as [|a l IH]; simpl; [reflexivity|].
  destruct (p a); simpl; congruence.
Qed.

Lemma update_first_none {A : Type} (p : A -> bool) (f : A -> A) (l : list A) :
  find p l = None -> LocalDb.update_first p f l = l.
Proof.
  induction l as [|a l IH]; simpl; [reflexivity|].
  destruct (p a); [discriminate|]. intro H. now rewrite IH.
Qed.

Lemma find_app_none {A : Type} (p : A -> bool) (l : list A) (x : A) :
  find p l = None -> find p (l ++ [x]) = if p x then Some x else None.
Proof.
  induction l as [|a l IH]; simpl; [reflexivity|].
  destruct (p a); [discriminate | exact IH].
Qed.

Lemma find_app_some {A : Type} (p : A -> bool) (l l' : list A) (y : A) :
  find p l = Some y -> find p (l ++ l') = Some y.
Proof.
  induction l as [|a l IH]; simpl; [discriminate|].
  destruct (p a); [tauto | exact IH].
Qed.

Lemma role_eqb_eq (a b : LocalDb.Role) : LocalDb.role_eqb a b = true <-> a = b.
Proof. destruct a, b; simpl; split; congruence. Qed.

Lemma same_pair_record_message (v c message ts : string) (r : LocalDb.Role)
  (s : LocalDb.Session.t) :
  LocalDb.same_pair v c (LocalDb.record_message message ts r s)
  = LocalDb.same_pair v c s.
Proof. reflexivity. Qed.

(** What [createChatSession] does, case by case. *)
Lemma createChatSession_cases (clk : clock) (v c : string) db :
  (exists e, LocalDb.createChatSession clk v c db = (LocalDb.Thrown e, db)
             /\ (LocalDb.find_user_with_role db v LocalDb.vendor = None
                 \/ LocalDb.find_user_with_role db c LocalDb.client = None))
  \/ (exists s, LocalDb.createChatSession clk v c db = (LocalDb.Returned s, db)
                /\ LocalDb.session_of v c db = Some s)
  \/ (exists s, LocalDb.createChatSession clk v c db
                = (LocalDb.Returned s,
                   {| LocalDb.users := LocalDb.users db;
                      LocalDb.chatMessages := LocalDb.chatMessages db;
                      LocalDb.chatSessions := (LocalDb.chatSessions db ++ [s])%list;
                      LocalDb.orders := LocalDb.orders db |})
                /\ LocalDb.session_of v c db = None
                /\ LocalDb.same_pair v c s = true
                /\ LocalDb.Session.id s = decimal (date_now clk)
                /\ LocalDb.unread LocalDb.vendor s = 0%Z
                /\ LocalDb.unread LocalDb.client s = 0%Z).
Proof.
  unfold LocalDb.createChatSession, LocalDb.session_of.
  destruct (LocalDb.find_user_with_role db v LocalDb.vendor) as [uv|];
    [|left; eauto].
  destruct (LocalDb.find_user_with_role db c LocalDb.client) as [uc|];
    [|left; eauto].
  destruct (find (LocalDb.same_pair v c) (LocalDb.chatSessions db)) as [s|].
  - right. left. eauto.
  - right. right. eexists. split; [reflexivity|]. split; [reflexivity|].
    unfold LocalDb.same_pair. simpl. rewrite !String.eqb_refl. auto.
Qed.

End StoreFacts.

Section StoreChat.
Context {Details : Type}.
Implicit Types (db : LocalDb.DB Details).

Lemma find_user_with_role_found db (a : string) (u : LocalDb.User.t) :
  LocalDb.find_user db a = Some u ->
  exists w, LocalDb.find_user_with_role db a (LocalDb.User.role u) = Some w.
Proof.
  unfold LocalDb.find_user, LocalDb.find_user_with_role. intro H.
  apply find_some in H. destruct H as [H1 H2].
  apply (find_of_in _ _ u H1). rewrite H2. simpl.
  now apply role_eqb_eq.
Qed.

(** The vendor and the client of a sender and a recipient. *)
Lemma createChatSession_in_sendMessage (clk : clock) db
  (a b : string) (s r : LocalDb.User.t) :
  LocalDb.find_user db a = Some s ->
  LocalDb.find_user db b = Some r ->
  LocalDb.User.role s <> LocalDb.User.role r ->
  let v := if LocalDb.role_eqb (LocalDb.User.role s) LocalDb.vendor then a else b in
  let c := if LocalDb.role_eqb (LocalDb.User.role s) LocalDb.client then a else b in
  exists sess db1,
    LocalDb.createChatSession clk v c db = (LocalDb.Returned sess, db1)
    /\ LocalDb.users db1 = LocalDb.users db
    /\ LocalDb.chatMessages db1 = LocalDb.chatMessages db
    /\ LocalDb.orders db1 = LocalDb.orders db
    /\ LocalDb.session_of v c db1 = Some sess
    /\ (forall ro, LocalDb.unread ro sess
                   = match LocalDb.session_of v c db with
                     | Some s0 => LocalDb.unread ro s0
                     | None => 0%Z
                     end).
Proof.
  intros Hs Hr Hne v c.
  destruct (find_user_with_role_found db a s Hs) as [ws Hws].
  destruct (find_user_with_role_found db b r Hr) as [wr Hwr].
  assert (Hv : LocalDb.find_user_with_role db v LocalDb.vendor <> None
               /\ LocalDb.find_user_with_role db c LocalDb.client <> None).
  { subst v c. destruct (LocalDb.User.role s), (LocalDb.User.role r);
      simpl; try congruence; split; congruence. }
  destruct (createChatSession_cases clk v c db)
    as [[e [_ [H|H]]] | [[sess [E F]] | [sess [E [F [P [_ [U1 U2]]]]]]]].
  - tauto.
  - tauto.
  - exists sess, db. rewrite E, F. repeat split; auto.
  - eexists sess, _. split; [exact E|].
    split; [reflexivity|]. split; [reflexivity|]. split; [reflexivity|].
    split.
    + unfold LocalDb.session_of in *. cbn [LocalDb.chatSessions].
      rewrite (find_app_none _ _ sess F), P. reflexivity.
    + rewrite F. intros [|]; assumption.
Qed.

(** X22.  [sendMessage] throws, and leaves the store as it was, exactly
    when the sender or the recipient is unknown or both have the same
    role.  Otherwise it returns an unread message with the given sender,
    recipient and text and the names and role from the user directory,
    appends it to the messages, and touches nothing else but the one
    session of this vendor and client, created if it was missing: the
    message bears that session's id, the session's last message is this
    one, its unread count for the recipient's role is one higher, and
    the count for the sender's role is as before. *)
Theorem sendMessage_outcome (clk_session clk : clock)
  (senderId recipientId message : string) db :
  match LocalDb.sendMessage clk_session clk senderId recipientId message db,
        LocalDb.find_user db senderId, LocalDb.find_user db recipientId with
  | (LocalDb.Thrown e, db'), Some s, Some r =>
      db' = db /\ LocalDb.User.role s = LocalDb.User.role r
      /\ e = "Can only message users with different roles"
  | (LocalDb.Thrown e, db'), _, _ =>
      db' = db /\ e = "Sender or recipient not found"
  | (LocalDb.Returned m, db'), Some s, Some r =>
      let v := if LocalDb.role_eqb (LocalDb.User.role s) LocalDb.vendor
               then senderId else recipientId in
      let c := if LocalDb.role_eqb (LocalDb.User.role s) LocalDb.client
               then senderId else recipientId in
      let before ro :=
        match LocalDb.session_of v c db with
        | Some s0 => LocalDb.unread ro s0
        | None => 0%Z
        end in
      LocalDb.User.role s <> LocalDb.User.role r
      /\ LocalDb.chatMessages db' = (LocalDb.chatMessages db ++ [m])%list
      /\ LocalDb.users db' = LocalDb.users db
      /\ LocalDb.orders db' = LocalDb.orders db
      /\ LocalDb.Msg.read m = false
      /\ (LocalDb.Msg.senderId m, LocalDb.Msg.recipientId m, LocalDb.Msg.message m)
         = (senderId, recipientId, message)
      /\ (LocalDb.Msg.senderName m, LocalDb.Msg.senderRole m,
          LocalDb.Msg.recipientName m)
         = (LocalDb.User.name s, LocalDb.User.role s, LocalDb.User.name r)
      /\ exists sess,
           LocalDb.session_of v c db' = Some sess
           /\ LocalDb.Session.id sess = LocalDb.Msg.chatId m
           /\ LocalDb.Session.lastMessage sess = Some message
           /\ LocalDb.Session.lastMessageTime sess = Some (LocalDb.Msg.timestamp m)
           /\ LocalDb.unread (LocalDb.User.role r) sess
              = (before (LocalDb.User.role r) + 1)%Z
           /\ LocalDb.unread (LocalDb.User.role s) sess
              = before (LocalDb.User.role s)
  | (LocalDb.Returned _, _), _, _ => False
  end.
Proof.
  unfold LocalDb.sendMessage.
  destruct (LocalDb.find_user db senderId) as [s|] eqn:Hs; [|split; reflexivity].
  destruct (LocalDb.find_user db recipientId) as [r|] eqn:Hr; [|split; reflexivity].
  destruct (LocalDb.role_eqb (LocalDb.User.role s) (LocalDb.User.role r)) eqn:Ero.
  - apply role_eqb_eq in Ero. repeat split. exact Ero.
  - assert (Hne : LocalDb.User.role s <> LocalDb.User.role r).
    { intro H. apply role_eqb_eq in H. congruence. }
    destruct (createChatSession_in_sendMessage clk_session db senderId
                recipientId s r Hs Hr Hne) as [sess [db1 [E [U [M [O [F B]]]]]]].
    rewrite E. cbv zeta. simpl LocalDb.chatMessages. simpl LocalDb.users.
    simpl LocalDb.orders. rewrite U, M, O.
    split; [exact Hne|]. repeat (split; [reflexivity|]).
    exists (LocalDb.record_message message (iso_string clk)
              (LocalDb.User.role r) sess).
    unfold LocalDb.session_of in *. simpl LocalDb.chatSessions.
    rewrite find_update_first by (intro x; apply same_pair_record_message).
    rewrite F. simpl. repeat (split; [reflexivity|]).
    rewrite <- !B.
    destruct (LocalDb.User.role s), (LocalDb.User.role r);
      try congruence; split; reflexivity.
Qed.

End StoreChat.

Section StoreSessions.
Context {Details : Type}.
Implicit Types (db : LocalDb.DB Details).

Lemma same_pair_iff (v c : string) (s : LocalDb.Session.t) :
  LocalDb.same_pair v c s = true <-> LocalDb.pair_of s = (v, c).
Proof.
  unfold LocalDb.same_pair, LocalDb.pair_of. rewrite andb_true_iff, !String.eqb_eq.
  split; [intros [-> ->]; reflexivity | intro H; injection H; auto].
Qed.

Lemma createChatSession_pairs (clk : clock) (v c : string) db :
  LocalDb.pairs_unique db ->
  LocalDb.pairs_unique (snd (LocalDb.createChatSession clk v c db)).
Proof.
  intro H.
  destruct (createChatSession_cases clk v c db)
    as [[e [E _]] | [[s [E _]] | [s [E [F [P _]]]]]]; rewrite E; simpl; auto.
  unfold LocalDb.pairs_unique in *. simpl. rewrite map_app. simpl.
  apply NoDup_app; [exact H | repeat constructor; simpl; tauto|].
  intros x Hx [<-|[]]. apply in_map_iff in Hx. destruct Hx as [s0 [E0 Hin]].
  unfold LocalDb.session_of in F.
  pose proof (find_none _ _ F s0 Hin) as N.
  apply same_pair_iff in P. fold (LocalDb.pair_of s0) in E0. fold (LocalDb.pair_of s) in E0.
  assert (LocalDb.same_pair v c s0 = true) by (apply same_pair_iff; congruence).
  congruence.
Qed.

(** X23.  One session per vendor and client.  If no two sessions of the
    store are of the same pair, that is still so after
    [createChatSession], [sendMessage] and [markMessagesAsRead],
    whatever they are called with.  [createChatSession] adds at most
    one session, and asked again for the same pair it returns the same
    session and changes nothing. *)
Theorem chat_sessions_one_per_pair (clk clk' clk2 : clock)
  (v c a b text sessionId userId : string) db :
  LocalDb.pairs_unique db ->
  let created := LocalDb.createChatSession clk v c db in
  LocalDb.pairs_unique (snd created)
  /\ LocalDb.pairs_unique (snd (LocalDb.sendMessage clk clk' a b text db))
  /\ LocalDb.pairs_unique (LocalDb.markMessagesAsRead sessionId userId db)
  /\ length (LocalDb.chatSessions (snd created))
     <= S (length (LocalDb.chatSessions db))
  /\ match fst created with
     | LocalDb.Returned s =>
         LocalDb.createChatSession clk2 v c (snd created)
         = (LocalDb.Returned s, snd created)
     | LocalDb.Thrown _ => snd created = db
     end.
Proof.
  intros H created. subst created. split; [now apply createChatSession_pairs|].
  split; [|split; [|split]].
  - unfold LocalDb.sendMessage.
    destruct (LocalDb.find_user db a) as [s|]; [|exact H].
    destruct (LocalDb.find_user db b) as [r|]; [|exact H].
    destruct (LocalDb.role_eqb _ _); [exact H|].
    match goal with |- context [LocalDb.createChatSession ?k ?x ?y db] =>
      pose proof (createChatSession_pairs k x y db H) as P;
      destruct (LocalDb.createChatSession k x y db) as [[sess|e] db1] end;
      simpl in *; [|exact P].
    unfold LocalDb.pairs_unique in *. simpl.
    rewrite map_update_first; [exact P | reflexivity].
  - unfold LocalDb.markMessagesAsRead.
    destruct (find _ (LocalDb.chatSessions db)); [|exact H].
    destruct (LocalDb.find_user db userId) as [u|]; [|exact H].
    unfold LocalDb.pairs_unique in *. simpl.
    rewrite map_update_first; [exact H|]. intros x. now destruct (LocalDb.User.role u).
  - destruct (createChatSession_cases clk v c db)
      as [[e [E _]] | [[s [E _]] | [s [E _]]]]; rewrite E; simpl; auto.
    rewrite length_app. simpl. lia.
  - destruct (createChatSession_cases clk v c db)
      as [[e [E _]] | [[s [E F]] | [s [E [F [P _]]]]]]; rewrite E; simpl.
    + reflexivity.
    + unfold LocalDb.createChatSession, LocalDb.session_of in *.
      destruct (LocalDb.find_user_with_role db v LocalDb.vendor); [|discriminate].
      destruct (LocalDb.find_user_with_role db c LocalDb.client); [|discriminate].
      now rewrite F.
    + unfold LocalDb.createChatSession, LocalDb.session_of in *.
      unfold LocalDb.find_user_with_role in *. simpl.
      destruct (find _ (LocalDb.users db)); [|discriminate].
      destruct (find _ (LocalDb.users db)); [|discriminate].
      rewrite (find_app_none _ _ s F), P. reflexivity.
Qed.

End StoreSessions.

(** Ann and Bob are registered and no session exists yet. *)
Lemma chat_sessions_one_per_pair_witness :
  LocalDb.pairs_unique StoreRuns.registered
  /\ LocalDb.pairs_unique
       (snd (LocalDb.sendMessage Runs.clk0 Runs.clk0 "A" "B" "hi"
               StoreRuns.registered)).
Proof.
  assert (H : LocalDb.pairs_unique StoreRuns.registered) by constructor.
  split; [exact H|].
  exact (proj1 (proj2
    (chat_sessions_one_per_pair Runs.clk0 Runs.clk0 Runs.clk0
       "B" "A" "A" "B" "hi" "" "" StoreRuns.registered H))).
Defined.

Section StoreRead.
Context {Details : Type}.
Implicit Types (db : LocalDb.DB Details).

Lemma has_id_reset (sessionId : string) (r : LocalDb.Role) (s : LocalDb.Session.t) :
  LocalDb.has_id sessionId (LocalDb.reset_unread r s) = LocalDb.has_id sessionId s.
Proof. now destruct r. Qed.

Lemma markMessagesAsRead_effect_aux (sessionId userId : string) db
  (s : LocalDb.Session.t) (user : LocalDb.User.t) :
  find (LocalDb.has_id sessionId) (LocalDb.chatSessions db) = Some s ->
  LocalDb.find_user db userId = Some user ->
  let db' := LocalDb.markMessagesAsRead sessionId userId db in
  LocalDb.chatMessages db'
  = map (fun m => if LocalDb.addressed sessionId userId m
                  then LocalDb.mark m else m) (LocalDb.chatMessages db)
  /\ find (LocalDb.has_id sessionId) (LocalDb.chatSessions db')
     = Some (LocalDb.reset_unread (LocalDb.User.role user) s)
  /\ LocalDb.unread (LocalDb.User.role user)
       (LocalDb.reset_unread (LocalDb.User.role user) s) = 0%Z.
Proof.
  intros F U db'. subst db'. unfold LocalDb.markMessagesAsRead.
  rewrite F, U. simpl. split; [reflexivity|]. split.
  - rewrite find_update_first by (intro x; apply has_id_reset).
    now rewrite F.
  - now destruct (LocalDb.User.role user).
Qed.

Lemma sendMessage_returned (clk_session clk : clock)
  (senderId recipientId text : string) db (m : LocalDb.Msg.t)
  (db1 : LocalDb.DB Details) :
  LocalDb.sendMessage clk_session clk senderId recipientId text db
  = (LocalDb.Returned m, db1) ->
  exists r sess,
    LocalDb.find_user db recipientId = Some r
    /\ LocalDb.users db1 = LocalDb.users db
    /\ LocalDb.chatMessages db1 = (LocalDb.chatMessages db ++ [m])%list
    /\ LocalDb.Msg.recipientId m = recipientId
    /\ In sess (LocalDb.chatSessions db1)
    /\ LocalDb.Session.id sess = LocalDb.Msg.chatId m.
Proof.
  unfold LocalDb.sendMessage.
  destruct (LocalDb.find_user db senderId) as [s|] eqn:Hs; [|discriminate].
  destruct (LocalDb.find_user db recipientId) as [r|] eqn:Hr; [|discriminate].
  destruct (LocalDb.role_eqb (LocalDb.User.role s) (LocalDb.User.role r)) eqn:Ero;
    [discriminate|].
  assert (Hne : LocalDb.User.role s <> LocalDb.User.role r).
  { intro H. apply role_eqb_eq in H. congruence. }
  destruct (createChatSession_in_sendMessage clk_session db senderId
              recipientId s r Hs Hr Hne) as [sess [db0 [E [U [M [O [F B]]]]]]].
  rewrite E. intro H. injection H as <- <-. simpl.
  exists r, (LocalDb.record_message text (iso_string clk) (LocalDb.User.role r) sess).
  repeat split; try assumption; try (now rewrite M).
  unfold LocalDb.session_of in F.
  assert (G : find (LocalDb.same_pair
                      (if LocalDb.role_eqb (LocalDb.User.role s) LocalDb.vendor
                       then senderId else recipientId)
                      (if LocalDb.role_eqb (LocalDb.User.role s) LocalDb.client
                       then senderId else recipientId))
                (LocalDb.update_first
                   (LocalDb.same_pair
                      (if LocalDb.role_eqb (LocalDb.User.role s) LocalDb.vendor
                       then senderId else recipientId)
                      (if LocalDb.role_eqb (LocalDb.User.role s) LocalDb.client
                       then senderId else recipientId))
                   (LocalDb.record_message text (iso_string clk)
                      (LocalDb.User.role r))
                   (LocalDb.chatSessions db0))
              = Some (LocalDb.record_message text (iso_string clk)
                        (LocalDb.User.role r) sess)).
  { rewrite find_update_first by (intro x; apply same_pair_record_message).
    now rewrite F. }
  apply find_some in G. tauto.
Qed.

(** X24.  [markMessagesAsRead] does nothing when the session id or the
    user id is unknown.  Otherwise it marks as read the messages of
    that chat id that are addressed to the user, and no other; it
    resets the unread count of the user's role, and nothing else, in
    the first session with that id, and leaves every other session,
    the users and the orders alone.  Doing it again changes nothing. *)
Theorem markMessagesAsRead_effect (sessionId userId : string) db :
  let db' := LocalDb.markMessagesAsRead sessionId userId db in
  match find (LocalDb.has_id sessionId) (LocalDb.chatSessions db),
        LocalDb.find_user db userId with
  | Some s, Some user =>
      LocalDb.users db' = LocalDb.users db
      /\ LocalDb.orders db' = LocalDb.orders db
      /\ Forall2 (fun m m' =>
                    m' = if LocalDb.addressed sessionId userId m
                         then LocalDb.mark m else m)
                 (LocalDb.chatMessages db) (LocalDb.chatMessages db')
      /\ LocalDb.chatSessions db'
         = LocalDb.update_first (LocalDb.has_id sessionId)
             (LocalDb.reset_unread (LocalDb.User.role user))
             (LocalDb.chatSessions db)
      /\ find (LocalDb.has_id sessionId) (LocalDb.chatSessions db')
         = Some (LocalDb.reset_unread (LocalDb.User.role user) s)
      /\ LocalDb.unread (LocalDb.User.role user)
           (LocalDb.reset_unread (LocalDb.User.role user) s) = 0%Z
      /\ LocalDb.unread (LocalDb.other_role (LocalDb.User.role user))
           (LocalDb.reset_unread (LocalDb.User.role user) s)
         = LocalDb.unread (LocalDb.other_role (LocalDb.User.role user)) s
      /\ LocalDb.markMessagesAsRead sessionId userId db' = db'
  | _, _ => db' = db
  end.
Proof.
  intro db'. subst db'. unfold LocalDb.markMessagesAsRead.
  destruct (find (LocalDb.has_id sessionId) (LocalDb.chatSessions db))
    as [s|] eqn:F; [|reflexivity].
  unfold LocalDb.find_user.
  destruct (find _ (LocalDb.users db)) as [user|] eqn:U; [|reflexivity].
  simpl. split; [reflexivity|]. split; [reflexivity|]. split.
  { induction (LocalDb.chatMessages db) as [|m l IH]; simpl; constructor; auto. }
  split; [reflexivity|].
  assert (F' : find (LocalDb.has_id sessionId)
                 (LocalDb.update_first (LocalDb.has_id sessionId)
                    (LocalDb.reset_unread (LocalDb.User.role user))
                    (LocalDb.chatSessions db))
               = Some (LocalDb.reset_unread (LocalDb.User.role user) s)).
  { rewrite find_update_first by (intro x; apply has_id_reset).
    now rewrite F. }
  split; [exact F'|].
  split; [now destruct (LocalDb.User.role user)|].
  split; [now destruct (LocalDb.User.role user)|].
  rewrite F', U. f_equal.
  - rewrite map_map. apply map_ext. intro m.
    destruct (LocalDb.addressed sessionId userId m) eqn:A; [|now rewrite A].
    unfold LocalDb.addressed in *. simpl. now rewrite A.
  - clear F F'. induction (LocalDb.chatSessions db) as [|x l IH]; simpl;
      [reflexivity|].
    destruct (LocalDb.has_id sessionId x) eqn:E; simpl.
    + rewrite has_id_reset, E. now destruct (LocalDb.User.role user).
    + now rewrite E, IH.
Qed.

(** X25.  Send, then read.  After a message has been sent, when its
    recipient marks the message's chat as read, the message is stored
    as read, at its place at the end of the messages, and the first
    session with that chat id shows no unread message for the
    recipient's role. *)
Theorem send_then_mark_read (clk_session clk : clock)
  (senderId recipientId text : string) db (m : LocalDb.Msg.t)
  (db1 : LocalDb.DB Details) :
  LocalDb.sendMessage clk_session clk senderId recipientId text db
  = (LocalDb.Returned m, db1) ->
  let db2 := LocalDb.markMessagesAsRead (LocalDb.Msg.chatId m) recipientId db1 in
  exists r s,
    LocalDb.find_user db recipientId = Some r
    /\ LocalDb.chatMessages db2
       = (map (fun x => if LocalDb.addressed (LocalDb.Msg.chatId m) recipientId x
                        then LocalDb.mark x else x) (LocalDb.chatMessages db)
          ++ [LocalDb.mark m])%list
    /\ LocalDb.Msg.read (LocalDb.mark m) = true
    /\ find (LocalDb.has_id (LocalDb.Msg.chatId m)) (LocalDb.chatSessions db2)
       = Some s
    /\ LocalDb.unread (LocalDb.User.role r) s = 0%Z.
Proof.
  intros E db2.
  destruct (sendMessage_returned _ _ _ _ _ _ _ _ E)
    as [r [sess [Hr [U [M [Hrec [Hin I]]]]]]].
  assert (Hfind : exists s0, find (LocalDb.has_id (LocalDb.Msg.chatId m))
                               (LocalDb.chatSessions db1) = Some s0).
  { apply (find_of_in _ _ sess Hin). unfold LocalDb.has_id. rewrite I.
    apply String.eqb_refl. }
  destruct Hfind as [s0 Hs0].
  assert (Hr1 : LocalDb.find_user db1 recipientId = Some r).
  { unfold LocalDb.find_user in *. now rewrite U. }
  pose proof (markMessagesAsRead_effect_aux (LocalDb.Msg.chatId m) recipientId
                db1 s0 r Hs0 Hr1) as [A [B C]].
  exists r, (LocalDb.reset_unread (LocalDb.User.role r) s0).
  split; [exact Hr|]. subst db2. rewrite A, B, M, map_app. simpl.
  unfold LocalDb.addressed at 2. rewrite Hrec, !String.eqb_refl. simpl.
  repeat split. exact C.
Qed.

End StoreRead.

(** Ann writes "hi" to Bob; Bob opens the chat. *)
Lemma send_then_mark_read_witness :
  LocalDb.sendMessage Runs.clk0 Runs.clk0 "A" "B" "hi" StoreRuns.registered
  = (LocalDb.Returned StoreRuns.hi, StoreRuns.after_hi)
  /\ exists r s,
       LocalDb.find_user StoreRuns.registered "B" = Some r
       /\ LocalDb.chatMessages
            (LocalDb.markMessagesAsRead "1700000000000" "B" StoreRuns.after_hi)
          = [LocalDb.mark StoreRuns.hi]
       /\ LocalDb.Msg.read (LocalDb.mark StoreRuns.hi) = true
       /\ find (LocalDb.has_id "1700000000000")
            (LocalDb.chatSessions
               (LocalDb.markMessagesAsRead "1700000000000" "B" StoreRuns.after_hi))
          = Some s
       /\ LocalDb.unread (LocalDb.User.role r) s = 0%Z.
Proof.
  assert (H : LocalDb.sendMessage Runs.clk0 Runs.clk0 "A" "B" "hi"
                StoreRuns.registered
              = (LocalDb.Returned StoreRuns.hi, StoreRuns.after_hi))
    by reflexivity.
  split; [exact H|].
  exact (send_then_mark_read Runs.clk0 Runs.clk0 "A" "B" "hi"
           StoreRuns.registered StoreRuns.hi StoreRuns.after_hi H).
Defined.

Section StoreUsersOrders.
Context {Details : Type}.
Implicit Types (db : LocalDb.DB Details).

(** Picking the users of one role, the caller left out, keeps ids
    unique. *)
Lemma opposite_users_nodup (caller : string) (r : LocalDb.Role)
  (us : list LocalDb.User.t) :
  NoDup (map LocalDb.User.id us) ->
  NoDup (map LocalDb.User.id
           (filter (fun u => LocalDb.role_eqb (LocalDb.User.role u) r
                             && negb (String.eqb (LocalDb.User.id u) caller))
              us)).
Proof.
  induction us as [|u us IH]; simpl; intro H; [constructor|].
  inversion H as [|? ? Hn Hr]; subst.
  destruct (LocalDb.role_eqb (LocalDb.User.role u) r
            && negb (String.eqb (LocalDb.User.id u) caller)); simpl.
  - constructor; [|now apply IH]. intro Hin. apply Hn.
    apply in_map_iff in Hin. destruct Hin as [v [E Hv]].
    apply filter_In in Hv. apply in_map_iff. exists v. tauto.
  - now apply IH.
Qed.

(** X26.  [getAvailableUsers] answers an unknown caller with nothing.
    For a known caller it lists the users whose role is the other one
    than the caller's and whose id is not the caller's, each once for
    each time the directory holds it and in the order of the directory,
    as a card with the user's id, name and role and online false.  So
    every card has the other role, is not the caller's and is offline,
    and when the directory's ids are unique so are the listed ones. *)
Theorem getAvailableUsers_opposite_role (currentUserId : string) db :
  match LocalDb.find_user db currentUserId with
  | None => LocalDb.getAvailableUsers currentUserId db = []
  | Some me =>
      let listed := LocalDb.getAvailableUsers currentUserId db in
      let offered u :=
        LocalDb.role_eqb (LocalDb.User.role u)
          (LocalDb.other_role (LocalDb.User.role me))
        && negb (String.eqb (LocalDb.User.id u) currentUserId) in
      listed
      = map (fun u => {| LocalDb.ChatUser.id := LocalDb.User.id u;
                         LocalDb.ChatUser.name := LocalDb.User.name u;
                         LocalDb.ChatUser.role := LocalDb.User.role u;
                         LocalDb.ChatUser.online := false |})
            (filter offered (LocalDb.users db))
      /\ Forall (fun x =>
                LocalDb.ChatUser.role x = LocalDb.other_role (LocalDb.User.role me)
                /\ LocalDb.ChatUser.id x <> currentUserId
                /\ LocalDb.ChatUser.online x = false)
             listed
      /\ (forall u, In u (LocalDb.users db) ->
            LocalDb.User.role u <> LocalDb.User.role me ->
            LocalDb.User.id u <> currentUserId ->
            In {| LocalDb.ChatUser.id := LocalDb.User.id u;
                  LocalDb.ChatUser.name := LocalDb.User.name u;
                  LocalDb.ChatUser.role := LocalDb.User.role u;
                  LocalDb.ChatUser.online := false |} listed)
      /\ (forall x, In x listed ->
            exists u, In u (LocalDb.users db)
                      /\ LocalDb.ChatUser.id x = LocalDb.User.id u
                      /\ LocalDb.ChatUser.name x = LocalDb.User.name u)
      /\ length listed <= length (LocalDb.users db)
      /\ (NoDup (map LocalDb.User.id (LocalDb.users db)) ->
          NoDup (map LocalDb.ChatUser.id listed))
  end.
Proof.
  unfold LocalDb.getAvailableUsers.
  destruct (LocalDb.find_user db currentUserId) as [me|]; [|reflexivity].
  cbv zeta.
  assert (Ht : (if LocalDb.role_eqb (LocalDb.User.role me) LocalDb.vendor
                then LocalDb.client else LocalDb.vendor)
               = LocalDb.other_role (LocalDb.User.role me))
    by now destruct (LocalDb.User.role me).
  rewrite Ht. split; [reflexivity|]. split; [|split; [|split; [|split]]].
  - apply Forall_forall. intros x Hx. apply in_map_iff in Hx.
    destruct Hx as [u [<- Hu]]. apply filter_In in Hu. destruct Hu as [_ Hu].
    apply andb_true_iff in Hu. destruct Hu as [H1 H2]. simpl.
    apply role_eqb_eq in H1. apply negb_true_iff in H2.
    apply String.eqb_neq in H2. auto.
  - intros u Hu Hr Hi. apply in_map_iff. exists u. split; [reflexivity|].
    apply filter_In. split; [exact Hu|]. apply andb_true_iff. split.
    + apply role_eqb_eq.
      destruct (LocalDb.User.role u), (LocalDb.User.role me); simpl; congruence.
    + apply negb_true_iff. now apply String.eqb_neq.
  - intros x Hx. apply in_map_iff in Hx. destruct Hx as [u [<- Hu]].
    apply filter_In in Hu. exists u. simpl. tauto.
  - rewrite length_map. apply filter_length_le.
  - intro Hn. rewrite map_map. simpl.
    now apply opposite_users_nodup.
Qed.

Lemma order_has_id_with_status (clk : clock) (orderId : string)
  (st : LocalDb.Order.Status) (ps : option LocalDb.Order.PaymentStatus)
  (o : LocalDb.Order.t Details) :
  LocalDb.order_has_id orderId (LocalDb.with_status clk st ps o)
  = LocalDb.order_has_id orderId o.
Proof. reflexivity. Qed.

(** X27.  [updateOrderStatus] answers an unknown order id with null and
    leaves the store as it was.  For a known id it returns the first
    order with that id, with the new status, the new payment status
    when one is given and the old one otherwise, and the clock's time
    as updatedAt; [getOrderById] then returns that same order.  The
    order keeps its id, user and details, the list keeps its length,
    and looking up any other id gives what it gave before. *)
Theorem updateOrderStatus_round_trip (clk : clock) (orderId : string)
  (st : LocalDb.Order.Status) (ps : option LocalDb.Order.PaymentStatus) db :
  let '(returned, db') := LocalDb.updateOrderStatus clk orderId st ps db in
  match LocalDb.getOrderById orderId db with
  | None => returned = None /\ db' = db
  | Some o =>
      exists o',
        returned = Some o'
        /\ LocalDb.getOrderById orderId db' = Some o'
        /\ LocalDb.Order.status o' = st
        /\ LocalDb.Order.paymentStatus o'
           = match ps with Some p => p | None => LocalDb.Order.paymentStatus o end
        /\ LocalDb.Order.updatedAt o' = iso_string clk
        /\ (LocalDb.Order.id o', LocalDb.Order.userId o', LocalDb.Order.details o')
           = (orderId, LocalDb.Order.userId o, LocalDb.Order.details o)
        /\ length (LocalDb.orders db') = length (LocalDb.orders db)
        /\ (forall other, other <> orderId ->
              LocalDb.getOrderById other db' = LocalDb.getOrderById other db)
        /\ LocalDb.users db' = LocalDb.users db
        /\ LocalDb.chatMessages db' = LocalDb.chatMessages db
        /\ LocalDb.chatSessions db' = LocalDb.chatSessions db
  end.
Proof.
  unfold LocalDb.updateOrderStatus, LocalDb.getOrderById.
  destruct (find (LocalDb.order_has_id orderId) (LocalDb.orders db))
    as [o|] eqn:F; [|split; reflexivity].
  eexists. split; [reflexivity|]. simpl.
  split.
  { rewrite find_update_first by (intro x; apply order_has_id_with_status).
    now rewrite F. }
  repeat (split; [reflexivity|]).
  split.
  { apply find_some in F. destruct F as [_ F]. unfold LocalDb.order_has_id in F.
    apply String.eqb_eq in F. now rewrite F. }
  split; [apply length_update_first|].
  split; [|repeat split].
  intros other Ho. apply find_update_first_other.
  - intro x. reflexivity.
  - intros x Hx. unfold LocalDb.order_has_id in *.
    apply String.eqb_eq in Hx. apply String.eqb_neq. congruence.
Qed.

End StoreUsersOrders.

(* ================================================================== *)
(** * The chat page and the router together *)
(* ================================================================== *)

(** X28.  The chat page sends nothing for an empty message, while a
    send is under way, without a socket, or when the store did not
    accept the message.  Otherwise it sends one send-message for the
    selected chat, from the viewer to the other participant, and the
    router turns it into one receive-message for the personal channel
    of that other participant and one message-sent for the sending
    connection, with the chat's id, the viewer as sender and the
    trimmed text. *)
Theorem chat_message_goes_to_other_participant (st : server) (clk : clock)
  (sid trimmed : string) (u : ChatPage.SessionUser) (sel : ChatPage.ChatSession)
  (sending socket success : bool) (saved : option obj) :
  let other := ChatPage.recipient_for u sel in
  match ChatPage.sendMessage_emit (Some u) (Some sel) trimmed sending socket
          success saved with
  | None =>
      trimmed = "" \/ sending = true \/ socket = false \/ success = false
  | Some p =>
      trimmed <> "" /\ sending = false /\ socket = true /\ success = true
      /\ exists record,
           emissions (snd (step st (clk, SendMessage sid p)))
           = [(ToRoom (user_room other), "receive-message", DObj record);
              (ToSocket sid, "message-sent", DObj record)]
           /\ (field record "chatId", field record "senderId",
               field record "recipientId", field record "message")
              = (ChatPage.session_id sel, ChatPage.user_id u, other, JStr trimmed)
           /\ (other = ChatPage.clientId (ChatPage.participants sel)
               \/ other = ChatPage.vendorId (ChatPage.participants sel))
           /\ (ChatPage.user_id u = ChatPage.vendorId (ChatPage.participants sel)
               -> other = ChatPage.clientId (ChatPage.participants sel))
           /\ (ChatPage.user_id u <> ChatPage.vendorId (ChatPage.participants sel)
               -> other = ChatPage.vendorId (ChatPage.participants sel))
  end.
Proof.
  intro other. unfold ChatPage.sendMessage_emit.
  destruct (String.eqb trimmed "") eqn:E; cbn [orb negb].
  { apply String.eqb_eq in E. auto. }
  destruct sending; cbn [orb negb]; [auto|].
  destruct socket; cbn [orb negb]; [|auto].
  destruct success; [|auto].
  apply String.eqb_neq in E. split; [exact E|].
  split; [reflexivity|]. split; [reflexivity|]. split; [reflexivity|].
  rewrite step_send_message. eexists. split; [reflexivity|].
  split; [reflexivity|]. subst other. unfold ChatPage.recipient_for.
  destruct (strict_equal (ChatPage.vendorId (ChatPage.participants sel))
              (ChatPage.user_id u)) eqn:V.
  - apply strict_equal_eq in V. repeat split; auto. intro H. congruence.
  - repeat split; auto. intro H. rewrite H in V.
    unfold strict_equal in V. rewrite same_value_zero_refl in V. discriminate.
Qed.

(** X29.  A typing indicator, there and back.  What the typist's page
    emits while typing changes nothing in the router and is turned into
    one user-typing with the typist's chat id and name, addressed to
    the room named by the chat id without the typist's connection; the
    stop-typing that follows becomes one user-stop-typing with the chat
    id, addressed likewise.  Either is delivered to exactly the
    connections that are in a room of that name, the typist's own left
    out -- to nobody when no connection is in such a room.  A page whose
    listener is handed the user-typing shows the typist's name when the
    typist's chat is the one it has selected and keeps what it showed
    otherwise; handed the user-stop-typing next, it clears the indicator
    under the same condition. *)
Theorem typing_indicator_there_and_back (st : server) (clk clk' : clock)
  (sid : string) (typist : ChatPage.SessionUser)
  (typist_chat : ChatPage.ChatSession)
  (selected : option ChatPage.ChatSession) (shown : jsval) :
  let chat := ChatPage.session_id typist_chat in
  let same_chat := strict_equal (ChatPage.selected_id selected) chat in
  let typing := [("chatId", chat); ("name", ChatPage.user_name typist)] in
  let stopped := [("chatId", chat)] in
  step st (clk, Typing sid (ChatPage.typing_payload (Some typist) typist_chat))
  = (st, [Emit (ToRoomExcept chat sid) "user-typing" (DObj typing)])
  /\ step st (clk', StopTyping sid
                      (ChatPage.stop_typing_payload (Some typist) typist_chat))
     = (st, [Emit (ToRoomExcept chat sid) "user-stop-typing" (DObj stopped)])
  /\ (forall x, In x (recipients (sockets st) (ToRoomExcept chat sid)) <->
        x <> sid
        /\ exists s, In s (sockets st) /\ id s = x /\ in_room chat s = true)
  /\ (forallb (fun s => negb (in_room chat s)) (sockets st) = true ->
      recipients (sockets st) (ToRoomExcept chat sid) = [])
  /\ ChatPage.handleTyping selected typing shown
     = (if same_chat then ChatPage.user_name typist else shown)
  /\ ChatPage.handleStopTyping selected stopped
       (ChatPage.handleTyping selected typing shown)
     = (if same_chat then JNull else shown).
Proof.
  intros chat same_chat typing stopped.
  destruct (step_session_events st clk sid
              (ChatPage.typing_payload (Some typist) typist_chat)) as [T _].
  destruct (step_session_events st clk' sid
              (ChatPage.stop_typing_payload (Some typist) typist_chat))
    as [_ [S _]].
  split; [exact T|]. split; [exact S|]. split; [|split; [|split]].
  - intro x. rewrite recipients_room_except. split.
    + intros [s [H1 [H2 [H3 H4]]]]. split; [exact H4|]. exists s. auto.
    + intros [H4 [s [H1 [H2 H3]]]]. exists s. auto.
  - intro H. simpl. induction (sockets st) as [|s l IH]; [reflexivity|].
    simpl in H. apply andb_true_iff in H. destruct H as [H1 H2].
    apply negb_true_iff in H1. simpl. rewrite H1. simpl. now apply IH.
  - subst same_chat typing. unfold ChatPage.handleTyping. reflexivity.
  - subst same_chat typing stopped.
    unfold ChatPage.handleTyping, ChatPage.handleStopTyping. simpl.
    now destruct (strict_equal (ChatPage.selected_id selected) chat).
Qed.

(** ** Chat ids of the store are no room names *)

Lemma decimal_head (n : Z) :
  exists c rest, decimal n = String c rest /\ Wiring.digit_or_minus c = true.
Proof.
  unfold decimal. destruct (Z.to_int n) as [d|d]; simpl.
  - destruct d; simpl; eexists _, _; split; reflexivity.
  - eexists _, _; split; reflexivity.
Qed.

Lemma ordinary_avoids (n : Z) (ce : clock * event) :
  Wiring.ordinary_for (decimal n) ce = true ->
  avoids_room (JStr (decimal n)) ce = true.
Proof.
  unfold Wiring.ordinary_for, avoids_room.
  destruct (decimal_head n) as [c [rest [E D]]]. rewrite E.
  destruct (snd ce); auto.
  - simpl. now rewrite String.eqb_sym.
  - intro H. apply andb_true_iff. split.
    + apply negb_true_iff. unfold user_room. simpl.
      destruct (Ascii.eqb c "u") eqn:Ec; [|reflexivity].
      apply Ascii.eqb_eq in Ec. subst c. discriminate D.
    + apply negb_true_iff. apply orb_true_iff in H.
      destruct H as [H|H]; apply same_value_zero_eq in H; rewrite H; simpl.
      * destruct (Ascii.eqb c "v") eqn:Ec; [|reflexivity].
        apply Ascii.eqb_eq in Ec. subst c. discriminate D.
      * destruct (Ascii.eqb c "c") eqn:Ec; [|reflexivity].
        apply Ascii.eqb_eq in Ec. subst c. discriminate D.
Qed.

Lemma avoided_room_has_no_member (tr : list (clock * event)) (c : jsval) :
  forallb (avoids_room c) tr = true ->
  forallb (fun s => negb (in_room c s))
    (sockets (state_after initial tr)) = true.
Proof.
  intro Ha. rewrite sockets_run. simpl sockets.
  assert (G : forall socks,
            forallb (fun s => negb (in_room c s)) socks = true ->
            forallb (fun s => negb (in_room c s))
              (fold_left sockets_next (map snd tr) socks) = true).
  { induction tr as [|[clk e] tr IH]; intros socks Hs; simpl in *.
    - exact Hs.
    - apply andb_true_iff in Ha. destruct Ha as [A1 A2].
      apply IH; [exact A2|]. now apply (sockets_next_outside c clk). }
  now apply G.
Qed.

(** X30.  The store names a new chat session by its creation time in
    milliseconds, a decimal numeral.  For a chat with such an id, in
    every state the router reaches through events whose joins carry the
    role vendor or client and whose socket ids are not that numeral, no
    connection is in the chat's room: the user-typing, user-stop-typing
    and message-read of that chat are delivered to nobody. *)
Theorem store_chats_have_no_listeners {Details : Type}
  (tr : list (clock * event)) (n : Z) :
  forallb (Wiring.ordinary_for (decimal n)) tr = true ->
  let st := state_after initial tr in
  let chat := JStr (decimal n) in
  recipients (sockets st) (ToRoom chat) = []
  /\ (forall sid, recipients (sockets st) (ToRoomExcept chat sid) = [])
  /\ (forall (clk : clock) (v c : string) (db : LocalDb.DB Details),
        LocalDb.session_of v c db = None ->
        date_now clk = n ->
        match fst (LocalDb.createChatSession clk v c db) with
        | LocalDb.Returned s => JStr (LocalDb.Session.id s) = chat
        | LocalDb.Thrown _ => True
        end).
Proof.
  intros Ho st chat.
  assert (Ha : forallb (avoids_room chat) tr = true).
  { apply forallb_forall. intros ce Hce. apply ordinary_avoids.
    rewrite forallb_forall in Ho. now apply Ho. }
  pose proof (avoided_room_has_no_member tr chat Ha) as Hout. fold st in Hout.
  split; [|split].
  - simpl. induction (sockets st) as [|s l IH]; simpl in *; [reflexivity|].
    apply andb_true_iff in Hout. destruct Hout as [H1 H2].
    apply negb_true_iff in H1. rewrite H1. now apply IH.
  - intro sid. simpl.
    induction (sockets st) as [|s l IH]; simpl in *; [reflexivity|].
    apply andb_true_iff in Hout. destruct Hout as [H1 H2].
    apply negb_true_iff in H1. rewrite H1. simpl. now apply IH.
  - intros clk v c db Hnone Hn.
    destruct (createChatSession_cases clk v c db)
      as [[e [E _]] | [[s [E F]] | [s [E [_ [_ [I _]]]]]]]; rewrite E; simpl.
    + exact I.
    + congruence.
    + subst chat. now rewrite I, Hn.
Qed.

(** Ann's session: two connections, two joins with roles client and
    vendor; the chat was created at 1700000000000. *)
Lemma store_chats_have_no_listeners_witness :
  forallb (Wiring.ordinary_for (decimal 1700000000000)) Runs.ann_session = true
  /\ recipients (sockets (state_after initial Runs.ann_session))
       (ToRoom (JStr "1700000000000")) = [].
Proof.
  split; [reflexivity|].
  exact (proj1
    (@store_chats_have_no_listeners unit Runs.ann_session 1700000000000 eq_refl)).
Defined.
